(** * toxicmaster: the build orchestration core

    A shallow embedding of [toxicmaster/build.py] and of the streaming part
    of [toxicmaster/client.py], with the properties of the data model, the
    trigger rules, the build numbering, cancellation and the manager that the
    specification states.

    Conventions.
    - Python strings are [string]; statuses stay strings, as in the source,
      and the [choices] of a field appear as hypotheses where a property
      needs them.
    - A Python exception is a value of [exn]; a call that may raise returns a
      [result].
    - The document store, the per-repository queue and everything the code
      sends (signals, notifications, launched tasks, log lines) live in a
      [World] that is threaded through the operations. *)

From Stdlib Require Import List String ZArith Lia Bool Arith Permutation Finite.
Import ListNotations.
Open Scope string_scope.

Set Implicit Arguments.

(** ** Exceptions and results *)

Inductive exn : Type :=
| ValueError
| IndexError
| KeyError
| AttributeError
| DoesNotExist
| MultipleObjectsReturned
| DBError
| ImpossibleCancellation
| OtherError (name : string).

Inductive result (A : Type) : Type :=
| Ok (a : A)
| Raise (e : exn).

Arguments Ok {A} a.
Arguments Raise {A} e.

(** ** Statuses *)

Definition RUNNING := "running".
Definition FAIL := "fail".
Definition SUCCESS := "success".
Definition EXCEPTION := "exception".
Definition WARNING := "warning".
Definition CANCELLED := "cancelled".
Definition PENDING := "pending".
Definition PREPARING := "preparing".
Definition NO_BUILDS := "no builds".
Definition NO_CONFIG := "no config".

(** [BuildStep.STATUSES], [Build.STATUSES] and [BuildSet.STATUSES]. *)
Definition BuildStep_STATUSES : list string :=
  [RUNNING; FAIL; SUCCESS; EXCEPTION; WARNING; CANCELLED].

Definition Build_STATUSES : list string :=
  BuildStep_STATUSES ++ [PENDING; PREPARING].

Definition BuildSet_STATUSES : list string :=
  [NO_BUILDS; NO_CONFIG] ++ Build_STATUSES.

(** The statuses used in builds ordered by priority. *)
Definition ORDERED_STATUSES : list string :=
  ["running"; "cancelled"; "exception"; "fail";
   "warning"; "success"; "preparing"; "pending"].

(** ** Python list helpers *)

(** [x in l] for a list of strings. *)
Definition str_in (x : string) (l : list string) : bool :=
  existsb (String.eqb x) l.

(** [l.index(x)]: the first position of [x], [ValueError] when absent. *)
Fixpoint index (x : string) (l : list string) : result nat :=
  match l with
  | [] => Raise ValueError
  | y :: l' =>
      if String.eqb y x then Ok 0
      else match index x l' with
           | Ok n => Ok (S n)
           | Raise e => Raise e
           end
  end.

Section Sorted.
Variables A K : Type.
Variable leb : K -> K -> bool.
Variable key : A -> result K.

(** [sorted] first computes the key of every element, in order; the first
    key that raises aborts the call. *)
Fixpoint keys_of (l : list A) : result (list (K * A)) :=
  match l with
  | [] => Ok []
  | x :: l' =>
      match key x with
      | Raise e => Raise e
      | Ok k =>
          match keys_of l' with
          | Raise e => Raise e
          | Ok kl => Ok ((k, x) :: kl)
          end
      end
  end.

(** Stable insertion: [x] comes from the left of everything in [l], so it
    goes before the first element whose key does not come before its
    own. *)
Fixpoint insert_by (x : K * A) (l : list (K * A)) : list (K * A) :=
  match l with
  | [] => [x]
  | y :: l' =>
      if leb (fst x) (fst y) then x :: y :: l' else y :: insert_by x l'
  end.

Definition sort_by (kl : list (K * A)) : list (K * A) :=
  fold_right insert_by [] kl.

(** [sorted(l, key=key)], for the order [leb] on the keys. *)
Definition sorted (l : list A) : result (list A) :=
  match keys_of l with
  | Raise e => Raise e
  | Ok kl => Ok (map snd (sort_by kl))
  end.
End Sorted.

(** ** Data model *)

Definition uuid := nat.
Definition object_id := nat.

(** [BuildTrigger]: what triggers a build. *)
Record BuildTrigger : Type := mkBuildTrigger {
  builder_name : string;
  statuses : list string
}.

(** [Builder].  [triggered_by] is the attribute that is not saved: it is
    read from the config on a revision basis. *)
Record Builder : Type := mkBuilder {
  builder_id : object_id;
  name : string;
  builder_repository : object_id;
  position : Z;
  builder_triggered_by : list BuildTrigger
}.

(** [Build], embedded in a [BuildSet].  The reference fields hold the id of
    the document ([slave]) or the document itself ([builder], whose name is
    what the code reads through the reference).  Steps and timestamps are
    not read by the operations below and are left out. *)
Record Build : Type := mkBuild {
  build_uuid : uuid;
  build_repository : object_id;
  slave : option object_id;
  build_branch : string;
  named_tree : string;
  builder : Builder;
  status : string;
  external : option string;
  builders_from : option string;
  number : Z;
  triggered_by : list BuildTrigger
}.

(** [RepositoryRevision], as far as the manager reads it. *)
Record Revision : Type := mkRevision {
  revision_id : object_id;
  commit : string;
  branch : string;
  builders_fallback : string;
  create_builds : bool;
  has_config : bool;
  include_builders : list string;
  exclude_builders : list string
}.

(** [BuildSet]. *)
Record BuildSet : Type := mkBuildSet {
  buildset_id : object_id;
  repository : object_id;
  revision : Revision;
  buildset_branch : string;
  builds : list Build;
  created : nat;
  buildset_status : string;
  buildset_number : Z
}.

(** ** [BuildSet.get_status] *)

(** [set(...)] iterates in an order the language does not fix.  The order is
    a parameter: a function that lists every element of its argument
    exactly once. *)
Definition set_iteration (set_of : list string -> list string) : Prop :=
  forall l, NoDup (set_of l) /\ (forall x, In x (set_of l) <-> In x l).

Section GetStatus.
Variable set_of : list string -> list string.

Definition get_status (self : BuildSet) : result string :=
  match builds self with
  | [] => Ok NO_BUILDS
  | _ :: _ =>
      let build_statuses := set_of (map status (builds self)) in
      match sorted Nat.leb (fun i => index i ORDERED_STATUSES)
                   build_statuses with
      | Raise e => Raise e
      | Ok ordered_statuses =>
          match ordered_statuses with
          | [] => Raise IndexError
          | s :: _ => Ok s
          end
      end
  end.
End GetStatus.

(** A [set] that lists first occurrences from the right, for examples. *)
Definition py_set : list string -> list string := nodup string_dec.

(** ** The world outside the functions *)

(** An entry of the list [list_builders_from_config] returns: [bconf['name']]
    and [bconf.get('triggered_by')]. *)
Record BuilderConf : Type := mkBuilderConf {
  bconf_name : string;
  bconf_triggered_by : option (list BuildTrigger)
}.

(** Modelled from the spec: [toxicmaster/slave.py] is not among the sources.
    The spec gives a slave a list [enqueued_builds] of build uuids and a
    counter [queue_count]. *)
Record Slave : Type := mkSlave {
  slave_id : object_id;
  enqueued_builds : list uuid;
  queue_count : Z
}.

(** What the core takes from its collaborators: [toxiccore] (the pattern
    matching behind [MatchKeysDict], [list_builders_from_config]), the
    settings, the repository document and the connection to a slave. *)
Class Env : Type := {
  Config : Type;
  (** [match_string(key, [pattern])] of [toxiccore.utils]. *)
  match_string : string -> string -> bool;
  (** [list_builders_from_config(conf, branch, config_type=...)]. *)
  list_builders_from_config :
    Config -> string -> string -> result (list BuilderConf);
  (** [get_build_config_type()]. *)
  config_type : string;
  (** [repository.get_config_for(revision)]. *)
  get_config_for : Revision -> Config;
  (** [repository.notify_only_latest(branch)]. *)
  notify_only_latest : string -> bool;
  (** The id of [self.repository]. *)
  repository_id : object_id;
  (** Modelled from the spec: whether the cancel request that
      [slave.cancel_build(build)] sends to the worker raises. *)
  cancel_request : object_id -> uuid -> result unit
}.

(** Everything the code sends out, in the order it is sent. *)
Inductive Event : Type :=
| Logged (level msg : string)
| build_added_send (sender : object_id) (build : Build)
| build_cancelled_send (sender : object_id) (build : Build)
| buildset_added_send (sender : object_id) (buildset : BuildSet)
| build_notify (event_type : string) (build : Build)
| buildset_notify_task (event_type : string) (buildset : object_id)
| execute_builds_task (repo : object_id)
| cancel_build_request (slave : object_id) (build : uuid).

Record World : Type := mkWorld {
  (** The [BuildSet] collection, in the default order of
      [BuildSet.objects] (by [created]). *)
  w_buildsets : list BuildSet;
  (** The [Builder] collection. *)
  w_builders : list Builder;
  (** The [Slave] collection. *)
  w_slaves : list Slave;
  (** [BuildManager._build_queues[repository.id]]. *)
  w_queue : list BuildSet;
  (** [BuildManager._is_building[repository.id]]. *)
  w_is_building : bool;
  w_trace : list Event;
  (** The supply of fresh object ids and uuids. *)
  w_next_id : nat;
  (** [now()]. *)
  w_clock : nat
}.

Definition with_buildsets (w : World) (l : list BuildSet) : World :=
  mkWorld l (w_builders w) (w_slaves w) (w_queue w) (w_is_building w)
          (w_trace w) (w_next_id w) (w_clock w).

Definition with_builders (w : World) (l : list Builder) : World :=
  mkWorld (w_buildsets w) l (w_slaves w) (w_queue w) (w_is_building w)
          (w_trace w) (w_next_id w) (w_clock w).

Definition with_slaves (w : World) (l : list Slave) : World :=
  mkWorld (w_buildsets w) (w_builders w) l (w_queue w) (w_is_building w)
          (w_trace w) (w_next_id w) (w_clock w).

Definition with_queue (w : World) (l : list BuildSet) : World :=
  mkWorld (w_buildsets w) (w_builders w) (w_slaves w) l (w_is_building w)
          (w_trace w) (w_next_id w) (w_clock w).

Definition with_trace (w : World) (l : list Event) : World :=
  mkWorld (w_buildsets w) (w_builders w) (w_slaves w) (w_queue w)
          (w_is_building w) l (w_next_id w) (w_clock w).

Definition with_next_id (w : World) (n : nat) : World :=
  mkWorld (w_buildsets w) (w_builders w) (w_slaves w) (w_queue w)
          (w_is_building w) (w_trace w) n (w_clock w).

Definition with_clock (w : World) (n : nat) : World :=
  mkWorld (w_buildsets w) (w_builders w) (w_slaves w) (w_queue w)
          (w_is_building w) (w_trace w) (w_next_id w) n.

(** ** The monad of the operations: state and exceptions *)

Definition M (A : Type) : Type := World -> result A * World.

Definition ret {A : Type} (a : A) : M A := fun w => (Ok a, w).

Definition raise {A : Type} (e : exn) : M A := fun w => (Raise e, w).

Definition bind {A B : Type} (c : M A) (f : A -> M B) : M B :=
  fun w =>
    match c w with
    | (Ok a, w') => f a w'
    | (Raise e, w') => (Raise e, w')
    end.

(** [try: c  except <exceptions h accepts>: ...]: what [c] did to the world
    before it raised stays done. *)
Definition try_except {A : Type} (c : M A) (h : exn -> option (M A)) : M A :=
  fun w =>
    match c w with
    | (Ok a, w') => (Ok a, w')
    | (Raise e, w') =>
        match h e with
        | Some k => k w'
        | None => (Raise e, w')
        end
    end.

Definition lift {A : Type} (r : result A) : M A := fun w => (r, w).

Definition get_world : M World := fun w => (Ok w, w).

Definition put_world (w' : World) : M unit := fun _ => (Ok tt, w').

Declare Scope monad_scope.
Delimit Scope monad_scope with monad.

Notation "x <- c1 ;; c2" := (bind c1 (fun x => c2))
  (at level 100, c1 at next level, right associativity) : monad_scope.

Notation "' pat <- c1 ;; c2" :=
  (bind c1 (fun x => match x with pat => c2 end))
  (at level 100, pat pattern, c1 at next level, right associativity)
  : monad_scope.

Notation "c1 ;; c2" := (bind c1 (fun _ => c2))
  (at level 100, right associativity) : monad_scope.

Open Scope monad_scope.

Definition emit (e : Event) : M unit :=
  fun w => (Ok tt, with_trace w (w_trace w ++ [e])).

(** [self.log(msg, level=level)]; the message is kept as its template. *)
Definition log (msg level : string) : M unit := emit (Logged level msg).

(** A fresh id: [uuid4()] or the [ObjectId] of a new document. *)
Definition fresh_id : M nat :=
  fun w => (Ok (w_next_id w), with_next_id w (S (w_next_id w))).

(** [for x in l: body(x)], threading the local variables [acc]. *)
Fixpoint for_each {A S : Type} (l : list A) (body : S -> A -> M S) (acc : S)
  : M S :=
  match l with
  | [] => ret acc
  | x :: l' => acc' <- body acc x ;; for_each l' body acc'
  end.

(** ** The store *)

Definition set_status (b : Build) (s : string) : Build :=
  mkBuild (build_uuid b) (build_repository b) (slave b) (build_branch b)
          (named_tree b) (builder b) s (external b) (builders_from b)
          (number b) (triggered_by b).

Definition set_triggered_by (b : Build) (rules : list BuildTrigger) : Build :=
  mkBuild (build_uuid b) (build_repository b) (slave b) (build_branch b)
          (named_tree b) (builder b) (status b) (external b)
          (builders_from b) (number b) rules.

Definition set_builds (bs : BuildSet) (l : list Build) : BuildSet :=
  mkBuildSet (buildset_id bs) (repository bs) (revision bs)
             (buildset_branch bs) l (created bs) (buildset_status bs)
             (buildset_number bs).

Definition set_buildset_status (bs : BuildSet) (s : string) : BuildSet :=
  mkBuildSet (buildset_id bs) (repository bs) (revision bs)
             (buildset_branch bs) (builds bs) (created bs) s
             (buildset_number bs).

Definition has_uuid (u : uuid) (b : Build) : bool :=
  Nat.eqb (build_uuid b) u.

(** The query [builds__uuid=u]. *)
Definition owns_uuid (u : uuid) (bs : BuildSet) : bool :=
  existsb (has_uuid u) (builds bs).

(** [Build.get(uuid)]: the aggregation keeps the buildsets that own the
    uuid and, in each, the builds with that uuid; the build is
    [r[0]['builds'][0]], and [IndexError] becomes [DoesNotExist]. *)
Definition Build_get (u : uuid) : M Build :=
  w <- get_world ;;
  match filter (owns_uuid u) (w_buildsets w) with
  | [] => raise DoesNotExist
  | bs :: _ =>
      match filter (has_uuid u) (builds bs) with
      | [] => raise DoesNotExist
      | b :: _ => ret b
      end
  end.

(** [build.get_buildset()]: [BuildSet.objects.get(builds__uuid=...)]. *)
Definition get_buildset (self : Build) : M BuildSet :=
  w <- get_world ;;
  match filter (owns_uuid (build_uuid self)) (w_buildsets w) with
  | [] => raise DoesNotExist
  | [bs] => ret bs
  | _ :: _ :: _ => raise MultipleObjectsReturned
  end.

(** [set__builds__S=self]: the positional operator replaces the first
    element of the array that matches the query. *)
Fixpoint set_builds_S (self : Build) (l : list Build) : list Build :=
  match l with
  | [] => []
  | b :: l' =>
      if has_uuid (build_uuid self) b then self :: l'
      else b :: set_builds_S self l'
  end.

(** [build.update()]: the atomic update of the embedded document. *)
Definition update (self : Build) : M nat :=
  w <- get_world ;;
  let u := build_uuid self in
  let result := List.length (filter (owns_uuid u) (w_buildsets w)) in
  put_world
    (with_buildsets w
       (map (fun bs => if owns_uuid u bs
                       then set_builds bs (set_builds_S self (builds bs))
                       else bs)
            (w_buildsets w))) ;;
  if Nat.eqb result 0 then raise DBError else ret result.

(** [buildset.save()]: the document with this id is written, or inserted
    when the collection has none. *)
Fixpoint save_in (bs : BuildSet) (l : list BuildSet) : list BuildSet :=
  match l with
  | [] => [bs]
  | x :: l' =>
      if Nat.eqb (buildset_id x) (buildset_id bs) then bs :: l'
      else x :: save_in bs l'
  end.

Definition save (bs : BuildSet) : M unit :=
  w <- get_world ;;
  put_world (with_buildsets w (save_in bs (w_buildsets w))).

(** Following the reference [build.slave]. *)
Definition deref_slave (ref : option object_id) : M (option Slave) :=
  match ref with
  | None => ret None
  | Some i =>
      w <- get_world ;;
      match filter (fun s => Nat.eqb (slave_id s) i) (w_slaves w) with
      | [] => raise DoesNotExist
      | s :: _ => ret (Some s)
      end
  end.

(** Modelled from the spec: [Slave.dequeue_build] is in
    [toxicmaster/slave.py], which is not among the sources.  The spec: the
    inverse of [enqueue_build]; nothing happens and the result is false when
    the uuid is not in [enqueued_builds], otherwise the uuid is removed and
    [queue_count] goes down by one. *)
Definition dequeue_build (s : Slave) (build : Build) : M bool :=
  w <- get_world ;;
  let u := build_uuid build in
  if existsb (Nat.eqb u) (enqueued_builds s) then
    let s' := mkSlave (slave_id s)
                      (filter (fun x => negb (Nat.eqb x u))
                              (enqueued_builds s))
                      (queue_count s - 1) in
    put_world
      (with_slaves w
         (map (fun x => if Nat.eqb (slave_id x) (slave_id s) then s' else x)
              (w_slaves w))) ;;
    ret true
  else ret false.

Section WithEnv.
Context {E : Env}.

(** Modelled from the spec: [Slave.cancel_build] opens a client and sends
    a [cancel_build] request for the uuid of the build; nothing changes
    locally.  Calling it on [None] is an [AttributeError]. *)
Definition slave_cancel_build (s : option Slave) (build : Build) : M unit :=
  match s with
  | None => raise AttributeError
  | Some s =>
      emit (cancel_build_request (slave_id s) (build_uuid build)) ;;
      lift (cancel_request (slave_id s) (build_uuid build))
  end.

(** ** [Build.cancel] *)

Definition cancel (self : Build) : M (Build * bool) :=
  let cancel_statuses := [PENDING; RUNNING] in
  if negb (str_in (status self) cancel_statuses) then
    raise ImpossibleCancellation
  else
    let repo := build_repository self in
    slave <- deref_slave (slave self) ;;
    if String.eqb (status self) RUNNING then
      try_except
        (slave_cancel_build slave self ;; ret (self, true))
        (fun _ => Some (log "Error canceling running build" "error" ;;
                        ret (self, false)))
    else
      (match slave with
       | Some s => dequeue_build s self
       | None => ret false
       end) ;;
      let self := set_status self "cancelled" in
      update self ;;
      emit (build_cancelled_send repo self) ;;
      ret (self, true).
End WithEnv.

(** ** Trigger rules: [Build.is_ready2run] *)

(** [MatchKeysDict] belongs to [toxiccore]: a [dict] whose lookup first
    replaces the key by the first stored key, in insertion order, that it
    matches as a pattern.  A dictionary is the list of its items in
    insertion order. *)
Definition MatchKeysDict : Type := list (string * list string).

(** [d[k] = v]. *)
Fixpoint setitem (d : MatchKeysDict) (k : string) (v : list string)
  : MatchKeysDict :=
  match d with
  | [] => [(k, v)]
  | (k', v') :: d' =>
      if String.eqb k' k then (k', v) :: d' else (k', v') :: setitem d' k v
  end.

(** The lookup of a plain [dict]. *)
Fixpoint dict_getitem (d : MatchKeysDict) (k : string)
  : result (list string) :=
  match d with
  | [] => Raise KeyError
  | (k', v) :: d' => if String.eqb k' k then Ok v else dict_getitem d' k
  end.

(** Truth value of [rules.get(name)]: [None] and the empty list are false. *)
Definition truthy (v : option (list string)) : bool :=
  match v with
  | Some (_ :: _) => true
  | _ => false
  end.

Section TriggerRules.
Context {E : Env}.

Definition matching_key (d : MatchKeysDict) (key : string) : string :=
  match find (fun kv => match_string key (fst kv)) d with
  | Some (k, _) => k
  | None => key
  end.

(** [d[key]]. *)
Definition getitem (d : MatchKeysDict) (key : string)
  : result (list string) :=
  dict_getitem d (matching_key d key).

(** [d.get(key)]. *)
Definition get (d : MatchKeysDict) (key : string) : option (list string) :=
  match getitem d key with
  | Ok v => Some v
  | Raise _ => None
  end.

(** The rules of [_check_build_rules]. *)
Definition rules_of (docs : list BuildTrigger) : MatchKeysDict :=
  fold_left (fun rules doc => setitem rules (builder_name doc) (statuses doc))
            docs [].

(** The loop of [_check_build_rules] over [buildset.builds]; [Ok None] is
    the [return None] from inside the loop. *)
Fixpoint check_builds (self : Build) (rules : MatchKeysDict)
         (l : list Build) (ok : list bool) : result (option (list bool)) :=
  match l with
  | [] => Ok (Some ok)
  | build :: l' =>
      if Nat.eqb (build_uuid build) (build_uuid self) then
        check_builds self rules l' ok
      else
        let name := name (builder build) in
        let status := status build in
        if negb (truthy (get rules name)) || String.eqb status PENDING then
          check_builds self rules l' ok
        else
          match getitem rules name with
          | Raise e => Raise e
          | Ok sts =>
              if negb (str_in status sts) then Ok None
              else check_builds self rules l' (ok ++ [true])
          end
  end.

Definition _check_build_rules (self : Build) : M (option bool) :=
  let rules := rules_of (triggered_by self) in
  buildset <- get_buildset self ;;
  let triggered_count := List.length (triggered_by self) in
  r <- lift (check_builds self rules (builds buildset) []) ;;
  match r with
  | None => ret None
  | Some ok => ret (Some (Nat.eqb (List.length ok) triggered_count))
  end.

(** The result is [Some true], [Some false] or [None] as the method
    returns [True], [False] or [None]; the build comes back with the
    status the method has stored in it. *)
Definition is_ready2run (self : Build) : M (Build * option bool) :=
  found <- try_except
             (b <- Build_get (build_uuid self) ;; ret (Some b))
             (fun e => match e with
                       | DoesNotExist =>
                           Some (log "build {} does not exist. not ready2run"
                                     "warning" ;;
                                 ret None)
                       | _ => None
                       end) ;;
  match found with
  | None => ret (self, Some false)
  | Some b =>
      let self := set_status self (status b) in
      if negb (String.eqb (status self) PENDING) then ret (self, Some false)
      else
        match triggered_by self with
        | [] => ret (self, Some true)
        | _ :: _ => ok <- _check_build_rules self ;; ret (self, ok)
        end
  end.
End TriggerRules.

(** ** [Builder.get_or_create] and [BuildSet.create] *)

Definition set_position (b : Builder) (p : Z) : Builder :=
  mkBuilder (builder_id b) (name b) (builder_repository b) p
            (builder_triggered_by b).

Definition set_builder_triggered_by (b : Builder) (l : list BuildTrigger)
  : Builder :=
  mkBuilder (builder_id b) (name b) (builder_repository b) (position b) l.

(** The builder with the given name and repository; created at [pos] when
    there is none, moved to [pos] when it is elsewhere. *)
Definition Builder_get_or_create (nm : string) (repo : object_id) (pos : Z)
  : M Builder :=
  w <- get_world ;;
  match filter (fun b => String.eqb (name b) nm
                         && Nat.eqb (builder_repository b) repo)
               (w_builders w) with
  | [] =>
      i <- fresh_id ;;
      let builder := mkBuilder i nm repo pos [] in
      w <- get_world ;;
      put_world (with_builders w (w_builders w ++ [builder])) ;;
      ret builder
  | [builder] =>
      if negb (Z.eqb (position builder) pos) then
        let builder := set_position builder pos in
        put_world
          (with_builders w
             (map (fun b => if Nat.eqb (builder_id b) (builder_id builder)
                            then builder else b)
                  (w_builders w))) ;;
        ret builder
      else ret builder
  | _ :: _ :: _ => raise MultipleObjectsReturned
  end.

(** A sort of the store by decreasing key: [order_by('-field')]. *)
Definition order_by_desc (key : BuildSet -> Z) (l : list BuildSet)
  : list BuildSet :=
  map snd (sort_by (fun a b => Z.leb b a) (map (fun bs => (key bs, bs)) l)).

(** [max(l)] for a list that is not empty. *)
Definition py_max (x : Z) (l : list Z) : Z := fold_left Z.max l x.

Definition _get_next_number (repo : object_id) : M Z :=
  w <- get_world ;;
  let qs := filter (fun bs => Nat.eqb (repository bs) repo) (w_buildsets w) in
  match order_by_desc buildset_number qs with
  | buildset :: _ => ret (buildset_number buildset + 1)%Z
  | [] => ret 1%Z
  end.

Definition BuildSet_create (repo : object_id) (rev : Revision) : M BuildSet :=
  number <- _get_next_number repo ;;
  i <- fresh_id ;;
  w <- get_world ;;
  let buildset := mkBuildSet i repo rev (branch rev) [] (w_clock w)
                             PENDING number in
  put_world (with_clock w (S (w_clock w))) ;;
  save buildset ;;
  emit (buildset_notify_task "buildset-added" (buildset_id buildset)) ;;
  ret buildset.

(** [buildset.add_build(build)]; the buildset comes back with the build
    appended. *)
Definition add_build (self : BuildSet) (build : Build) : M BuildSet :=
  let self := set_builds self (builds self ++ [build]) in
  save self ;;
  let repo := repository self in
  emit (build_added_send repo build) ;;
  emit (build_notify "build-added" build) ;;
  ret self.

(** ** [BuildManager] *)

Section Manager.
Context {E : Env}.

(** The key of a sort on the array field [builds.number]: for a
    decreasing sort, the greatest element. *)
Definition builds_number_key (bs : BuildSet) : Z :=
  match map number (builds bs) with
  | [] => 0%Z
  | n :: l => py_max n l
  end.

Definition _get_highest_build_number : M Z :=
  w <- get_world ;;
  let qs := filter (fun bs => Nat.eqb (repository bs) repository_id
                              && existsb (fun b => Z.ltb 0 (number b))
                                         (builds bs))
                   (w_buildsets w) in
  match order_by_desc builds_number_key qs with
  | [] => ret 0%Z
  | buildset :: _ =>
      match map number (builds buildset) with
      | [] => ret 0%Z
      | n :: l => ret (py_max n l)
      end
  end.

Definition _handle_build_triggered_by (build : Build)
           (builders : list Builder) : Build :=
  let builder_names := map name builders in
  let rules := filter (fun rule => str_in (builder_name rule) builder_names)
                      (triggered_by build) in
  set_triggered_by build rules.

Definition _filter_builders (builders_conf : list BuilderConf)
           (include exclude : list string) : list BuilderConf :=
  match include, exclude with
  | _ :: _, _ =>
      filter (fun b => str_in (bconf_name b) include) builders_conf
  | [], _ :: _ =>
      filter (fun b => negb (str_in (bconf_name b) exclude)) builders_conf
  | [], [] => builders_conf
  end.

Definition _get_builders_conf (conf : Config) (branch : string)
  : M (list BuilderConf) :=
  lift (list_builders_from_config conf branch config_type).

(** The loop of [get_builders] over [enumerate(builders_conf)]. *)
Definition builders_of_conf (builders_conf : list BuilderConf)
  : M (list Builder) :=
  ' (_, builders) <-
      for_each builders_conf
        (fun '(i, builders) bconf =>
           let name := bconf_name bconf in
           let triggered_by :=
             match bconf_triggered_by bconf with
             | Some l => l
             | None => []
             end in
           builder <- Builder_get_or_create name repository_id (Z.of_nat i) ;;
           let builder := set_builder_triggered_by builder triggered_by in
           ret (S i, (builders ++ [builder])%list))
        (0, @nil Builder) ;;
  ret builders.

(** [include] and [exclude] are lists; [None] is the empty list. *)
Definition get_builders (revision : Revision) (conf : Config)
           (include exclude : list string) : M (list Builder * string) :=
  log "Getting builders for {} on {}" "debug" ;;
  let origin := branch revision in
  listed <- try_except
              (l <- _get_builders_conf conf (branch revision) ;;
               ret (Some l))
              (fun e => match e with
                        | AttributeError =>
                            Some (log "Bad config for {} on {}" "error" ;;
                                  ret None)
                        | _ => None
                        end) ;;
  match listed with
  | None => ret ([], origin)
  | Some builders_conf =>
      ' (origin, builders_conf) <-
          (match builders_conf with
           | [] =>
               if negb (String.eqb (builders_fallback revision) "") then
                 let origin := builders_fallback revision in
                 l <- _get_builders_conf conf (builders_fallback revision) ;;
                 ret (origin, l)
               else ret (origin, builders_conf)
           | _ :: _ => ret (origin, builders_conf)
           end) ;;
      let builders_conf := _filter_builders builders_conf include exclude in
      builders <- builders_of_conf builders_conf ;;
      ret (builders, origin)
  end.
End Manager.

Section AddBuilds.
Context {E : Env}.

(** [builders = builders or []] and the call of [get_builders] when no
    builder is given. *)
Definition resolve_builders (revision : Revision) (conf : Config)
           (builders : list Builder) (builders_origin : option string)
  : M (list Builder * option string) :=
  match builders with
  | [] =>
      ' (builders, origin) <- get_builders revision conf [] [] ;;
      ret (builders, Some origin)
  | _ :: _ => ret (builders, builders_origin)
  end.

(** The body of the loop of [add_builds_for_buildset]; the local variables
    [last_build] and [buildset] are threaded. *)
Definition build_for_builder (revision : Revision) (builders : list Builder)
           (builders_origin : option string) (vars : Z * BuildSet)
           (builder : Builder) : M (Z * BuildSet) :=
  let '(last_build, buildset) := vars in
  let last_build := (last_build + 1)%Z in
  u <- fresh_id ;;
  let build := mkBuild u repository_id None (branch revision)
                       (commit revision) builder PENDING None
                       builders_origin last_build
                       (builder_triggered_by builder) in
  let build := _handle_build_triggered_by build builders in
  buildset <- add_build buildset build ;;
  log "build {} added for named_tree {} on branch {}" "debug" ;;
  ret (last_build, buildset).

(** [builders] is a list, [None] being the empty list; the buildset comes
    back as the call leaves it. *)
Definition add_builds_for_buildset (buildset : BuildSet) (conf : Config)
           (builders : list Builder) (builders_origin : option string)
  : M BuildSet :=
  let revision := revision buildset in
  ' (builders, builders_origin) <-
      resolve_builders revision conf builders builders_origin ;;
  last_build <- _get_highest_build_number ;;
  ' (_, buildset) <-
      for_each builders (build_for_builder revision builders builders_origin)
               (last_build, buildset) ;;
  w <- get_world ;;
  put_world (with_queue w (w_queue w ++ [buildset])) ;;
  emit (buildset_added_send repository_id buildset) ;;
  w <- get_world ;;
  (if negb (w_is_building w) then emit (execute_builds_task repository_id)
   else ret tt) ;;
  ret buildset.

(** The buildsets come from one query, made before the loop; every build
    of each is cancelled, and [ImpossibleCancellation] is passed over. *)
Definition cancel_previous_pending (buildset : BuildSet) : M unit :=
  let repo := repository buildset in
  let cancel_statuses := [PENDING; RUNNING] in
  w <- get_world ;;
  let to_cancel :=
    filter (fun bs => Nat.eqb (repository bs) repo
                      && String.eqb (buildset_branch bs)
                                    (buildset_branch buildset)
                      && existsb (fun b => str_in (status b) cancel_statuses)
                                 (builds bs)
                      && Nat.ltb (created bs) (created buildset))
           (w_buildsets w) in
  for_each to_cancel
    (fun _ buildset =>
       for_each (builds buildset)
         (fun _ build =>
            try_except
              (cancel build ;; ret tt)
              (fun e => match e with
                        | ImpossibleCancellation => Some (ret tt)
                        | _ => None
                        end))
         tt)
    tt.

(** The body of the loop of [add_builds]; the local variables [last_bs]
    and [buildset] are threaded. *)
Definition add_builds_step (vars : option BuildSet * option BuildSet)
           (revision : Revision)
  : M (option BuildSet * option BuildSet) :=
  let '(last_bs, cur) := vars in
  if negb (create_builds revision) then ret (last_bs, cur)
  else
    buildset <- BuildSet_create repository_id revision ;;
    if negb (has_config revision) then
      let buildset := set_buildset_status buildset NO_CONFIG in
      save buildset ;;
      emit (buildset_added_send repository_id buildset) ;;
      ret (last_bs, Some buildset)
    else
      let conf := get_config_for revision in
      ' (builders, builders_origin) <-
          get_builders revision conf (include_builders revision)
                       (exclude_builders revision) ;;
      buildset <- add_builds_for_buildset buildset conf builders
                                          (Some builders_origin) ;;
      ret (Some buildset, Some buildset).

Definition add_builds (revisions : list Revision) : M unit :=
  ' (last_bs, buildset) <- for_each revisions add_builds_step (None, None) ;;
  match last_bs, buildset with
  | Some _, Some buildset =>
      if notify_only_latest (buildset_branch buildset) then
        cancel_previous_pending buildset
      else ret tt
  | _, _ => ret tt
  end.
End AddBuilds.

(** ** [BuildClient.build]: the stream of build information *)

Section BuildClient.
(** The type of what a frame carries under ["body"]. *)
Variable Body : Type.

(** What [get_response] returns: nothing (the empty string), or the decoded
    object as the list of its items, where a value is [None] for [null]. *)
Inductive Response : Type :=
| EmptyResponse
| Frame (items : list (string * option Body)).

(** [not r]. *)
Definition falsy (r : Response) : bool :=
  match r with
  | EmptyResponse => true
  | Frame [] => true
  | Frame (_ :: _) => false
  end.

(** [r.get(key)]; [None] also when the key is absent. *)
Fixpoint frame_get (items : list (string * option Body)) (key : string)
  : option Body :=
  match items with
  | [] => None
  | (k, v) :: items' => if String.eqb k key then v else frame_get items' key
  end.

Definition response_get (r : Response) (key : string) : option Body :=
  match r with
  | EmptyResponse => None
  | Frame items => frame_get items key
  end.

(** The connection: the outcome of the [n]-th call of [get_response]. *)
Definition Connection : Type := nat -> result Response.

(** One resumption of the generator [build], after the request is written:
    with [n] responses read so far it reads one more, and either yields a
    body ([Some]) or returns ([None], the end of the iteration). *)
Definition build_resume (conn : Connection) (n : nat)
  : result (option (Body * nat)) :=
  match conn n with
  | Raise e => Raise e
  | Ok r =>
      if falsy r then Ok None
      else match response_get r "body" with
           | None => Ok None
           | Some build_info => Ok (Some (build_info, S n))
           end
  end.

(** How an iteration over the generator ends. *)
Inductive Ending : Type :=
| Exhausted
| Raised (e : exn)
| StillRunning.

(** [async for build_info in client.build(...)], resumed at most [fuel]
    times: what was yielded, and how the iteration stands.  [written] is
    the outcome of writing the request, which happens at the first
    resumption. *)
Fixpoint iterate (fuel : nat) (conn : Connection) (n : nat)
  : list Body * Ending :=
  match fuel with
  | O => ([], StillRunning)
  | S fuel' =>
      match build_resume conn n with
      | Raise e => ([], Raised e)
      | Ok None => ([], Exhausted)
      | Ok (Some (build_info, n')) =>
          let '(l, ending) := iterate fuel' conn n' in
          (build_info :: l, ending)
      end
  end.

Definition build (written : result unit) (fuel : nat) (conn : Connection)
  : list Body * Ending :=
  match written with
  | Raise e => ([], Raised e)
  | Ok _ => iterate fuel conn 0
  end.

(** The frame that ends the stream: empty, or without a body. *)
Definition end_of_stream (r : Response) : Prop :=
  falsy r = true \/ response_get r "body" = None.
End BuildClient.

(** ** [BuildExecuter] *)

(** [limit_ok = self._running < parallel if parallel else True], where
    [repository.parallel_builds] is [None] or a number: [None] and 0 are
    false. *)
Definition limit_ok (_running : Z) (parallel : option Z) : bool :=
  match parallel with
  | None => true
  | Some p => if Z.eqb p 0 then true else Z.ltb _running p
  end.

(** What the loop of [_execute_builds] does with a build. *)
Inductive Admission : Type :=
| Launch       (* ensure_future(self._run_build(build)) *)
| CancelBuild  (* await build.cancel(); self._queue.remove(build) *)
| Pass.        (* neither branch *)

(** [if ready and limit_ok: ... elif ready is None: ...]. *)
Definition admission (ready : option bool) (_running : Z)
           (parallel : option Z) : Admission :=
  match ready with
  | Some true => if limit_ok _running parallel then Launch else Pass
  | Some false => Pass
  | None => CancelBuild
  end.

(** The coroutines of an executer, at the points where they are suspended:
    a pass of [_execute_builds] waiting for [is_ready2run] of the next
    build or for [build.cancel()], and a [_run_build] between
    [self._running += 1] and its [finally]. *)
Inductive Coroutine : Type :=
| execute_builds (todo : list Build)
| cancelling (build : Build) (todo : list Build)
| run_build (build : Build).

(** What the event loop has ready to run, first in first out: the first
    step of a task made by [ensure_future], or the rest of a coroutine
    whose wait is over. *)
Inductive Callback : Type :=
| Start (c : Coroutine)
| Ready (ready : option bool) (build : Build) (todo : list Build)
| Cancelled (todo : list Build)
| Done (build : Build).

Record Loop : Type := mkLoop {
  world : World;
  (** [self._running]. *)
  _running : Z;
  ready_callbacks : list Callback;
  suspended : list Coroutine
}.

(** What happens next: the wait of the [n]-th suspended coroutine is over,
    the loop runs its first ready callback, or the build session of a
    begun [_run_build] stores a status for its build. *)
Inductive Action : Type :=
| io_done (n : nat)
| run_once
| slave_writes (build : uuid) (status : string).

(** [l] without its [n]-th element. *)
Fixpoint remove_nth {A : Type} (n : nat) (l : list A) : list A :=
  match n, l with
  | _, [] => []
  | O, _ :: l' => l'
  | S n', x :: l' => x :: remove_nth n' l'
  end.

Definition is_run_build (u : uuid) (c : Coroutine) : bool :=
  match c with
  | run_build b => Nat.eqb (build_uuid b) u
  | _ => false
  end.

Definition runs_of (l : list Coroutine) : list Build :=
  flat_map (fun c => match c with run_build b => [b] | _ => [] end) l.

Definition dones_of (l : list Callback) : list Build :=
  flat_map (fun cb => match cb with Done b => [b] | _ => [] end) l.

Section Executer.
Context {E : Env}.

(** [repository.parallel_builds] and [self.builds]. *)
Variable parallel : option Z.
Variable self_builds : list Build.

(** A pass goes on to the next build, and is over after the last one (what
    it still does then, [_handle_queue_changes], is about [self._queue]
    only, which is left out). *)
Definition next_build (todo : list Build) (l : list Coroutine)
  : list Coroutine :=
  match todo with
  | [] => l
  | _ :: _ => (l ++ [execute_builds todo])%list
  end.

(** The wait of a coroutine is over: what it awaited is evaluated on the
    store as it is now, and the coroutine is ready to go on.  A pass in
    which an exception is raised is over. *)
Definition wake (c : Coroutine) (w : World) : World * list Callback :=
  match c with
  | execute_builds [] => (w, [])
  | execute_builds (build :: todo) =>
      match is_ready2run build w with
      | (Ok (build', ready), w') => (w', [Ready ready build' todo])
      | (Raise _, w') => (w', [])
      end
  | cancelling build todo =>
      match cancel build w with
      | (Ok _, w') => (w', [Cancelled todo])
      | (Raise _, w') => (w', [])
      end
  | run_build build => (w, [Done build])
  end.

(** The loop runs a callback up to the next point where its coroutine is
    suspended. *)
Definition run_callback (cb : Callback) (l : Loop) : Loop :=
  match cb with
  | Start (execute_builds todo) =>
      mkLoop (world l) (_running l) (ready_callbacks l)
             (next_build todo (suspended l))
  | Start (run_build build) =>
      mkLoop (world l) (_running l + 1) (ready_callbacks l)
             (suspended l ++ [run_build build])
  | Start (cancelling _ _) => l
  | Ready ready build todo =>
      match admission ready (_running l) parallel with
      | Launch =>
          mkLoop (world l) (_running l)
                 (ready_callbacks l ++ [Start (run_build build)])
                 (next_build todo (suspended l))
      | CancelBuild =>
          mkLoop (world l) (_running l) (ready_callbacks l)
                 (suspended l ++ [cancelling build todo])
      | Pass =>
          mkLoop (world l) (_running l) (ready_callbacks l)
                 (next_build todo (suspended l))
      end
  | Cancelled todo =>
      mkLoop (world l) (_running l) (ready_callbacks l)
             (next_build todo (suspended l))
  | Done build =>
      mkLoop (world l) (_running l - 1)
             (ready_callbacks l ++ [Start (execute_builds self_builds)])
             (suspended l)
  end.

Definition act (a : Action) (l : Loop) : option Loop :=
  match a with
  | io_done n =>
      match nth_error (suspended l) n with
      | None => None
      | Some c =>
          let '(w, cbs) := wake c (world l) in
          Some (mkLoop w (_running l) (ready_callbacks l ++ cbs)
                       (remove_nth n (suspended l)))
      end
  | run_once =>
      match ready_callbacks l with
      | [] => None
      | cb :: cbs =>
          Some (run_callback cb
                  (mkLoop (world l) (_running l) cbs (suspended l)))
      end
  | slave_writes u st =>
      match filter (is_run_build u) (suspended l) with
      | [] => None
      | run_build b :: _ =>
          Some (mkLoop (snd (update (set_status b st) (world l)))
                       (_running l) (ready_callbacks l) (suspended l))
      | _ :: _ => None
      end
  end.

Fixpoint acts (trace : list Action) (l : Loop) : option Loop :=
  match trace with
  | [] => Some l
  | a :: trace' =>
      match act a l with
      | None => None
      | Some l' => acts trace' l'
      end
  end.

(** [execute()]: [ensure_future(self._execute_builds())] on a new
    executer. *)
Definition execute (w : World) : Loop :=
  mkLoop w 0 [Start (execute_builds self_builds)] [].

(** The [_run_build] tasks that have begun and not reached the end of
    their [finally]. *)
Definition begun (l : Loop) : list Build :=
  (runs_of (suspended l) ++ dones_of (ready_callbacks l))%list.

(** The [_run_build] tasks that [ensure_future] has made and that have not
    begun. *)
Definition launched (l : Loop) : list Build :=
  flat_map (fun cb => match cb with Start (run_build b) => [b] | _ => [] end)
           (ready_callbacks l).
End Executer.

(** ** More of [build.py] and [client.py] *)

(** [builder == self]: two documents are equal when they have the same
    id. *)
Definition same_builder (self : Builder) (b : Build) : bool :=
  Nat.eqb (builder_id (builder b)) (builder_id self).

(** [Builder.get_status]: the status of the builder in the most recent
    buildset that has a build of it; ["idle"] when [qs[0]] raises
    [IndexError]. *)
Definition Builder_get_status (self : Builder) : M string :=
  w <- get_world ;;
  let qs := filter (fun bs => existsb (same_builder self) (builds bs))
                   (w_buildsets w) in
  match order_by_desc (fun bs => Z.of_nat (created bs)) qs with
  | [] => ret "idle"
  | last_buildset :: _ =>
      let statuses :=
        map status (filter (same_builder self) (builds last_buildset)) in
      ordered_statuses <-
        lift (sorted Nat.leb (fun i => index i ORDERED_STATUSES) statuses) ;;
      match ordered_statuses with
      | [] => raise IndexError
      | s :: _ => ret s
      end
  end.

(** [BuildSet.get_pending_builds]. *)
Definition get_pending_builds (self : BuildSet) : list Build :=
  filter (fun b => String.eqb (status b) PENDING) (builds self).

Section ManagerMore.
Context {E : Env}.

(** [BuildManager.cancel_build]. *)
Definition cancel_build (build_uuid : uuid) : M unit :=
  build <- Build_get build_uuid ;;
  try_except
    (' (build, _) <- cancel build ;;
     emit (build_notify "build-cancelled" build) ;;
     emit (build_cancelled_send repository_id build))
    (fun e => match e with
              | ImpossibleCancellation =>
                  Some (log "Could not cancel build {}" "warning")
              | _ => None
              end).

(** The body of the loop of [start_pending]. *)
Definition start_pending_step (buildset : BuildSet) : M unit :=
  w <- get_world ;;
  match w_queue w with
  | [] =>
      if negb (w_is_building w) then
        log "scheduling penging builds for {}" "debug" ;;
        log "schedule pending buildset {}" "debug" ;;
        w <- get_world ;;
        put_world (with_queue w (w_queue w ++ [buildset])) ;;
        emit (execute_builds_task repository_id)
      else ret tt
  | _ :: _ => ret tt
  end.

(** [BuildManager.start_pending]. *)
Definition start_pending : M unit :=
  w <- get_world ;;
  let buildsets :=
    filter (fun bs => existsb (fun b => String.eqb (status b) PENDING)
                              (builds bs)
                      && Nat.eqb (repository bs) repository_id)
           (w_buildsets w) in
  for_each buildsets (fun _ buildset => start_pending_step buildset) tt.
End ManagerMore.

(** [BuildClient.healthcheck]: [written] is the outcome of writing the
    request, and the connection gives the response.  Any exception of the
    write or of the read is caught; the empty string as a response is a
    [ToxicClientException]. *)
Definition ToxicClientException : exn := OtherError "ToxicClientException".

Definition healthcheck {Body : Type} (written : result unit)
           (conn : Connection Body) : result bool :=
  let '(response, r) :=
    match written with
    | Raise _ => (None, false)
    | Ok _ =>
        match conn 0 with
        | Raise _ => (None, false)
        | Ok response => (Some response, true)
        end
    end in
  match response with
  | Some (EmptyResponse _) => Raise ToxicClientException
  | _ => Ok r
  end.

(** ** Notions the properties are stated with *)

(** [s] has at least the priority of [t]: it comes no later in
    [ORDERED_STATUSES]. *)
Definition priority_le (s t : string) : Prop :=
  exists p q, index s ORDERED_STATUSES = Ok p
              /\ index t ORDERED_STATUSES = Ok q /\ p <= q.

Definition highest_priority (s : string) (l : list string) : Prop :=
  In s l /\ forall t, In t l -> priority_le s t.

(** The [choices] of [Build.status]. *)
Definition valid_build (b : Build) : Prop := In (status b) Build_STATUSES.

(** An order on keys that a sort can use. *)
Definition total_order {K : Type} (leb : K -> K -> bool) : Prop :=
  (forall a b, leb a b = false -> leb b a = true)
  /\ (forall a b c, leb a b = true -> leb b c = true -> leb a c = true).

(** The first element comes before every element. *)
Definition head_first {K A : Type} (leb : K -> K -> bool)
           (l : list (K * A)) : Prop :=
  match l with
  | [] => True
  | y :: _ => forall z, In z l -> leb (fst y) (fst z) = true
  end.

(** *** Trigger rules *)

(** The item a rule leaves in the dictionary of rules. *)
Definition item_of (r : BuildTrigger) : string * list string :=
  (builder_name r, statuses r).

Section TriggerNotions.
Context {E : Env}.

(** What [is_ready2run] returns. *)
Definition ready (self : Build) (w : World) : result (option bool) :=
  match fst (is_ready2run self w) with
  | Ok (_, r) => Ok r
  | Raise e => Raise e
  end.

(** The other builds of the buildset. *)
Definition siblings (self : Build) (bs : BuildSet) : list Build :=
  filter (fun b => negb (Nat.eqb (build_uuid b) (build_uuid self)))
         (builds bs).

Definition builder_name_of (b : Build) : string := name (builder b).

(** Some sibling of the builder the rule names has a status of the rule. *)
Definition rule_met (sibs : list Build) (r : BuildTrigger) : Prop :=
  exists b, In b sibs /\ builder_name_of b = builder_name r
            /\ In (status b) (statuses r).

(** Some sibling of the builder the rule names is no longer pending and has
    a status that is not of the rule. *)
Definition rule_broken (sibs : list Build) (r : BuildTrigger) : Prop :=
  exists b, In b sibs /\ builder_name_of b = builder_name r
            /\ status b <> PENDING /\ ~ In (status b) (statuses r).

(** Some sibling of the builder the rule names is still pending. *)
Definition rule_waiting (sibs : list Build) (r : BuildTrigger) : Prop :=
  exists b, In b sibs /\ builder_name_of b = builder_name r
            /\ status b = PENDING.

(** Rules as a config gives them: one rule for a builder, the builder named
    in full (a name that, as a pattern, matches itself only), and a list of
    statuses that is not empty and leaves ["pending"] out. *)
Definition plain_rules (rules : list BuildTrigger) : Prop :=
  NoDup (map builder_name rules)
  /\ (forall r key, In r rules ->
        match_string key (builder_name r) = String.eqb key (builder_name r))
  /\ (forall r, In r rules -> statuses r <> [] /\ ~ In PENDING (statuses r)).

(** One build for a builder. *)
Definition distinct_builders (sibs : list Build) : Prop :=
  NoDup (map builder_name_of sibs).

(** How the loop of [_check_build_rules] treats a build: it is looked at
    when it is another build, of a builder with a rule, and not pending. *)
Definition looked_at (self : Build) (rules : MatchKeysDict) (b : Build)
  : bool :=
  negb (Nat.eqb (build_uuid b) (build_uuid self))
  && truthy (get rules (builder_name_of b))
  && negb (String.eqb (status b) PENDING).

Definition rule_statuses (rules : MatchKeysDict) (b : Build) : list string :=
  match get rules (builder_name_of b) with
  | Some l => l
  | None => []
  end.

Definition satisfies (self : Build) (rules : MatchKeysDict) (b : Build)
  : bool :=
  looked_at self rules b && str_in (status b) (rule_statuses rules b).

Definition breaks (self : Build) (rules : MatchKeysDict) (b : Build)
  : bool :=
  looked_at self rules b && negb (str_in (status b) (rule_statuses rules b)).
End TriggerNotions.

(** The sentence of the specification on pending siblings, read as it
    stands: a pending build with rules is not ready, and the answer is
    false, whenever a sibling that one of its rules names is still
    pending. *)
Definition false_while_a_rule_waits : Prop :=
  forall (E : Env) (self b : Build) (bs : BuildSet) (w : World),
    fst (Build_get (build_uuid self) w) = Ok b ->
    fst (get_buildset self w) = Ok bs ->
    status b = PENDING ->
    (exists r, In r (triggered_by self) /\ rule_waiting (siblings self bs) r) ->
    ready self w = Ok (Some false).

(** *** Cancellation *)

(** What [update] leaves in the store. *)
Definition updated_store (self : Build) (l : list BuildSet) : list BuildSet :=
  map (fun bs => if owns_uuid (build_uuid self) bs
                 then set_builds bs (set_builds_S self (builds bs))
                 else bs) l.

(** The world after the slave, if there is one, has dequeued the build. *)
Definition after_dequeue (s : option Slave) (self : Build) (w : World)
  : World :=
  match s with
  | Some sl => snd (dequeue_build sl self w)
  | None => w
  end.

(** *** Builders of a revision *)

(** The sentence of the specification on a config that cannot be listed,
    read as it stands: whatever the listing raises, the result is no
    builder and the branch of the revision. *)
Definition empty_on_any_listing_error : Prop :=
  forall (E : Env) (rev : Revision) (conf : Config)
         (include exclude : list string) (w : World) (e : exn),
    list_builders_from_config conf (branch rev) config_type = Raise e ->
    fst (get_builders rev conf include exclude w) = Ok ([], branch rev).

(** [bconf.get('triggered_by', [])]. *)
Definition conf_triggered_by (bconf : BuilderConf) : list BuildTrigger :=
  match bconf_triggered_by bconf with
  | Some l => l
  | None => []
  end.

(** *** Build numbers *)

Section NumberNotions.
Context {E : Env}.

(** The build that [add_builds_for_buildset] makes for a builder, with
    uuid [u] and number [n]: its rules are those of the builder that name
    one of [builders]. *)
Definition new_build (builders : list Builder) (rev : Revision)
           (origin : option string) (u : uuid) (n : Z) (b : Builder)
  : Build :=
  mkBuild u repository_id None (branch rev) (commit rev) b PENDING None
          origin n
          (filter (fun rule => str_in (builder_name rule) (map name builders))
                  (builder_triggered_by b)).

(** The builds made for the builders [l], with uuids from [u] on and
    numbers after [last]. *)
Fixpoint new_builds (builders : list Builder) (rev : Revision)
         (origin : option string) (u : uuid) (last : Z) (l : list Builder)
  : list Build :=
  match l with
  | [] => []
  | b :: l' =>
      new_build builders rev origin u (last + 1) b
      :: new_builds builders rev origin (S u) (last + 1) l'
  end.

(** What is sent when a build is added to a buildset. *)
Definition build_added_events (repo : object_id) (b : Build) : list Event :=
  [build_added_send repo b; build_notify "build-added" b;
   Logged "debug" "build {} added for named_tree {} on branch {}"].

(** The numbers of the builds of the buildsets of the repository. *)
Definition repo_numbers (l : list BuildSet) : list Z :=
  flat_map (fun bs => if Nat.eqb (repository bs) repository_id
                      then map number (builds bs) else []) l.

(** The greatest of the numbers, 0 when there is none. *)
Definition max0 (l : list Z) : Z := fold_right Z.max 0%Z l.

(** The numbers 1, ..., n. *)
Definition one_to (n : nat) : list Z := map Z.of_nat (seq 1 n).

(** What the manager does to the store of a repository: it creates a
    buildset for a revision, or adds builds to a buildset it has just read
    from the store. *)
Inductive manager_step : World -> World -> Prop :=
| step_create : forall rev w bs w',
    BuildSet_create repository_id rev w = (Ok bs, w') ->
    manager_step w w'
| step_add_builds : forall bs conf builders origin w bs' w',
    In bs (w_buildsets w) ->
    repository bs = repository_id ->
    add_builds_for_buildset bs conf builders origin w = (Ok bs', w') ->
    manager_step w w'.

Inductive manager_steps : World -> World -> Prop :=
| steps_none : forall w, manager_steps w w
| steps_more : forall w w' w'',
    manager_steps w w' -> manager_step w' w'' -> manager_steps w w''.

(** A store in which the repository has no build yet: the documents have
    distinct ids, all below the next fresh id. *)
Definition no_build_yet (w : World) : Prop :=
  NoDup (map buildset_id (w_buildsets w))
  /\ (forall bs, In bs (w_buildsets w) -> buildset_id bs < w_next_id w)
  /\ repo_numbers (w_buildsets w) = [].
End NumberNotions.

(** *** Relations between the world before and after an operation *)

(** The operation [c] takes every world to one that [R] relates to it,
    whether it returns or raises. *)
Definition preserves {A : Type} (R : World -> World -> Prop) (c : M A)
  : Prop :=
  forall w, R w (snd (c w)).

Definition preorder (R : World -> World -> Prop) : Prop :=
  (forall w, R w w) /\ (forall a b c, R a b -> R b c -> R a c).

(** The buildsets and the queue stay; fresh ids may be taken. *)
Definition same_buildsets (w w' : World) : Prop :=
  w_buildsets w' = w_buildsets w
  /\ w_queue w' = w_queue w
  /\ w_is_building w' = w_is_building w
  /\ w_next_id w <= w_next_id w'.

(** The queue stays. *)
Definition same_queue (w w' : World) : Prop :=
  w_queue w' = w_queue w /\ w_is_building w' = w_is_building w.

(** The queue grows by buildsets of revisions that have a config. *)
Definition queue_grows_with_config (w w' : World) : Prop :=
  exists added,
    w_queue w' = (w_queue w ++ added)%list
    /\ Forall (fun bs => has_config (revision bs) = true) added.

Section AfterBuilds.
Context {E : Env}.

(** The world after the builds [new] have been added to the buildset
    [bs], one by one. *)
Definition after_builds (w : World) (bs : BuildSet) (new : list Build)
  : World :=
  mkWorld
    (match new with
     | [] => w_buildsets w
     | _ :: _ =>
         save_in (set_builds bs (builds bs ++ new)) (w_buildsets w)
     end)
    (w_builders w) (w_slaves w) (w_queue w) (w_is_building w)
    (w_trace w ++ flat_map (build_added_events (repository bs)) new)
    (w_next_id w + List.length new) (w_clock w).

(** The world after [add_builds_for_buildset] has queued the buildset. *)
Definition after_queued (w : World) (bs : BuildSet) : World :=
  with_trace (with_queue w (w_queue w ++ [bs]))
    (w_trace w
     ++ [buildset_added_send repository_id bs]
     ++ if w_is_building w then [] else [execute_builds_task repository_id]).
End AfterBuilds.

(** [l] is [l'] with some elements removed: what stays is in the order it
    had. *)
Inductive kept_in_order {A : Type} : list A -> list A -> Prop :=
| kept_nil : kept_in_order [] []
| kept_drop : forall x l l', kept_in_order l l' -> kept_in_order l (x :: l')
| kept_keep : forall x l l',
    kept_in_order l l' -> kept_in_order (x :: l) (x :: l').

Section NumberInvariant.
Context {E : Env}.

(** What the steps of the manager keep true of the store. *)
Definition numbered (w : World) : Prop :=
  NoDup (map buildset_id (w_buildsets w))
  /\ (forall bs, In bs (w_buildsets w) -> buildset_id bs < w_next_id w)
  /\ Permutation (repo_numbers (w_buildsets w))
                 (one_to (List.length (repo_numbers (w_buildsets w)))).
End NumberInvariant.

(** ** Concrete data for the examples *)

Definition builder_named (i : object_id) (nm : string) : Builder :=
  mkBuilder i nm 1 0%Z [].

(** A build of repository 1 with the given uuid, builder name, status and
    rules. *)
Definition build_of (u : uuid) (nm st : string) (rules : list BuildTrigger)
  : Build :=
  mkBuild u 1 None "master" "abc123" (builder_named u nm) st None
          (Some "master") (Z.of_nat u) rules.

Definition revision_of (i : object_id) (br : string) (conf : bool)
  : Revision :=
  mkRevision i "abc123" br "" true conf [] [].

Definition buildset_of (i : object_id) (l : list Build) (st : string)
  : BuildSet :=
  mkBuildSet i 1 (revision_of i "master" true) "master" l 0 st 1%Z.

Definition world_of (l : list BuildSet) : World :=
  mkWorld l [] [] [] false [] 100 10.

(** An environment for the examples: a config is the function that gives,
    for a branch, what listing its builders returns; patterns match
    themselves only. *)
Definition example_env (only_latest : bool) (cancelled : result unit) : Env :=
  {| Config := string -> result (list BuilderConf);
     match_string := String.eqb;
     list_builders_from_config := fun conf branch _ => conf branch;
     config_type := "yaml";
     get_config_for := fun _ _ => Ok [mkBuilderConf "a" None;
                                      mkBuilderConf "b" None];
     notify_only_latest := fun _ => only_latest;
     repository_id := 1;
     cancel_request := fun _ _ => cancelled |}.

Definition rule_of (nm : string) (sts : list string) : BuildTrigger :=
  mkBuildTrigger nm sts.

(** A build [c] triggered by the success of [a] and of [b]. *)
Definition build_c : Build :=
  build_of 3 "c" "pending"
           [rule_of "a" ["success"]; rule_of "b" ["success"]].

(** [a] has not run yet and [b] has failed. *)
Definition buildset_a_waits_b_failed : BuildSet :=
  buildset_of 1 [build_of 1 "a" "pending" []; build_of 2 "b" "fail" [];
                 build_c] "running".

(** [a] and [b] have both succeeded. *)
Definition buildset_a_b_succeeded : BuildSet :=
  buildset_of 1 [build_of 1 "a" "success" []; build_of 2 "b" "success" [];
                 build_c] "running".

(** A pending build of slave 7, which has it in its queue. *)
Definition build_on_slave (st : string) : Build :=
  mkBuild 3 1 (Some 7) "master" "abc123" (builder_named 3 "c") st None
          (Some "master") 3%Z [].

Definition world_with_slave (st : string) : World :=
  mkWorld [buildset_of 1 [build_on_slave st] "running"] []
          [mkSlave 7 [3] 1%Z] [] false [] 100 10.

(** A revision of branch [feature] that falls back to [master]. *)
Definition revision_with_fallback : Revision :=
  mkRevision 5 "abc123" "feature" "master" true true [] [].

(** A config with no builder for [feature] and two for [master]. *)
Definition conf_master_only (br : string) : result (list BuilderConf) :=
  if String.eqb br "master"
  then Ok [mkBuilderConf "a" None;
           mkBuilderConf "b" (Some [rule_of "a" ["success"]])]
  else Ok [].

(** A config whose listing raises. *)
Definition conf_raising (e : exn) (br : string) : result (list BuilderConf) :=
  Raise e.

(** Two builders, the second triggered by the first and by a builder [z]
    that is not in the set. *)
Definition builders_a_b : list Builder :=
  [mkBuilder 11 "a" 1 0%Z [];
   mkBuilder 12 "b" 1 1%Z [rule_of "a" ["success"]; rule_of "z" ["fail"]]].

(** An empty buildset of repository 1, in the store. *)
Definition empty_buildset : BuildSet := buildset_of 1 [] "pending".

(** A revision that asks for builds and has no build config. *)
Definition revision_without_config : Revision := revision_of 6 "master" false.

(** A stream of two frames with a body, then a frame without one, then
    frames that are never read. *)
Definition two_frames : Connection string :=
  fun n =>
    match n with
    | 0 => Ok (Frame [("code", Some "0"); ("body", Some "build_info")])
    | 1 => Ok (Frame [("body", Some "step_info")])
    | 2 => Ok (Frame [("code", Some "0"); ("body", None)])
    | _ => Ok (Frame [("body", Some "late")])
    end.

(** Three pending builds without rules, in one buildset. *)
Definition three_builds : list Build :=
  [build_of 1 "a" "pending" []; build_of 2 "b" "pending" [];
   build_of 3 "c" "pending" []].

(** A schedule for an executer of [three_builds] with
    [parallel_builds = 1]: the first build is run and is over while the
    first pass still waits for the third build; the pass that its end
    launches comes to the second build; the waits of the two passes are
    over before the loop runs either. *)
Definition two_passes_schedule : list Action :=
  [run_once;                  (* the first pass starts *)
   io_done 0; run_once;       (* build 1 is ready: launched *)
   run_once;                  (* its task begins: _running = 1 *)
   slave_writes 1 "running";
   io_done 0; run_once;       (* build 2 is ready, the limit is reached *)
   slave_writes 1 "success";
   io_done 0; run_once;       (* the task of build 1 ends: _running = 0 *)
   run_once;                  (* the second pass starts *)
   io_done 1; run_once;       (* second pass: build 1 is not pending *)
   io_done 0;                 (* first pass: build 3 is ready *)
   io_done 0;                 (* second pass: build 2 is ready *)
   run_once;                  (* first pass launches build 3 *)
   run_once;                  (* second pass launches build 2 *)
   run_once; run_once].       (* both tasks begin: _running = 2 *)

(** ** Notions for the further properties *)

(** The builds of a builder in a buildset. *)
Definition builds_of_builder (self : Builder) (bs : BuildSet) : list Build :=
  filter (same_builder self) (builds bs).

(** The documents of a collection have distinct ids. *)
Definition distinct_builder_ids (w : World) : Prop :=
  NoDup (map builder_id (w_builders w)).

(** A store of a builder that has built twice: an older buildset where it
    failed and a newer one where it is running and has succeeded. *)
Definition builder_seven : Builder := mkBuilder 7 "a" 1 0%Z [].

Definition build_by (u : uuid) (b : Builder) (st : string) : Build :=
  mkBuild u 1 None "master" "abc123" b st None (Some "master")
          (Z.of_nat u) [].

Definition store_of_builder_seven : list BuildSet :=
  [mkBuildSet 1 1 (revision_of 1 "master" true) "master"
              [build_by 1 builder_seven "fail"] 3 "fail" 1%Z;
   mkBuildSet 2 1 (revision_of 2 "master" true) "master"
              [build_by 2 builder_seven "success";
               build_by 3 (mkBuilder 8 "b" 1 1%Z []) "exception";
               build_by 4 builder_seven "running"] 5 "running" 2%Z].

(** What cancelling may do to the store: no buildset and no build comes or
    goes, and a build is as it was or is a cancelled build with the same
    uuid. *)
Definition cancelled_or_same (b b' : Build) : Prop :=
  build_uuid b' = build_uuid b /\ (b' = b \/ status b' = CANCELLED).

Definition only_cancelled_in (bs bs' : BuildSet) : Prop :=
  bs' = set_builds bs (builds bs')
  /\ Forall2 cancelled_or_same (builds bs) (builds bs').

Definition only_cancelled (w w' : World) : Prop :=
  Forall2 only_cancelled_in (w_buildsets w) (w_buildsets w').

(** All the builds of the store. *)
Definition all_builds (l : list BuildSet) : list Build := flat_map builds l.

(** No two builds of the store have the same uuid. *)
Definition distinct_uuids (w : World) : Prop :=
  NoDup (map build_uuid (all_builds (w_buildsets w))).

(** The slave of every build of the store is in the store. *)
Definition slaves_in_store (w : World) : Prop :=
  forall b i, In b (all_builds (w_buildsets w)) -> slave b = Some i ->
              In i (map slave_id (w_slaves w)).

(** The buildsets of the same repository and branch as [buildset] that
    were created before it and have a build that is pending or running. *)
Definition previous_buildsets (buildset : BuildSet) (l : list BuildSet)
  : list BuildSet :=
  filter (fun bs => Nat.eqb (repository bs) (repository buildset)
                    && String.eqb (buildset_branch bs)
                                  (buildset_branch buildset)
                    && existsb (fun b => str_in (status b) [PENDING; RUNNING])
                               (builds bs)
                    && Nat.ltb (created bs) (created buildset)) l.

(** The build, cancelled when it is pending and its uuid is one of
    [uuids]. *)
Definition cancel_if_pending (uuids : list uuid) (b : Build) : Build :=
  if existsb (Nat.eqb (build_uuid b)) uuids && String.eqb (status b) PENDING
  then set_status b CANCELLED else b.

Definition cancel_pending_of (uuids : list uuid) (l : list BuildSet)
  : list BuildSet :=
  map (fun bs => set_builds bs (map (cancel_if_pending uuids) (builds bs))) l.

(** A store with an older buildset of two builds, one pending and one that
    has succeeded, and a newer buildset of one pending build. *)
Definition store_old_and_new : list BuildSet :=
  [mkBuildSet 1 1 (revision_of 1 "master" true) "master"
              [build_of 1 "a" "pending" []; build_of 2 "b" "success" []]
              3 "pending" 1%Z;
   mkBuildSet 2 1 (revision_of 2 "master" true) "master"
              [build_of 3 "a" "pending" []] 5 "pending" 2%Z].

(** The world after [cancel_previous_pending], called in the world [w0],
    has passed the builds with the uuids [done]. *)
Definition passed (w0 : World) (done : list uuid) (w : World) : Prop :=
  w_buildsets w = cancel_pending_of done (w_buildsets w0)
  /\ map slave_id (w_slaves w) = map slave_id (w_slaves w0).

(** * Properties *)

Unset Implicit Arguments.

(** ** Sorting *)

Section SortFacts.
Variables A K : Type.
Variable leb : K -> K -> bool.

Lemma insert_by_In : forall (x z : K * A) l,
  In z (insert_by leb x l) <-> z = x \/ In z l.
Proof.
  intros x z l. induction l as [|y l IH]; simpl.
  - intuition.
  - destruct (leb (fst x) (fst y)); simpl; [intuition|].
    rewrite IH. intuition.
Qed.

Lemma sort_by_In : forall (z : K * A) kl, In z (sort_by leb kl) <-> In z kl.
Proof.
  intros z kl. induction kl as [|x kl IH]; simpl; [tauto|].
  rewrite insert_by_In, IH. intuition.
Qed.

Lemma sort_by_nonempty : forall (x : K * A) kl, sort_by leb (x :: kl) <> [].
Proof.
  intros x kl H.
  assert (Hin : In x (sort_by leb (x :: kl))) by (apply sort_by_In; left; reflexivity).
  rewrite H in Hin. destruct Hin.
Qed.

Hypothesis leb_order : total_order leb.

Lemma leb_refl : forall a, leb a a = true.
Proof.
  intros a. destruct (leb a a) eqn:H; [reflexivity|].
  apply (proj1 leb_order) in H as H'. congruence.
Qed.

Lemma insert_by_head_first : forall (x : K * A) l,
  head_first leb l -> head_first leb (insert_by leb x l).
Proof.
  intros x [|y l] H; simpl.
  - intros z [<-|[]]. apply leb_refl.
  - destruct (leb (fst x) (fst y)) eqn:Hxy.
    + intros z [<-|Hz]; [apply leb_refl|].
      apply (proj2 leb_order) with (b := fst y); [exact Hxy|].
      apply H. exact Hz.
    + intros z [<-|Hz]; [apply leb_refl|].
      apply insert_by_In in Hz. destruct Hz as [->|Hz].
      * apply (proj1 leb_order). exact Hxy.
      * apply H. right. exact Hz.
Qed.

Lemma sort_by_head_first : forall kl : list (K * A),
  head_first leb (sort_by leb kl).
Proof.
  induction kl as [|x kl IH]; simpl; [exact I|].
  apply insert_by_head_first. exact IH.
Qed.

Variable key : A -> result K.

Lemma keys_of_ok : forall l kl,
  keys_of key l = Ok kl ->
  map snd kl = l /\ Forall (fun p => key (snd p) = Ok (fst p)) kl.
Proof.
  induction l as [|x l IH]; simpl; intros kl H.
  - injection H as <-. split; constructor.
  - destruct (key x) as [k|e] eqn:Hk; [|discriminate].
    destruct (keys_of key l) as [kl'|e]; [|discriminate].
    injection H as <-. destruct (IH kl' eq_refl) as [Hm Hf].
    split; simpl; [f_equal; exact Hm|]. constructor; [exact Hk|exact Hf].
Qed.

Lemma keys_of_raise : forall l e,
  keys_of key l = Raise e -> exists x, In x l /\ key x = Raise e.
Proof.
  induction l as [|x l IH]; simpl; intros e H; [discriminate|].
  destruct (key x) as [k|e'] eqn:Hk.
  - destruct (keys_of key l) as [kl'|e'']; [discriminate|].
    injection H as <-. destruct (IH e'' eq_refl) as (y & Hy & Hky).
    exists y. auto.
  - injection H as <-. exists x. auto.
Qed.

Lemma keys_of_total : forall l,
  (forall x, In x l -> exists k, key x = Ok k) ->
  exists kl, keys_of key l = Ok kl.
Proof.
  induction l as [|x l IH]; simpl; intros H; [eexists; reflexivity|].
  destruct (H x (or_introl eq_refl)) as [k ->].
  destruct IH as [kl ->]; [intros; apply H; auto|].
  eexists; reflexivity.
Qed.

(** The first element of what [sorted] returns is an element of the list
    whose key comes first. *)
Lemma sorted_head : forall l l' h k,
  sorted leb key l = Ok (h :: l') -> key h = Ok k ->
  In h l /\ forall x kx, In x l -> key x = Ok kx -> leb k kx = true.
Proof.
  intros l l' h k Hs Hk. unfold sorted in Hs.
  destruct (keys_of key l) as [kl|e] eqn:Hkeys; [|discriminate].
  injection Hs as Hs. destruct (keys_of_ok _ _ Hkeys) as [Hm Hf].
  pose proof (sort_by_head_first kl) as Hh.
  destruct (sort_by leb kl) as [|[k0 h0] rest] eqn:Hsort; [discriminate|].
  simpl in Hs. injection Hs as -> _.
  assert (Hin0 : In (k0, h) kl) by (apply sort_by_In; rewrite Hsort; left; reflexivity).
  rewrite Forall_forall in Hf. pose proof (Hf _ Hin0) as Hk0. simpl in Hk0.
  assert (k0 = k) by congruence. subst k0.
  split.
  - rewrite <- Hm. change h with (snd (k, h)). apply in_map. exact Hin0.
  - intros x kx Hx Hkx. rewrite <- Hm in Hx. apply in_map_iff in Hx.
    destruct Hx as ([k1 x1] & Hx1 & Hin1). simpl in Hx1. subst x1.
    pose proof (Hf _ Hin1) as Hk1. simpl in Hk1.
    assert (k1 = kx) by congruence. subst k1.
    apply (Hh (kx, x)). rewrite <- Hsort. apply sort_by_In. exact Hin1.
Qed.

Lemma sorted_nonempty : forall x l s,
  sorted leb key (x :: l) = Ok s -> s <> [].
Proof.
  intros x l s Hs. unfold sorted in Hs.
  destruct (keys_of key (x :: l)) as [kl|e] eqn:Hkeys; [|discriminate].
  injection Hs as <-. destruct (keys_of_ok _ _ Hkeys) as [Hm _].
  destruct kl as [|p kl]; [discriminate|].
  intros H. apply map_eq_nil in H. eapply sort_by_nonempty, H.
Qed.
End SortFacts.

Lemma nat_leb_order : total_order Nat.leb.
Proof.
  split.
  - intros a b H. apply Nat.leb_gt in H. apply Nat.leb_le. lia.
  - intros a b c H1 H2. apply Nat.leb_le in H1, H2. apply Nat.leb_le. lia.
Qed.

Lemma Z_geb_order : total_order (fun a b : Z => Z.leb b a).
Proof.
  split.
  - intros a b H. apply Z.leb_gt in H. apply Z.leb_le. lia.
  - intros a b c H1 H2. apply Z.leb_le in H1, H2. apply Z.leb_le. lia.
Qed.

(** ** [BuildSet.get_status] *)

Lemma index_raise : forall x l e, index x l = Raise e -> e = ValueError.
Proof.
  intros x l. induction l as [|y l IH]; simpl; intros e H.
  - congruence.
  - destruct (String.eqb y x); [discriminate|].
    destruct (index x l) as [n|e']; [discriminate|].
    injection H as <-. apply IH. reflexivity.
Qed.

Lemma index_nth_error : forall x l n,
  index x l = Ok n -> nth_error l n = Some x.
Proof.
  intros x l. induction l as [|y l IH]; simpl; intros n H; [discriminate|].
  destruct (String.eqb y x) eqn:Hyx.
  - injection H as <-. apply String.eqb_eq in Hyx. subst. reflexivity.
  - destruct (index x l) as [m|e]; [|discriminate].
    injection H as <-. simpl. apply IH. reflexivity.
Qed.

Lemma index_inj : forall x y l n,
  index x l = Ok n -> index y l = Ok n -> x = y.
Proof.
  intros x y l n Hx Hy.
  apply index_nth_error in Hx. apply index_nth_error in Hy. congruence.
Qed.

Lemma index_In : forall x l, In x l -> exists n, index x l = Ok n.
Proof.
  intros x l. induction l as [|y l IH]; simpl; intros H; [destruct H|].
  destruct (String.eqb y x) eqn:Hyx; [eexists; reflexivity|].
  destruct H as [->|H]; [rewrite String.eqb_refl in Hyx; discriminate|].
  destruct (IH H) as [n ->]. eexists; reflexivity.
Qed.

Lemma Build_STATUSES_ordered : forall s,
  In s Build_STATUSES -> In s ORDERED_STATUSES.
Proof.
  intros s H. simpl in H. simpl.
  unfold RUNNING, FAIL, SUCCESS, EXCEPTION, WARNING, CANCELLED, PENDING,
    PREPARING in H.
  intuition.
Qed.

Lemma py_set_iteration : set_iteration py_set.
Proof.
  intros l. split.
  - apply NoDup_nodup.
  - intros x. apply nodup_In.
Qed.

(** What the sort of [get_status] starts with. *)
Lemma sorted_statuses_head : forall l l' h,
  sorted Nat.leb (fun i => index i ORDERED_STATUSES) l = Ok (h :: l') ->
  highest_priority h l.
Proof.
  intros l l' h Hs.
  assert (Hh : exists p, index h ORDERED_STATUSES = Ok p).
  { unfold sorted in Hs.
    destruct (keys_of _ l) as [kl|e] eqn:Hkeys; [|discriminate].
    injection Hs as Hs. destruct (keys_of_ok _ _ _ _ _ Hkeys) as [_ Hf].
    destruct (sort_by Nat.leb kl) as [|[k0 h0] rest] eqn:Hsort; [discriminate|].
    simpl in Hs. injection Hs as -> _.
    assert (Hin0 : In (k0, h) kl).
    { apply sort_by_In with (leb := Nat.leb). rewrite Hsort. left. reflexivity. }
    rewrite Forall_forall in Hf. exists k0. exact (Hf _ Hin0). }
  destruct Hh as [p Hp].
  destruct (sorted_head _ _ _ nat_leb_order _ _ _ _ _ Hs Hp) as [Hin Hmin].
  split; [exact Hin|].
  intros t Ht.
  destruct (index t ORDERED_STATUSES) as [q|e] eqn:Hq.
  - exists p, q. repeat split; auto.
    apply Nat.leb_le. apply (Hmin t q Ht Hq).
  - exfalso. unfold sorted in Hs.
    destruct (keys_of _ l) as [kl|e'] eqn:Hkeys; [|discriminate].
    destruct (keys_of_ok _ _ _ _ _ Hkeys) as [Hm Hf].
    rewrite <- Hm in Ht. apply in_map_iff in Ht.
    destruct Ht as ([k1 t1] & Ht1 & Hin1). simpl in Ht1. subst t1.
    rewrite Forall_forall in Hf. specialize (Hf _ Hin1). cbn [fst snd] in Hf.
    congruence.
Qed.

(** Two statuses of highest priority in lists with the same elements are
    the same status. *)
Lemma highest_priority_unique : forall s1 s2 l1 l2,
  (forall x, In x l1 <-> In x l2) ->
  highest_priority s1 l1 -> highest_priority s2 l2 -> s1 = s2.
Proof.
  intros s1 s2 l1 l2 Hsame [Hin1 Hmin1] [Hin2 Hmin2].
  destruct (Hmin1 s2 (proj2 (Hsame s2) Hin2)) as (p & q & Hp & Hq & Hpq).
  destruct (Hmin2 s1 (proj1 (Hsame s1) Hin1)) as (q' & p' & Hq' & Hp' & Hqp).
  assert (q' = q) by congruence. assert (p' = p) by congruence. subst.
  assert (p = q) by lia. subst.
  exact (index_inj _ _ _ _ Hp Hq).
Qed.

(** [sorted] by priority raises exactly when a status is unknown, and then
    [ValueError]. *)
Lemma sorted_statuses_raise : forall l e,
  sorted Nat.leb (fun i => index i ORDERED_STATUSES) l = Raise e ->
  e = ValueError /\ exists x, In x l /\ ~ In x ORDERED_STATUSES.
Proof.
  intros l e Hs. unfold sorted in Hs.
  destruct (keys_of _ l) as [kl|e'] eqn:Hkeys; [discriminate|].
  injection Hs as <-. destruct (keys_of_raise _ _ _ _ _ Hkeys) as (x & Hx & Hr).
  split; [exact (index_raise _ _ _ Hr)|].
  exists x. split; [exact Hx|]. intros Hin.
  destruct (index_In _ _ Hin) as [n Hn]. congruence.
Qed.

Lemma sorted_statuses_ok : forall l,
  (forall x, In x l -> In x ORDERED_STATUSES) ->
  exists s, sorted Nat.leb (fun i => index i ORDERED_STATUSES) l = Ok s.
Proof.
  intros l H. unfold sorted.
  destruct (keys_of_total _ _ (fun i => index i ORDERED_STATUSES) l) as [kl ->].
  - intros x Hx. apply index_In. apply H. exact Hx.
  - eexists; reflexivity.
Qed.

(** C1.  A buildset without builds has the status [no builds].  For a
    buildset with builds, all of a status that [Build.status] admits,
    [get_status] returns a status of one of its builds that comes no later
    in [ORDERED_STATUSES] (running, cancelled, exception, fail, warning,
    success, preparing, pending) than the status of any of its builds;
    this holds for every order in which the set of statuses is iterated. *)
Theorem get_status_highest_priority :
  forall set_of, set_iteration set_of ->
  forall bs : BuildSet,
    (builds bs = [] -> get_status set_of bs = Ok NO_BUILDS)
    /\ (builds bs <> [] -> Forall valid_build (builds bs) ->
        exists s, get_status set_of bs = Ok s
                  /\ highest_priority s (map status (builds bs))).
Proof.
  intros set_of Hset bs. split.
  - intros H. unfold get_status. rewrite H. reflexivity.
  - intros Hne Hvalid. unfold get_status.
    destruct (builds bs) as [|b l] eqn:Hb; [congruence|].
    destruct (Hset (map status (b :: l))) as [_ Hel].
    set (L := set_of (map status (b :: l))) in *.
    destruct (sorted_statuses_ok L) as [s Hs].
    { intros x Hx. apply Hel in Hx. apply in_map_iff in Hx.
      destruct Hx as (b' & <- & Hb').
      rewrite Forall_forall in Hvalid.
      apply Build_STATUSES_ordered. apply Hvalid. exact Hb'. }
    rewrite Hs.
    destruct L as [|x L'] eqn:HL.
    { exfalso. apply (proj2 (Hel (status b))). left. reflexivity. }
    destruct s as [|h s']; [exfalso; exact (sorted_nonempty _ _ _ _ _ _ _ Hs eq_refl)|].
    exists h. split; [reflexivity|].
    destruct (sorted_statuses_head _ _ _ Hs) as [Hin Hmin].
    split.
    + apply Hel. exact Hin.
    + intros t Ht. apply Hmin. apply Hel. exact Ht.
Qed.

Lemma get_status_highest_priority_witness :
  exists s,
    get_status py_set
      (buildset_of 1 [build_of 1 "a" "success" []; build_of 2 "b" "fail" [];
                      build_of 3 "c" "pending" []] "pending") = Ok s
    /\ highest_priority s ["success"; "fail"; "pending"].
Proof.
  apply (get_status_highest_priority py_set py_set_iteration
           (buildset_of 1 [build_of 1 "a" "success" [];
                           build_of 2 "b" "fail" [];
                           build_of 3 "c" "pending" []] "pending")).
  - simpl. discriminate.
  - repeat constructor; vm_compute; tauto.
Defined.

Example get_status_fail :
  get_status py_set
    (buildset_of 1 [build_of 1 "a" "success" []; build_of 2 "b" "fail" [];
                    build_of 3 "c" "pending" []] "pending") = Ok "fail".
Proof. reflexivity. Qed.

(** C10.  [get_status] is a function of the set of statuses of the builds:
    two buildsets whose builds have the same statuses, whatever the order,
    the repetitions, the order the set is iterated in and the status stored
    in the buildset, get the same result, an exception included; and the
    stored status of a buildset can be changed without changing it. *)
Theorem get_status_depends_on_status_set :
  forall set1 set2, set_iteration set1 -> set_iteration set2 ->
  forall bs1 bs2 : BuildSet,
    (forall s, In s (map status (builds bs1))
               <-> In s (map status (builds bs2))) ->
    get_status set1 bs1 = get_status set2 bs2
    /\ forall st, get_status set1 (set_buildset_status bs1 st)
                  = get_status set1 bs1.
Proof.
  intros set1 set2 H1 H2 bs1 bs2 Hsame. split; [|reflexivity].
  unfold get_status.
  destruct (builds bs1) as [|b1 l1] eqn:Hb1;
    destruct (builds bs2) as [|b2 l2] eqn:Hb2.
  - reflexivity.
  - exfalso. apply (proj2 (Hsame (status b2))). left. reflexivity.
  - exfalso. apply (proj1 (Hsame (status b1))). left. reflexivity.
  - destruct (H1 (map status (b1 :: l1))) as [_ Hel1].
    destruct (H2 (map status (b2 :: l2))) as [_ Hel2].
    set (L1 := set1 (map status (b1 :: l1))) in *.
    set (L2 := set2 (map status (b2 :: l2))) in *.
    assert (HL : forall x, In x L1 <-> In x L2).
    { intros x. rewrite Hel1, Hel2. apply Hsame. }
    destruct (sorted Nat.leb _ L1) as [s1|e1] eqn:Hs1;
      destruct (sorted Nat.leb _ L2) as [s2|e2] eqn:Hs2.
    + destruct L1 as [|x1 L1'] eqn:HL1.
      { exfalso. apply (proj2 (Hel1 (status b1))). left. reflexivity. }
      destruct L2 as [|x2 L2'] eqn:HL2.
      { exfalso. apply (proj2 (Hel2 (status b2))). left. reflexivity. }
      destruct s1 as [|h1 s1']; [exfalso; exact (sorted_nonempty _ _ _ _ _ _ _ Hs1 eq_refl)|].
      destruct s2 as [|h2 s2']; [exfalso; exact (sorted_nonempty _ _ _ _ _ _ _ Hs2 eq_refl)|].
      f_equal.
      exact (highest_priority_unique _ _ _ _ HL
               (sorted_statuses_head _ _ _ Hs1)
               (sorted_statuses_head _ _ _ Hs2)).
    + exfalso. destruct (sorted_statuses_raise _ _ Hs2) as (_ & x & Hx & Hn).
      apply HL in Hx.
      unfold sorted in Hs1.
      destruct (keys_of _ L1) as [kl|e'] eqn:Hkeys; [|discriminate].
      destruct (keys_of_ok _ _ _ _ _ Hkeys) as [Hm Hf].
      rewrite <- Hm in Hx. apply in_map_iff in Hx.
      destruct Hx as ([k t] & Ht & Hin). simpl in Ht. subst t.
      rewrite Forall_forall in Hf. specialize (Hf _ Hin). cbn [fst snd] in Hf.
      apply index_nth_error, nth_error_In in Hf. exact (Hn Hf).
    + exfalso. destruct (sorted_statuses_raise _ _ Hs1) as (_ & x & Hx & Hn).
      apply HL in Hx.
      unfold sorted in Hs2.
      destruct (keys_of _ L2) as [kl|e'] eqn:Hkeys; [|discriminate].
      destruct (keys_of_ok _ _ _ _ _ Hkeys) as [Hm Hf].
      rewrite <- Hm in Hx. apply in_map_iff in Hx.
      destruct Hx as ([k t] & Ht & Hin). simpl in Ht. subst t.
      rewrite Forall_forall in Hf. specialize (Hf _ Hin). cbn [fst snd] in Hf.
      apply index_nth_error, nth_error_In in Hf. exact (Hn Hf).
    + destruct (sorted_statuses_raise _ _ Hs1) as [-> _].
      destruct (sorted_statuses_raise _ _ Hs2) as [-> _]. reflexivity.
Qed.

Lemma get_status_depends_on_status_set_witness :
  get_status py_set
    (buildset_of 1 [build_of 1 "a" "success" []; build_of 2 "b" "fail" []]
                 "pending")
  = get_status (fun l => rev (py_set l))
      (buildset_of 2 [build_of 5 "c" "fail" []; build_of 6 "d" "success" [];
                      build_of 7 "e" "fail" []] "running").
Proof.
  refine (proj1 (get_status_depends_on_status_set
                   py_set (fun l => rev (py_set l)) _ _
                   (buildset_of 1 _ _) (buildset_of 2 _ _) _)).
  - exact py_set_iteration.
  - intros l. destruct (py_set_iteration l) as [Hn He]. split.
    + apply NoDup_rev. exact Hn.
    + intros x. rewrite <- in_rev. apply He.
  - intros s. simpl. tauto.
Defined.

(** ** Trigger rules *)

Lemma str_in_In : forall x l, str_in x l = true <-> In x l.
Proof.
  intros x l. unfold str_in. rewrite existsb_exists. split.
  - intros (y & Hy & Heq). apply String.eqb_eq in Heq. subst. exact Hy.
  - intros H. exists x. split; [exact H|apply String.eqb_refl].
Qed.

Lemma str_in_not_In : forall x l, str_in x l = false <-> ~ In x l.
Proof.
  intros x l. rewrite <- str_in_In. destruct (str_in x l); split; congruence.
Qed.

Lemma setitem_fresh : forall d k v,
  ~ In k (map fst d) -> setitem d k v = (d ++ [(k, v)])%list.
Proof.
  induction d as [|[k' v'] d IH]; simpl; intros k v H; [reflexivity|].
  destruct (String.eqb k' k) eqn:Hk.
  - apply String.eqb_eq in Hk. subst. exfalso. apply H. left. reflexivity.
  - f_equal. apply IH. intros Hin. apply H. right. exact Hin.
Qed.

Section RulesFacts.
Context {E : Env}.

Lemma rules_of_nodup_from : forall docs d,
  NoDup (map fst d ++ map builder_name docs) ->
  fold_left (fun rules doc => setitem rules (builder_name doc) (statuses doc))
            docs d
  = (d ++ map item_of docs)%list.
Proof.
  induction docs as [|r docs IH]; simpl; intros d H.
  - rewrite app_nil_r. reflexivity.
  - rewrite setitem_fresh.
    + rewrite IH.
      * rewrite <- app_assoc. reflexivity.
      * rewrite map_app. simpl. rewrite <- app_assoc. simpl. exact H.
    + apply NoDup_remove_2 in H. intros Hin. apply H.
      apply in_or_app. left. exact Hin.
Qed.

Lemma rules_of_nodup : forall docs,
  NoDup (map builder_name docs) -> rules_of docs = map item_of docs.
Proof.
  intros docs H. unfold rules_of. rewrite rules_of_nodup_from; auto.
Qed.

(** With names that match themselves only, the lookup is the lookup of a
    plain dictionary. *)
Lemma getitem_plain : forall docs key,
  (forall r k, In r docs ->
     match_string k (builder_name r) = String.eqb k (builder_name r)) ->
  getitem (map item_of docs) key = dict_getitem (map item_of docs) key.
Proof.
  intros docs key Hplain. unfold getitem, matching_key.
  destruct (find _ (map item_of docs)) as [[k v]|] eqn:Hf; [|reflexivity].
  apply find_some in Hf. destruct Hf as [Hin Hm]. simpl in Hm.
  apply in_map_iff in Hin. destruct Hin as (r & Hr & Hin).
  unfold item_of in Hr. injection Hr as <- <-.
  rewrite (Hplain r key Hin) in Hm. apply String.eqb_eq in Hm.
  subst. reflexivity.
Qed.

Lemma dict_getitem_In : forall docs r,
  NoDup (map builder_name docs) -> In r docs ->
  dict_getitem (map item_of docs) (builder_name r) = Ok (statuses r).
Proof.
  induction docs as [|r0 docs IH]; simpl; intros r Hnd Hin; [destruct Hin|].
  inversion Hnd as [|? ? Hnot Hnd']; subst.
  destruct Hin as [->|Hin].
  - rewrite String.eqb_refl. reflexivity.
  - destruct (String.eqb (builder_name r0) (builder_name r)) eqn:Heq.
    + apply String.eqb_eq in Heq. exfalso. apply Hnot. rewrite Heq.
      apply in_map. exact Hin.
    + apply IH; assumption.
Qed.

Lemma dict_getitem_absent : forall docs key,
  ~ In key (map builder_name docs) ->
  dict_getitem (map item_of docs) key = Raise KeyError.
Proof.
  induction docs as [|r0 docs IH]; simpl; intros key H; [reflexivity|].
  destruct (String.eqb (builder_name r0) key) eqn:Heq.
  - apply String.eqb_eq in Heq. exfalso. apply H. left. exact Heq.
  - apply IH. intros Hin. apply H. right. exact Hin.
Qed.

(** The rule that [rules.get] finds for a builder. *)
Lemma get_plain_rules : forall docs key,
  plain_rules docs ->
  (forall r, In r docs -> builder_name r = key ->
     get (rules_of docs) key = Some (statuses r))
  /\ (~ In key (map builder_name docs) -> get (rules_of docs) key = None).
Proof.
  intros docs key (Hnd & Hplain & _).
  rewrite (rules_of_nodup _ Hnd). unfold get.
  rewrite (getitem_plain docs key Hplain). split.
  - intros r Hin <-. rewrite (dict_getitem_In _ _ Hnd Hin). reflexivity.
  - intros H. rewrite (dict_getitem_absent _ _ H). reflexivity.
Qed.

(** [rules[name]] does not raise where [rules.get(name)] is true. *)
Lemma getitem_of_get : forall d key v,
  get d key = Some v -> getitem d key = Ok v.
Proof.
  intros d key v. unfold get. destruct (getitem d key); congruence.
Qed.

(** The loop: [None] as soon as a build breaks its rule, the count of the
    builds that satisfy theirs otherwise. *)
Lemma check_builds_spec : forall self rules l ok,
  check_builds self rules l ok
  = Ok (if existsb (breaks self rules) l then None
        else Some (ok ++ repeat true
                     (List.length (filter (satisfies self rules) l)))%list).
Proof.
  intros self rules. induction l as [|b l IH]; intros ok.
  - simpl. rewrite app_nil_r. reflexivity.
  - cbn [check_builds existsb filter].
    unfold breaks at 1, satisfies at 1, looked_at, rule_statuses,
      builder_name_of.
    destruct (Nat.eqb (build_uuid b) (build_uuid self)); cbn [negb andb orb].
    { apply IH. }
    destruct (get rules (name (builder b))) as [[|s sts]|] eqn:Hget;
      cbn [truthy negb andb orb]; try apply IH.
    destruct (String.eqb (status b) PENDING); cbn [negb andb orb];
      [apply IH|].
    rewrite (getitem_of_get _ _ _ Hget).
    destruct (str_in (status b) (s :: sts)); cbn [negb andb orb].
    + rewrite IH. destruct (existsb (breaks self rules) l); [reflexivity|].
      cbn [List.length repeat]. rewrite <- app_assoc. reflexivity.
    + reflexivity.
Qed.
End RulesFacts.

Section ReadyFacts.
Context {E : Env}.

Lemma Build_get_reads : forall u w, snd (Build_get u w) = w.
Proof.
  intros u w. unfold Build_get, bind, get_world.
  destruct (filter (owns_uuid u) (w_buildsets w)) as [|bs l]; [reflexivity|].
  destruct (filter (has_uuid u) (builds bs)); reflexivity.
Qed.

Lemma get_buildset_reads : forall self w, snd (get_buildset self w) = w.
Proof.
  intros self w. unfold get_buildset, bind, get_world.
  destruct (filter _ (w_buildsets w)) as [|bs [|bs' l]]; reflexivity.
Qed.

Lemma get_buildset_set_status : forall self s w,
  get_buildset (set_status self s) w = get_buildset self w.
Proof. reflexivity. Qed.

(** A build that no buildset of the store owns is not ready. *)
Lemma ready_absent : forall self w,
  filter (owns_uuid (build_uuid self)) (w_buildsets w) = [] ->
  ready self w = Ok (Some false).
Proof.
  intros self w H.
  assert (Hg : Build_get (build_uuid self) w = (Raise DoesNotExist, w)).
  { unfold Build_get, bind, get_world. cbv beta iota. rewrite H. reflexivity. }
  unfold ready, is_ready2run, bind at 1, try_except. unfold bind at 1.
  rewrite Hg. reflexivity.
Qed.

Lemma ready_found : forall self w b,
  fst (Build_get (build_uuid self) w) = Ok b ->
  ready self w
  = if negb (String.eqb (status b) PENDING) then Ok (Some false)
    else match triggered_by self with
         | [] => Ok (Some true)
         | _ :: _ => fst (_check_build_rules (set_status self (status b)) w)
         end.
Proof.
  intros self w b H. unfold ready, is_ready2run, bind at 1, try_except.
  unfold bind at 1.
  pose proof (Build_get_reads (build_uuid self) w) as Hw.
  destruct (Build_get (build_uuid self) w) as [r w'] eqn:Hg.
  simpl in H, Hw. subst r w'. cbn [ret].
  cbn [status set_status].
  destruct (negb (String.eqb (status b) PENDING)); [reflexivity|].
  cbn [triggered_by set_status].
  destruct (triggered_by self) as [|r l]; [reflexivity|].
  unfold bind.
  destruct (_check_build_rules _ w) as [[ok|e] w'']; reflexivity.
Qed.

Lemma check_build_rules_found : forall self w bs,
  fst (get_buildset self w) = Ok bs ->
  fst (_check_build_rules self w)
  = Ok (if existsb (breaks self (rules_of (triggered_by self))) (builds bs)
        then None
        else Some (Nat.eqb
                     (List.length
                        (filter (satisfies self (rules_of (triggered_by self)))
                                (builds bs)))
                     (List.length (triggered_by self)))).
Proof.
  intros self w bs H. unfold _check_build_rules, bind.
  destruct (get_buildset self w) as [r w'] eqn:Hg. simpl in H. subst r.
  unfold lift. rewrite check_builds_spec.
  destruct (existsb _ (builds bs)); [reflexivity|].
  cbn [ret fst app]. rewrite repeat_length. reflexivity.
Qed.

(** What the loop makes of a build, in terms of the rules. *)
Lemma looked_at_rule : forall self docs b,
  plain_rules docs ->
  looked_at self (rules_of docs) b = true ->
  exists r, In r docs /\ builder_name r = builder_name_of b
            /\ rule_statuses (rules_of docs) b = statuses r
            /\ build_uuid b <> build_uuid self /\ status b <> PENDING.
Proof.
  intros self docs b Hplain H. unfold looked_at in H.
  apply andb_true_iff in H. destruct H as [H Hpend].
  apply andb_true_iff in H. destruct H as [Huuid Htruthy].
  apply negb_true_iff in Huuid, Hpend.
  apply Nat.eqb_neq in Huuid. apply String.eqb_neq in Hpend.
  destruct (in_dec string_dec (builder_name_of b) (map builder_name docs))
    as [Hin|Hout].
  - apply in_map_iff in Hin. destruct Hin as (r & Hname & Hin).
    exists r. repeat split; auto.
    unfold rule_statuses.
    rewrite (proj1 (get_plain_rules docs _ Hplain) r Hin Hname). reflexivity.
  - rewrite (proj2 (get_plain_rules docs _ Hplain) Hout) in Htruthy.
    discriminate.
Qed.

Lemma rule_looked_at : forall self docs b r,
  plain_rules docs -> In r docs -> builder_name r = builder_name_of b ->
  build_uuid b <> build_uuid self -> status b <> PENDING ->
  looked_at self (rules_of docs) b = true
  /\ rule_statuses (rules_of docs) b = statuses r.
Proof.
  intros self docs b r Hplain Hin Hname Huuid Hpend.
  unfold looked_at, rule_statuses.
  rewrite (proj1 (get_plain_rules docs _ Hplain) r Hin Hname).
  destruct Hplain as (_ & _ & Hst). destruct (Hst r Hin) as [Hne _].
  destruct (statuses r) as [|s sts]; [congruence|].
  split; [|reflexivity].
  apply Nat.eqb_neq in Huuid. apply String.eqb_neq in Hpend.
  rewrite Huuid, Hpend. reflexivity.
Qed.

Lemma siblings_In : forall self bs b,
  In b (siblings self bs)
  <-> In b (builds bs) /\ build_uuid b <> build_uuid self.
Proof.
  intros self bs b. unfold siblings. rewrite filter_In.
  rewrite negb_true_iff, Nat.eqb_neq. tauto.
Qed.

(** Some build breaks its rule exactly when some rule is broken. *)
Lemma breaks_rule_broken : forall self docs bs,
  plain_rules docs ->
  existsb (breaks self (rules_of docs)) (builds bs) = true
  <-> exists r, In r docs /\ rule_broken (siblings self bs) r.
Proof.
  intros self docs bs Hplain. rewrite existsb_exists. split.
  - intros (b & Hb & Hbr). unfold breaks in Hbr.
    apply andb_true_iff in Hbr. destruct Hbr as [Hl Hn].
    destruct (looked_at_rule self docs b Hplain Hl)
      as (r & Hin & Hname & Hst & Huuid & Hpend).
    exists r. split; [exact Hin|]. exists b. repeat split; auto.
    + apply siblings_In. auto.
    + rewrite Hst in Hn. apply negb_true_iff in Hn.
      apply str_in_not_In. exact Hn.
  - intros (r & Hin & b & Hb & Hname & Hpend & Hn).
    apply siblings_In in Hb. destruct Hb as [Hb Huuid].
    exists b. split; [exact Hb|].
    destruct (rule_looked_at self docs b r Hplain Hin (eq_sym Hname)
                             Huuid Hpend) as [Hl Hst].
    unfold breaks. rewrite Hl, Hst. apply str_in_not_In in Hn.
    rewrite Hn. reflexivity.
Qed.

Lemma satisfies_rule : forall self docs b,
  plain_rules docs ->
  satisfies self (rules_of docs) b = true
  <-> build_uuid b <> build_uuid self
      /\ exists r, In r docs /\ builder_name r = builder_name_of b
                   /\ In (status b) (statuses r).
Proof.
  intros self docs b Hplain. unfold satisfies. split.
  - intros H. apply andb_true_iff in H. destruct H as [Hl Hs].
    destruct (looked_at_rule self docs b Hplain Hl)
      as (r & Hin & Hname & Hst & Huuid & Hpend).
    split; [exact Huuid|]. exists r. repeat split; auto.
    rewrite Hst in Hs. apply str_in_In. exact Hs.
  - intros (Huuid & r & Hin & Hname & Hs).
    assert (Hpend : status b <> PENDING).
    { intros Hp. destruct Hplain as (_ & _ & Hst).
      destruct (Hst r Hin) as [_ Hnp]. apply Hnp. rewrite <- Hp. exact Hs. }
    destruct (rule_looked_at self docs b r Hplain Hin Hname Huuid Hpend)
      as [Hl Hst].
    rewrite Hl, Hst. apply str_in_In in Hs. rewrite Hs. reflexivity.
Qed.
End ReadyFacts.

(** ** Lists without repetition *)

Lemma NoDup_map_same : forall (A B : Type) (f : A -> B) (l : list A) a b,
  NoDup (map f l) -> In a l -> In b l -> f a = f b -> a = b.
Proof.
  intros A B f l. induction l as [|x l IH]; simpl; intros a b Hnd Ha Hb Heq.
  - destruct Ha.
  - inversion Hnd as [|? ? Hnot Hnd']; subst.
    destruct Ha as [->|Ha]; destruct Hb as [->|Hb].
    + reflexivity.
    + exfalso. apply Hnot. rewrite Heq. apply in_map. exact Hb.
    + exfalso. apply Hnot. rewrite <- Heq. apply in_map. exact Ha.
    + apply IH; assumption.
Qed.

Lemma NoDup_map_filter : forall (A B : Type) (f : A -> B) p (l : list A),
  NoDup (map f l) -> NoDup (map f (filter p l)).
Proof.
  intros A B f p l. induction l as [|x l IH]; simpl; intros Hnd.
  - constructor.
  - inversion Hnd as [|? ? Hnot Hnd']; subst.
    destruct (p x); simpl; [|apply IH; exact Hnd'].
    constructor; [|apply IH; exact Hnd'].
    intros Hin. apply Hnot. apply in_map_iff in Hin.
    destruct Hin as (y & Hy & Hin). apply filter_In in Hin.
    rewrite <- Hy. apply in_map. tauto.
Qed.

Lemma filter_filter_imp : forall (A : Type) (p q : A -> bool) (l : list A),
  (forall x, p x = true -> q x = true) ->
  filter p (filter q l) = filter p l.
Proof.
  intros A p q l H. induction l as [|x l IH]; simpl; [reflexivity|].
  destruct (q x) eqn:Hq; simpl.
  - rewrite IH. reflexivity.
  - destruct (p x) eqn:Hp; [|exact IH].
    apply H in Hp. congruence.
Qed.

Section ReadyMain.
Context {E : Env}.

Lemma satisfied_are_siblings : forall self rules bs,
  filter (satisfies self rules) (builds bs)
  = filter (satisfies self rules) (siblings self bs).
Proof.
  intros self rules bs. unfold siblings. symmetry.
  apply filter_filter_imp. intros b H. unfold satisfies, looked_at in H.
  apply andb_true_iff in H. destruct H as [H _].
  apply andb_true_iff in H. destruct H as [H _].
  apply andb_true_iff in H. destruct H as [H _]. exact H.
Qed.

(** With one build for a builder, rules that are all met leave no rule
    broken. *)
Lemma met_not_broken : forall docs sibs r,
  plain_rules docs -> distinct_builders sibs -> In r docs ->
  rule_met sibs r -> ~ rule_broken sibs r.
Proof.
  intros docs sibs r Hplain Hdist Hin (b & Hb & Hname & Hs)
         (b' & Hb' & Hname' & Hpend & Hn).
  assert (b = b').
  { apply (NoDup_map_same _ _ builder_name_of sibs); auto. congruence. }
  subst b'. exact (Hn Hs).
Qed.

(** The builds that satisfy their rule are as many as the rules exactly
    when every rule is met. *)
Lemma count_satisfied : forall self docs bs,
  plain_rules docs -> distinct_builders (siblings self bs) ->
  List.length (filter (satisfies self (rules_of docs)) (builds bs))
  = List.length docs
  <-> forall r, In r docs -> rule_met (siblings self bs) r.
Proof.
  intros self docs bs Hplain Hdist.
  rewrite satisfied_are_siblings.
  set (sibs := siblings self bs) in *.
  set (S := filter (satisfies self (rules_of docs)) sibs).
  assert (HndS : NoDup (map builder_name_of S)).
  { apply NoDup_map_filter. exact Hdist. }
  assert (Hincl : incl (map builder_name_of S) (map builder_name docs)).
  { intros nm Hnm. apply in_map_iff in Hnm. destruct Hnm as (b & <- & Hb).
    apply filter_In in Hb. destruct Hb as [_ Hb].
    apply (satisfies_rule self docs b Hplain) in Hb.
    destruct Hb as (_ & r & Hr & Hname & _).
    rewrite <- Hname. apply in_map. exact Hr. }
  pose proof Hplain as (Hnd & _ & _).
  split.
  - intros Hlen r Hr.
    assert (Hback : incl (map builder_name docs) (map builder_name_of S)).
    { apply NoDup_length_incl; [exact HndS| |exact Hincl].
      rewrite !length_map. fold S in Hlen. lia. }
    assert (Hnm : In (builder_name r) (map builder_name_of S)).
    { apply Hback. apply in_map. exact Hr. }
    apply in_map_iff in Hnm. destruct Hnm as (b & Hname & Hb).
    apply filter_In in Hb. destruct Hb as [Hb Hsat].
    apply (satisfies_rule self docs b Hplain) in Hsat.
    destruct Hsat as (_ & r' & Hr' & Hname' & Hs).
    assert (r' = r).
    { apply (NoDup_map_same _ _ builder_name docs); auto. congruence. }
    subst r'. exists b. auto.
  - intros Hmet. fold S.
    assert (Hback : incl (map builder_name docs) (map builder_name_of S)).
    { intros nm Hnm. apply in_map_iff in Hnm. destruct Hnm as (r & <- & Hr).
      destruct (Hmet r Hr) as (b & Hb & Hname & Hs).
      rewrite <- Hname. apply in_map. apply filter_In. split; [exact Hb|].
      apply (satisfies_rule self docs b Hplain). split.
      - apply siblings_In in Hb. tauto.
      - exists r. auto. }
    pose proof (NoDup_incl_length HndS Hincl) as H1.
    pose proof (NoDup_incl_length Hnd Hback) as H2.
    rewrite !length_map in H1, H2. lia.
Qed.

(** The three answers of [is_ready2run] for a pending build with rules. *)
Lemma ready_with_rules : forall self w b bs,
  fst (Build_get (build_uuid self) w) = Ok b ->
  fst (get_buildset self w) = Ok bs ->
  status b = PENDING -> triggered_by self <> [] ->
  ready self w
  = Ok (if existsb (breaks self (rules_of (triggered_by self))) (builds bs)
        then None
        else Some (Nat.eqb
                     (List.length
                        (filter (satisfies self (rules_of (triggered_by self)))
                                (builds bs)))
                     (List.length (triggered_by self)))).
Proof.
  intros self w b bs Hb Hbs Hpend Hne.
  rewrite (ready_found self w b Hb). rewrite Hpend.
  cbn [negb]. change (String.eqb PENDING PENDING) with true. cbn [negb].
  destruct (triggered_by self) as [|r l] eqn:Htb; [congruence|].
  rewrite (check_build_rules_found (set_status self PENDING) w bs Hbs).
  cbn [triggered_by set_status build_uuid]. rewrite Htb.
  reflexivity.
Qed.
End ReadyMain.

(** C2, as the code has it.  A build that the store no longer has, or whose
    stored status is not pending, is not ready (false); a pending build
    without rules is ready (true).  For a pending build with rules -- one
    rule for a builder, named in full, with statuses that are not empty and
    do not list pending -- in a buildset with one sibling build for a
    builder: the answer is true exactly when every rule is met by a
    sibling; it is [None] exactly when a sibling that is no longer pending
    breaks its rule; and it is false when a sibling that a rule names is
    still pending and no rule is broken. *)
Theorem is_ready2run_rules :
  forall (E : Env) (self : Build) (w : World),
    (filter (owns_uuid (build_uuid self)) (w_buildsets w) = [] ->
     ready self w = Ok (Some false))
    /\ forall b, fst (Build_get (build_uuid self) w) = Ok b ->
         (status b <> PENDING -> ready self w = Ok (Some false))
         /\ (status b = PENDING -> triggered_by self = [] ->
             ready self w = Ok (Some true))
         /\ forall bs,
              status b = PENDING -> triggered_by self <> [] ->
              fst (get_buildset self w) = Ok bs ->
              plain_rules (triggered_by self) ->
              distinct_builders (siblings self bs) ->
              (ready self w = Ok (Some true)
               <-> forall r, In r (triggered_by self) ->
                             rule_met (siblings self bs) r)
              /\ (ready self w = Ok None
                  <-> exists r, In r (triggered_by self)
                                /\ rule_broken (siblings self bs) r)
              /\ ((exists r, In r (triggered_by self)
                             /\ rule_waiting (siblings self bs) r) ->
                  ~ (exists r, In r (triggered_by self)
                               /\ rule_broken (siblings self bs) r) ->
                  ready self w = Ok (Some false)).
Proof.
  intros E self w. split; [apply ready_absent|].
  intros b Hb. split; [|split].
  - intros Hpend. rewrite (ready_found self w b Hb).
    apply String.eqb_neq in Hpend. rewrite Hpend. reflexivity.
  - intros Hpend Htb. rewrite (ready_found self w b Hb).
    rewrite Hpend, Htb. reflexivity.
  - intros bs Hpend Hne Hbs Hplain Hdist.
    rewrite (ready_with_rules self w b bs Hb Hbs Hpend Hne).
    pose proof (breaks_rule_broken self (triggered_by self) bs Hplain)
      as Hbroken.
    pose proof (count_satisfied self (triggered_by self) bs Hplain Hdist)
      as Hcount.
    destruct (existsb _ (builds bs)) eqn:Hex.
    + assert (Hbr : exists r, In r (triggered_by self)
                              /\ rule_broken (siblings self bs) r)
        by (apply Hbroken; reflexivity).
      split; [|split].
      * split; [discriminate|].
        intros Hmet. exfalso. destruct Hbr as (r & Hr & Hbr).
        exact (met_not_broken (triggered_by self) _ r Hplain Hdist Hr
                              (Hmet r Hr) Hbr).
      * split; [intros _; exact Hbr|reflexivity].
      * intros _ Hn. exfalso. exact (Hn Hbr).
    + assert (Hnbr : ~ exists r, In r (triggered_by self)
                                 /\ rule_broken (siblings self bs) r).
      { intros H. apply Hbroken in H. discriminate. }
      split; [|split].
      * rewrite <- Hcount. split.
        -- intros H. injection H as H. apply Nat.eqb_eq. exact H.
        -- intros H. apply Nat.eqb_eq in H. rewrite H. reflexivity.
      * split; [discriminate|]. intros H. exfalso. exact (Hnbr H).
      * intros (r & Hr & b' & Hb' & Hname & Hwait) _.
        destruct (Nat.eqb _ _) eqn:Hlen; [|reflexivity].
        exfalso. apply Nat.eqb_eq in Hlen.
        destruct (proj1 Hcount Hlen r Hr) as (b'' & Hb'' & Hname' & Hs).
        assert (b' = b'').
        { apply (NoDup_map_same _ _ builder_name_of (siblings self bs));
            auto. congruence. }
        subst b''. destruct Hplain as (_ & _ & Hst).
        destruct (Hst r Hr) as [_ Hnp]. apply Hnp. rewrite <- Hwait.
        exact Hs.
Qed.

Lemma is_ready2run_rules_witness :
  @ready (example_env false (Ok tt)) build_c
         (world_of [buildset_a_b_succeeded]) = Ok (Some true).
Proof.
  destruct (is_ready2run_rules (example_env false (Ok tt)) build_c
              (world_of [buildset_a_b_succeeded])) as [_ H].
  destruct (H build_c eq_refl) as (_ & _ & H3).
  assert (Hne : triggered_by build_c <> []) by (simpl; discriminate).
  assert (Hplain : @plain_rules (example_env false (Ok tt))
                     (triggered_by build_c)).
  { split; [|split].
    - simpl. repeat constructor; simpl; intuition discriminate.
    - intros r key _. reflexivity.
    - intros r [<-|[<-|[]]]; simpl; split; try discriminate;
        intros [H0|[]]; discriminate. }
  assert (Hdist : distinct_builders (siblings build_c buildset_a_b_succeeded)).
  { unfold distinct_builders. simpl.
    repeat constructor; simpl; intuition discriminate. }
  destruct (H3 buildset_a_b_succeeded eq_refl Hne eq_refl Hplain Hdist)
    as [Htrue _].
  apply Htrue. intros r [<-|[<-|[]]].
  - exists (build_of 1 "a" "success" []). simpl. auto.
  - exists (build_of 2 "b" "success" []). simpl. auto.
Defined.

(** C2, as the specification words it, fails: with [a] still pending and
    [b] failed, the build triggered by the success of both has a rule
    whose sibling is still pending, and the answer is [None], not false. *)
Lemma false_while_a_rule_waits_fails : ~ false_while_a_rule_waits.
Proof.
  intros H.
  specialize (H (example_env false (Ok tt)) build_c build_c
                buildset_a_waits_b_failed
                (world_of [buildset_a_waits_b_failed])
                eq_refl eq_refl eq_refl).
  assert (Hw : exists r, In r (triggered_by build_c)
                         /\ rule_waiting
                              (siblings build_c buildset_a_waits_b_failed) r).
  { exists (rule_of "a" ["success"]). split; [left; reflexivity|].
    exists (build_of 1 "a" "pending" []). simpl. auto. }
  specialize (H Hw). vm_compute in H. discriminate.
Qed.

Example ready_none_while_a_waits :
  @ready (example_env false (Ok tt)) build_c
         (world_of [buildset_a_waits_b_failed]) = Ok None.
Proof. reflexivity. Qed.

(** ** [Build.cancel] *)

Section CancelFacts.
Context {E : Env}.

Lemma deref_slave_cases : forall ref w,
  deref_slave ref w = (Raise DoesNotExist, w)
  \/ exists s, deref_slave ref w = (Ok s, w).
Proof.
  intros [i|] w; simpl.
  - unfold bind, get_world.
    destruct (filter _ (w_slaves w)) as [|s l]; [left|right; exists (Some s)];
      reflexivity.
  - right. exists None. reflexivity.
Qed.

Lemma dequeue_build_eval : forall s self w,
  exists r, dequeue_build s self w = (Ok r, snd (dequeue_build s self w))
    /\ w_buildsets (snd (dequeue_build s self w)) = w_buildsets w
    /\ w_trace (snd (dequeue_build s self w)) = w_trace w
    /\ w_queue (snd (dequeue_build s self w)) = w_queue w.
Proof.
  intros s self w. unfold dequeue_build, bind, get_world.
  cbv beta iota zeta.
  destruct (existsb (Nat.eqb (build_uuid self)) (enqueued_builds s));
    eexists; cbn; repeat split; reflexivity.
Qed.

Lemma after_dequeue_frame : forall s self w,
  w_buildsets (after_dequeue s self w) = w_buildsets w
  /\ w_trace (after_dequeue s self w) = w_trace w
  /\ w_queue (after_dequeue s self w) = w_queue w.
Proof.
  intros [s|] self w; simpl; [|auto].
  destruct (dequeue_build_eval s self w) as (r & _ & H). exact H.
Qed.

Lemma update_eval : forall self w,
  update self w
  = (if existsb (owns_uuid (build_uuid self)) (w_buildsets w)
     then Ok (List.length (filter (owns_uuid (build_uuid self))
                                  (w_buildsets w)))
     else Raise DBError,
     with_buildsets w (updated_store self (w_buildsets w))).
Proof.
  intros self w. unfold update, bind, get_world, put_world, updated_store.
  cbv beta iota.
  assert (H : Nat.eqb (List.length (filter (owns_uuid (build_uuid self))
                                           (w_buildsets w))) 0
              = negb (existsb (owns_uuid (build_uuid self)) (w_buildsets w))).
  { induction (w_buildsets w) as [|bs l IH]; simpl; [reflexivity|].
    destruct (owns_uuid (build_uuid self) bs); simpl; [reflexivity|exact IH]. }
  rewrite H. destruct (existsb _ (w_buildsets w)); reflexivity.
Qed.

(** Cancelling a pending build. *)
Lemma cancel_pending : forall self w s,
  status self = PENDING ->
  deref_slave (slave self) w = (Ok s, w) ->
  let cancelled := set_status self "cancelled" in
  let w1 := after_dequeue s self w in
  cancel self w
  = if existsb (owns_uuid (build_uuid self)) (w_buildsets w)
    then (Ok (cancelled, true),
          with_trace
            (with_buildsets w1 (updated_store cancelled (w_buildsets w)))
            (w_trace w ++ [build_cancelled_send (build_repository self)
                                                cancelled]))
    else (Raise DBError,
          with_buildsets w1 (updated_store cancelled (w_buildsets w))).
Proof.
  intros self w s Hst Hs cancelled w1. unfold cancel. rewrite Hst.
  change (negb (str_in PENDING [PENDING; RUNNING])) with false.
  change (String.eqb PENDING RUNNING) with false. cbv iota.
  unfold bind at 1. rewrite Hs.
  destruct (after_dequeue_frame s self w) as (Hb & Ht & _).
  fold w1 in Hb, Ht.
  assert (Hdq : exists r,
             (match s with
              | Some s0 => dequeue_build s0 self
              | None => ret false
              end) w = (Ok r, w1)).
  { destruct s as [sl|]; simpl in *.
    - destruct (dequeue_build_eval sl self w) as (r & Hr & _).
      exists r. exact Hr.
    - exists false. reflexivity. }
  destruct Hdq as (r & Hdq). unfold bind at 1. rewrite Hdq.
  unfold bind at 1. rewrite update_eval. rewrite Hb.
  change (build_uuid (set_status self "cancelled")) with (build_uuid self).
  destruct (existsb _ (w_buildsets w)); [|reflexivity].
  unfold bind, emit, ret. cbn [w_trace with_buildsets with_trace].
  rewrite Ht. reflexivity.
Qed.

(** Cancelling a running build. *)
Lemma cancel_running : forall self w s,
  status self = RUNNING ->
  deref_slave (slave self) w = (Ok s, w) ->
  cancel self w
  = match s with
    | None =>
        (Ok (self, false),
         with_trace w (w_trace w
                       ++ [Logged "error" "Error canceling running build"]))
    | Some sl =>
        let request := cancel_build_request (slave_id sl) (build_uuid self) in
        match cancel_request (slave_id sl) (build_uuid self) with
        | Ok _ => (Ok (self, true), with_trace w (w_trace w ++ [request]))
        | Raise _ =>
            (Ok (self, false),
             with_trace w (w_trace w
                           ++ [request;
                               Logged "error" "Error canceling running build"]))
        end
    end.
Proof.
  intros self w s Hst Hs. unfold cancel. rewrite Hst.
  change (negb (str_in RUNNING [PENDING; RUNNING])) with false.
  change (String.eqb RUNNING RUNNING) with true. cbv iota.
  unfold bind at 1. rewrite Hs.
  destruct s as [sl|]; unfold try_except, slave_cancel_build, bind, emit,
    lift, raise, ret, log; cbv beta iota.
  - destruct (cancel_request (slave_id sl) (build_uuid self)); cbv beta iota.
    + reflexivity.
    + unfold emit, with_trace. cbn [w_trace w_buildsets w_builders w_slaves
        w_queue w_is_building w_next_id w_clock].
      rewrite <- app_assoc. reflexivity.
  - reflexivity.
Qed.

(** What [Build.get] finds after an update that found the build. *)
Lemma Build_get_updated : forall self l,
  existsb (owns_uuid (build_uuid self)) l = true ->
  exists bs l',
    filter (owns_uuid (build_uuid self)) (updated_store self l) = bs :: l'
    /\ exists bl, filter (has_uuid (build_uuid self)) (builds bs) = self :: bl.
Proof.
  intros self. set (u := build_uuid self).
  assert (Hset : forall bl, existsb (has_uuid u) bl = true ->
            existsb (has_uuid u) (set_builds_S self bl) = true
            /\ exists bl', filter (has_uuid u) (set_builds_S self bl)
                           = self :: bl').
  { induction bl as [|b bl IH]; simpl; intros H; [discriminate|].
    fold u. destruct (has_uuid u b) eqn:Hb; simpl.
    - unfold has_uuid at 1 3. fold u. rewrite Nat.eqb_refl. simpl.
      split; [reflexivity|eexists; reflexivity].
    - rewrite Hb. simpl in H. destruct (IH H) as [H1 (bl' & H2)].
      split; [exact H1|]. exists bl'. exact H2. }
  unfold updated_store. fold u.
  induction l as [|bs l IH]; cbn [map filter existsb]; intros H;
    [discriminate|].
  destruct (owns_uuid u bs) eqn:Hbs; cbn [orb] in H.
  - unfold owns_uuid in Hbs. destruct (Hset _ Hbs) as [H1 (bl' & H2)].
    assert (Hown : owns_uuid u (set_builds bs (set_builds_S self (builds bs)))
                   = true) by exact H1.
    rewrite Hown. eexists. eexists. split; [reflexivity|].
    exists bl'. exact H2.
  - rewrite Hbs. apply IH. exact H.
Qed.
End CancelFacts.

Section CancelRaise.
Context {E : Env}.

Lemma cancel_dangling_slave : forall self w,
  str_in (status self) [PENDING; RUNNING] = true ->
  deref_slave (slave self) w = (Raise DoesNotExist, w) ->
  cancel self w = (Raise DoesNotExist, w).
Proof.
  intros self w Hst Hs. unfold cancel. rewrite Hst. cbn [negb].
  unfold bind at 1. rewrite Hs. reflexivity.
Qed.

Lemma Build_get_eval : forall u w,
  fst (Build_get u w)
  = match filter (owns_uuid u) (w_buildsets w) with
    | [] => Raise DoesNotExist
    | bs :: _ =>
        match filter (has_uuid u) (builds bs) with
        | [] => Raise DoesNotExist
        | b :: _ => Ok b
        end
    end.
Proof.
  intros u w. unfold Build_get, bind, get_world. cbv beta iota.
  destruct (filter (owns_uuid u) (w_buildsets w)) as [|bs l]; [reflexivity|].
  destruct (filter (has_uuid u) (builds bs)); reflexivity.
Qed.

Lemma cancel_statuses_cases : forall st,
  str_in st [PENDING; RUNNING] = true <-> st = PENDING \/ st = RUNNING.
Proof.
  intros st. rewrite str_in_In. simpl. intuition.
Qed.
End CancelRaise.

(** C4.  [cancel] raises [ImpossibleCancellation] exactly when the status
    is neither pending nor running.  With the slave reference resolved:
    a pending build that the store has is dequeued from its slave when it
    has one, gets the status cancelled, is written by the atomic update
    (it is what [Build.get] then finds), [build_cancelled] is sent with it,
    and the result is true; for a running build the request is sent to the
    slave, the result is false, with an error logged, exactly when the
    request raises or there is no slave, and the store, the slaves and the
    queue are left as they were. *)
Theorem cancel_spec :
  forall (E : Env) (self : Build) (w : World),
    (fst (cancel self w) = Raise ImpossibleCancellation
     <-> status self <> PENDING /\ status self <> RUNNING)
    /\ forall s, deref_slave (slave self) w = (Ok s, w) ->
         (status self = PENDING ->
          existsb (owns_uuid (build_uuid self)) (w_buildsets w) = true ->
          let cancelled := set_status self CANCELLED in
          let w' := snd (cancel self w) in
          fst (cancel self w) = Ok (cancelled, true)
          /\ w_slaves w' = w_slaves (after_dequeue s self w)
          /\ w_buildsets w' = updated_store cancelled (w_buildsets w)
          /\ fst (Build_get (build_uuid self) w') = Ok cancelled
          /\ w_trace w'
             = (w_trace w
                ++ [build_cancelled_send (build_repository self) cancelled])%list)
         /\ (status self = RUNNING ->
             let w' := snd (cancel self w) in
             let failed :=
               match s with
               | None => true
               | Some sl =>
                   match cancel_request (slave_id sl) (build_uuid self) with
                   | Ok _ => false
                   | Raise _ => true
                   end
               end in
             fst (cancel self w) = Ok (self, negb failed)
             /\ w_buildsets w' = w_buildsets w
             /\ w_slaves w' = w_slaves w
             /\ w_queue w' = w_queue w
             /\ w_trace w'
                = (w_trace w
                   ++ match s with
                      | Some sl => [cancel_build_request (slave_id sl)
                                                         (build_uuid self)]
                      | None => []
                      end
                   ++ if failed
                      then [Logged "error" "Error canceling running build"]
                      else [])%list).
Proof.
  intros E self w. split.
  - split.
    + intros Hraise.
      destruct (str_in (status self) [PENDING; RUNNING]) eqn:Hin.
      * exfalso. destruct (deref_slave_cases (slave self) w) as [Hs|[s Hs]].
        -- rewrite (cancel_dangling_slave self w Hin Hs) in Hraise.
           discriminate.
        -- apply cancel_statuses_cases in Hin. destruct Hin as [Hst|Hst].
           ++ rewrite (cancel_pending self w s Hst Hs) in Hraise.
              destruct (existsb _ (w_buildsets w)); discriminate.
           ++ rewrite (cancel_running self w s Hst Hs) in Hraise.
              destruct s as [sl|]; [|discriminate].
              cbv zeta in Hraise.
              destruct (cancel_request _ _); discriminate.
      * apply str_in_not_In in Hin. simpl in Hin.
        split; intros H; apply Hin; rewrite H; auto.
    + intros [Hp Hr].
      assert (Hin : str_in (status self) [PENDING; RUNNING] = false).
      { apply str_in_not_In. simpl. intuition congruence. }
      unfold cancel. rewrite Hin. reflexivity.
  - intros s Hs. split.
    + intros Hst Hown cancelled w'. subst w'.
      rewrite (cancel_pending self w s Hst Hs). rewrite Hown.
      fold cancelled. cbn [fst snd].
      destruct (after_dequeue_frame s self w) as (Hb & Ht & _).
      repeat split.
      rewrite Build_get_eval.
      cbn [w_buildsets with_trace with_buildsets].
      change (build_uuid self) with (build_uuid cancelled) in Hown |- *.
      destruct (Build_get_updated cancelled (w_buildsets w) Hown)
        as (bs & l' & Hf & bl & Hg).
      change (set_status self "cancelled") with cancelled.
      rewrite Hf, Hg. reflexivity.
    + intros Hst w' failed. subst w' failed.
      rewrite (cancel_running self w s Hst Hs).
      destruct s as [sl|]; [|repeat split].
      cbv zeta. destruct (cancel_request _ _); repeat split.
Qed.

Lemma cancel_spec_witness :
  fst (@cancel (example_env false (Ok tt)) (build_on_slave "pending")
               (world_with_slave "pending"))
  = Ok (build_on_slave "cancelled", true)
  /\ fst (@cancel (example_env false (Raise (OtherError "ConnectionError")))
                  (build_on_slave "running") (world_with_slave "running"))
     = Ok (build_on_slave "running", false).
Proof.
  split.
  - destruct (cancel_spec (example_env false (Ok tt))
                (build_on_slave "pending") (world_with_slave "pending"))
      as [_ H].
    destruct (H (Some (mkSlave 7 [3] 1%Z)) eq_refl) as [Hp _].
    exact (proj1 (Hp eq_refl eq_refl)).
  - destruct (cancel_spec
                (example_env false (Raise (OtherError "ConnectionError")))
                (build_on_slave "running") (world_with_slave "running"))
      as [_ H].
    destruct (H (Some (mkSlave 7 [3] 1%Z)) eq_refl) as [_ Hr].
    exact (proj1 (Hr eq_refl)).
Defined.

Example cancel_pending_dequeues :
  w_slaves (snd (@cancel (example_env false (Ok tt))
                         (build_on_slave "pending")
                         (world_with_slave "pending")))
  = [mkSlave 7 [] 0%Z].
Proof. reflexivity. Qed.

Example cancel_finished_raises :
  fst (@cancel (example_env false (Ok tt)) (build_on_slave "success")
               (world_with_slave "success"))
  = Raise ImpossibleCancellation.
Proof. reflexivity. Qed.

(** ** [BuildManager.get_builders] *)

Lemma Builder_get_or_create_fields : forall nm repo pos w b w',
  Builder_get_or_create nm repo pos w = (Ok b, w') ->
  name b = nm /\ builder_repository b = repo /\ position b = pos.
Proof.
  intros nm repo pos w b w'. unfold Builder_get_or_create, bind at 1, get_world.
  destruct (filter _ (w_builders w)) as [|b0 [|b1 l]] eqn:Hf.
  - unfold bind, fresh_id, get_world, put_world, ret. intros H.
    injection H as <- _. auto.
  - assert (Hin : In b0 (filter (fun b => String.eqb (name b) nm
                                          && Nat.eqb (builder_repository b) repo)
                                (w_builders w))).
    { rewrite Hf. left. reflexivity. }
    apply filter_In in Hin. destruct Hin as [_ Hin].
    apply andb_true_iff in Hin. destruct Hin as [Hn Hr].
    apply String.eqb_eq in Hn. apply Nat.eqb_eq in Hr.
    destruct (Z.eqb (position b0) pos) eqn:Hp; cbn [negb].
    + unfold ret. intros H. injection H as <- _.
      apply Z.eqb_eq in Hp. auto.
    + unfold bind, put_world, ret. intros H. injection H as <- _. auto.
  - unfold raise. discriminate.
Qed.

Section BuildersFacts.
Context {E : Env}.

Lemma builders_loop_fields : forall confs i acc w i' acc' w',
  for_each confs
    (fun '(i, builders) bconf =>
       let name := bconf_name bconf in
       let triggered_by :=
         match bconf_triggered_by bconf with
         | Some l => l
         | None => []
         end in
       builder <- Builder_get_or_create name repository_id (Z.of_nat i) ;;
       let builder := set_builder_triggered_by builder triggered_by in
       ret (S i, (builders ++ [builder])%list))
    (i, acc) w = (Ok (i', acc'), w') ->
  exists new,
    acc' = (acc ++ new)%list
    /\ map name new = map bconf_name confs
    /\ map builder_triggered_by new = map conf_triggered_by confs
    /\ map position new = map Z.of_nat (seq i (List.length confs)).
Proof.
  induction confs as [|c confs IH]; intros i acc w i' acc' w' H.
  - cbn in H. injection H as <- <- <-. exists []. rewrite app_nil_r. auto.
  - cbn [for_each] in H. unfold bind at 1 in H.
    unfold bind at 1 in H.
    destruct (Builder_get_or_create (bconf_name c) repository_id
                                    (Z.of_nat i) w) as [[b|e] w1] eqn:Hb;
      [|discriminate].
    apply Builder_get_or_create_fields in Hb. destruct Hb as (Hn & _ & Hp).
    cbn [ret] in H. apply IH in H.
    destruct H as (new & -> & Hnames & Htb & Hpos).
    exists (set_builder_triggered_by b (conf_triggered_by c) :: new).
    rewrite <- app_assoc. cbn [map List.length seq].
    rewrite Hnames, Htb, Hpos. cbn. rewrite Hn, Hp. auto.
Qed.

(** The builders that the loop returns are those of the config, in order. *)
Lemma builders_of_conf_fields : forall confs w builders w',
  builders_of_conf confs w = (Ok builders, w') ->
  map name builders = map bconf_name confs
  /\ map builder_triggered_by builders = map conf_triggered_by confs
  /\ map position builders
     = map Z.of_nat (seq 0 (List.length confs)).
Proof.
  intros confs w builders w' H. unfold builders_of_conf, bind at 1 in H.
  destruct (for_each confs _ (0, []) w) as [[[i acc]|e] w1] eqn:Hl;
    [|discriminate].
  cbn [ret] in H. injection H as <- <-.
  apply builders_loop_fields in Hl. destruct Hl as (new & -> & H). exact H.
Qed.
End BuildersFacts.

(** C7, as the code has it.  When listing the builders of the branch of
    the revision raises [AttributeError], the error is logged and the
    result is no builder with the branch of the revision as origin; an
    exception of another class leaves [get_builders] as it is.  When the
    listing gives no builder, the revision names a fallback branch and
    the listing for that branch gives a list, the result is what the rest
    of the function makes of that list, with the fallback branch as
    origin: builders named, in order, as the entries that [include] and
    [exclude] keep. *)
Theorem get_builders_bad_config_and_fallback :
  forall (E : Env) (rev : Revision) (conf : Config)
         (include exclude : list string) (w : World),
    (list_builders_from_config conf (branch rev) config_type
     = Raise AttributeError ->
     get_builders rev conf include exclude w
     = (Ok ([], branch rev),
        with_trace w
          (w_trace w ++ [Logged "debug" "Getting builders for {} on {}";
                         Logged "error" "Bad config for {} on {}"])))
    /\ (forall e,
          list_builders_from_config conf (branch rev) config_type = Raise e ->
          e <> AttributeError ->
          fst (get_builders rev conf include exclude w) = Raise e)
    /\ (forall l,
          list_builders_from_config conf (branch rev) config_type = Ok [] ->
          builders_fallback rev <> "" ->
          list_builders_from_config conf (builders_fallback rev) config_type
          = Ok l ->
          let w1 := with_trace w
                      (w_trace w
                       ++ [Logged "debug" "Getting builders for {} on {}"]) in
          get_builders rev conf include exclude w
          = match builders_of_conf (_filter_builders l include exclude) w1 with
            | (Ok builders, w') => (Ok (builders, builders_fallback rev), w')
            | (Raise e, w') => (Raise e, w')
            end
          /\ forall builders origin,
               fst (get_builders rev conf include exclude w)
               = Ok (builders, origin) ->
               origin = builders_fallback rev
               /\ map name builders
                  = map bconf_name (_filter_builders l include exclude)).
Proof.
  intros E rev conf include exclude w. split; [|split].
  - intros H. unfold get_builders, bind at 1, log, emit.
    unfold bind at 1, try_except, bind at 1, _get_builders_conf, lift.
    rewrite H. unfold bind, emit, ret, with_trace. cbn.
    rewrite <- app_assoc. reflexivity.
  - intros e H Hne. unfold get_builders, bind at 1, log, emit.
    unfold bind at 1, try_except, bind at 1, _get_builders_conf, lift.
    rewrite H. destruct e; try reflexivity. congruence.
  - intros l H Hfb Hl w1.
    assert (Heq : get_builders rev conf include exclude w
                  = match builders_of_conf
                            (_filter_builders l include exclude) w1 with
                    | (Ok builders, w') =>
                        (Ok (builders, builders_fallback rev), w')
                    | (Raise e, w') => (Raise e, w')
                    end).
    { unfold get_builders, bind at 1, log, emit.
      unfold bind at 1, try_except, bind at 1, _get_builders_conf, lift.
      rewrite H. cbn [ret]. apply String.eqb_neq in Hfb. rewrite Hfb.
      cbn [negb]. unfold bind at 1. unfold bind at 1. rewrite Hl.
      cbn [ret]. unfold bind. fold w1.
      destruct (builders_of_conf _ w1) as [[builders|e] w']; reflexivity. }
    split; [exact Heq|].
    intros builders origin Hok. rewrite Heq in Hok.
    destruct (builders_of_conf _ w1) as [[builders'|e] w'] eqn:Hb;
      [|discriminate].
    cbn in Hok. injection Hok as <- <-. split; [reflexivity|].
    apply (builders_of_conf_fields _ _ _ _ Hb).
Qed.

Lemma get_builders_bad_config_and_fallback_witness :
  fst (@get_builders (example_env false (Ok tt)) revision_with_fallback
                     (conf_raising AttributeError) [] [] (world_of []))
  = Ok ([], "feature")
  /\ exists builders,
       fst (@get_builders (example_env false (Ok tt)) revision_with_fallback
                          conf_master_only [] [] (world_of []))
       = Ok (builders, "master")
       /\ map name builders = ["a"; "b"].
Proof.
  pose proof (get_builders_bad_config_and_fallback
                (example_env false (Ok tt)) revision_with_fallback) as H.
  split.
  - destruct (H (conf_raising AttributeError) [] [] (world_of []))
      as [H1 _].
    rewrite (H1 eq_refl). reflexivity.
  - destruct (H conf_master_only [] [] (world_of [])) as (_ & _ & H3).
    assert (Hfb : builders_fallback revision_with_fallback <> "")
      by (simpl; discriminate).
    destruct (H3 _ eq_refl Hfb eq_refl) as [_ H4].
    eexists. split; [reflexivity|].
    exact (proj2 (H4 _ _ eq_refl)).
Defined.

(** C7, as the specification words it, fails: when the listing raises
    [KeyError], [get_builders] raises it too. *)
Lemma empty_on_any_listing_error_fails : ~ empty_on_any_listing_error.
Proof.
  intros H.
  specialize (H (example_env false (Ok tt)) revision_with_fallback
                (conf_raising KeyError) [] [] (world_of []) KeyError eq_refl).
  vm_compute in H. discriminate.
Qed.

Example get_builders_key_error :
  fst (@get_builders (example_env false (Ok tt)) revision_with_fallback
                     (conf_raising KeyError) [] [] (world_of []))
  = Raise KeyError.
Proof. reflexivity. Qed.

(** ** Frame rules for the monad *)

Section Frames.
Variable R : World -> World -> Prop.
Hypothesis R_preorder : preorder R.

Lemma preserves_ret : forall (A : Type) (a : A), preserves R (ret a).
Proof. intros A a w. apply (proj1 R_preorder). Qed.

Lemma preserves_raise : forall (A : Type) (e : exn),
  preserves R (@raise A e).
Proof. intros A e w. apply (proj1 R_preorder). Qed.

Lemma preserves_lift : forall (A : Type) (r : result A),
  preserves R (lift r).
Proof. intros A r w. apply (proj1 R_preorder). Qed.

Lemma preserves_get_world : preserves R get_world.
Proof. intros w. apply (proj1 R_preorder). Qed.

Lemma preserves_bind : forall (A B : Type) (c : M A) (f : A -> M B),
  preserves R c -> (forall a, preserves R (f a)) -> preserves R (bind c f).
Proof.
  intros A B c f Hc Hf w. unfold bind. specialize (Hc w).
  destruct (c w) as [[a|e] w1]; simpl in *.
  - apply (proj2 R_preorder) with (b := w1); [exact Hc|apply Hf].
  - exact Hc.
Qed.

Lemma preserves_try_except : forall (A : Type) (c : M A) h,
  preserves R c -> (forall e k, h e = Some k -> preserves R k) ->
  preserves R (try_except c h).
Proof.
  intros A c h Hc Hh w. unfold try_except. specialize (Hc w).
  destruct (c w) as [[a|e] w1]; simpl in *; [exact Hc|].
  destruct (h e) as [k|] eqn:He; [|exact Hc].
  apply (proj2 R_preorder) with (b := w1); [exact Hc|apply (Hh e k He)].
Qed.

Lemma preserves_for_each : forall (A S : Type) (body : S -> A -> M S) l acc,
  (forall acc x, preserves R (body acc x)) ->
  preserves R (for_each l body acc).
Proof.
  intros A S body l. induction l as [|x l IH]; intros acc Hb; simpl.
  - apply preserves_ret.
  - apply preserves_bind; [apply Hb|]. intros acc'. apply IH. exact Hb.
Qed.
End Frames.

Lemma same_buildsets_preorder : preorder same_buildsets.
Proof.
  split.
  - intros w. unfold same_buildsets. auto.
  - intros a b c (H1 & H2 & H3 & H4) (H5 & H6 & H7 & H8).
    unfold same_buildsets. repeat split; try congruence. lia.
Qed.

Lemma same_queue_preorder : preorder same_queue.
Proof.
  split.
  - intros w. unfold same_queue. auto.
  - intros a b c (H1 & H2) (H3 & H4). unfold same_queue.
    split; congruence.
Qed.

Lemma queue_grows_preorder : preorder queue_grows_with_config.
Proof.
  split.
  - intros w. exists []. rewrite app_nil_r. auto.
  - intros a b c (l1 & H1 & F1) (l2 & H2 & F2). exists (l1 ++ l2)%list.
    split.
    + rewrite H2, H1, app_assoc. reflexivity.
    + apply Forall_app. auto.
Qed.

Lemma same_queue_grows : forall w w',
  same_queue w w' -> queue_grows_with_config w w'.
Proof.
  intros w w' [H _]. exists []. rewrite app_nil_r. auto.
Qed.

Lemma same_buildsets_same_queue : forall w w',
  same_buildsets w w' -> same_queue w w'.
Proof. intros w w' (_ & H1 & H2 & _). split; assumption. Qed.

Lemma preserves_weaken : forall (A : Type) (R R' : World -> World -> Prop)
                                (c : M A),
  (forall w w', R w w' -> R' w w') -> preserves R c -> preserves R' c.
Proof. intros A R R' c H Hc w. apply H. apply Hc. Qed.

Lemma emit_same_buildsets : forall e, preserves same_buildsets (emit e).
Proof. intros e w. unfold same_buildsets. simpl. auto. Qed.

Lemma fresh_id_same_buildsets : preserves same_buildsets fresh_id.
Proof. intros w. unfold same_buildsets. simpl. auto. Qed.

Lemma Builder_get_or_create_same_buildsets : forall nm repo pos,
  preserves same_buildsets (Builder_get_or_create nm repo pos).
Proof.
  intros nm repo pos w. unfold Builder_get_or_create, bind at 1, get_world.
  destruct (filter _ (w_builders w)) as [|b0 [|b1 l]].
  - unfold same_buildsets. simpl. auto.
  - destruct (negb (Z.eqb (position b0) pos)); unfold same_buildsets;
      simpl; auto.
  - unfold same_buildsets. simpl. auto.
Qed.

Section FramesEnv.
Context {E : Env}.

Lemma builders_of_conf_same_buildsets : forall confs,
  preserves same_buildsets (builders_of_conf confs).
Proof.
  intros confs. unfold builders_of_conf.
  apply (preserves_bind _ same_buildsets_preorder).
  - apply (preserves_for_each _ same_buildsets_preorder).
    intros [i acc] c.
    apply (preserves_bind _ same_buildsets_preorder).
    + apply Builder_get_or_create_same_buildsets.
    + intros b. apply (preserves_ret _ same_buildsets_preorder).
  - intros [i acc]. apply (preserves_ret _ same_buildsets_preorder).
Qed.

Lemma get_builders_same_buildsets : forall rev conf include exclude,
  preserves same_buildsets (get_builders rev conf include exclude).
Proof.
  intros rev conf include exclude. unfold get_builders.
  pose proof same_buildsets_preorder as P.
  apply (preserves_bind _ P); [apply emit_same_buildsets|]. intros _.
  apply (preserves_bind _ P).
  - apply (preserves_try_except _ P).
    + apply (preserves_bind _ P); [apply (preserves_lift _ P)|].
      intros l. apply (preserves_ret _ P).
    + intros e k He. destruct e; try discriminate. injection He as <-.
      apply (preserves_bind _ P); [apply emit_same_buildsets|].
      intros _. apply (preserves_ret _ P).
  - intros [l|]; [|apply (preserves_ret _ P)].
    apply (preserves_bind _ P).
    + destruct l as [|c l]; [|apply (preserves_ret _ P)].
      destruct (negb (String.eqb (builders_fallback rev) ""));
        [|apply (preserves_ret _ P)].
      apply (preserves_bind _ P); [apply (preserves_lift _ P)|].
      intros l. apply (preserves_ret _ P).
    + intros [origin l'].
      apply (preserves_bind _ P); [apply builders_of_conf_same_buildsets|].
      intros b. apply (preserves_ret _ P).
Qed.

Lemma resolve_builders_same_buildsets : forall rev conf builders origin,
  preserves same_buildsets (resolve_builders rev conf builders origin).
Proof.
  intros rev conf builders origin. unfold resolve_builders.
  pose proof same_buildsets_preorder as P.
  destruct builders as [|b l]; [|apply (preserves_ret _ P)].
  apply (preserves_bind _ P); [apply get_builders_same_buildsets|].
  intros [bl o]. apply (preserves_ret _ P).
Qed.
End FramesEnv.

(** ** Build numbers *)

Lemma py_max_ge : forall l x, (x <= py_max x l)%Z
                              /\ forall y, In y l -> (y <= py_max x l)%Z.
Proof.
  unfold py_max. induction l as [|a l IH]; simpl; intros x.
  - split; [lia|]. intros y [].
  - destruct (IH (Z.max x a)) as [H1 H2]. split; [lia|].
    intros y [<-|Hy]; [lia|]. apply H2. exact Hy.
Qed.

Lemma py_max_In : forall l x, In (py_max x l) (x :: l).
Proof.
  unfold py_max. induction l as [|a l IH]; simpl; intros x; [auto|].
  destruct (IH (Z.max x a)) as [H|H].
  - destruct (Z.max_spec x a) as [[_ Hm]|[_ Hm]]; rewrite Hm in *; auto.
  - right. right. exact H.
Qed.

Section MaxFacts.
Context {E : Env}.

Lemma max0_ge : forall l, (0 <= max0 l)%Z
                          /\ forall y, In y l -> (y <= max0 l)%Z.
Proof.
  unfold max0. induction l as [|a l [IH1 IH2]]; simpl.
  - split; [lia|]. intros y [].
  - split; [lia|]. intros y [<-|Hy]; [lia|]. specialize (IH2 y Hy). lia.
Qed.

Lemma max0_In : forall l, max0 l = 0%Z \/ In (max0 l) l.
Proof.
  unfold max0. induction l as [|a l IH]; simpl; [auto|].
  destruct (Z.max_spec a (fold_right Z.max 0%Z l)) as [[_ Hm]|[_ Hm]];
    rewrite Hm.
  - destruct IH as [IH|IH]; [left; exact IH|right; right; exact IH].
  - right. left. reflexivity.
Qed.

(** The greatest number is the bound that is 0 or one of the numbers. *)
Lemma max0_unique : forall l m,
  (0 <= m)%Z -> (forall y, In y l -> (y <= m)%Z) -> m = 0%Z \/ In m l ->
  max0 l = m.
Proof.
  intros l m H0 Hub Hin. destruct (max0_ge l) as [G0 Gub].
  destruct (max0_In l) as [Hz|Hz]; destruct Hin as [Hm|Hm].
  - congruence.
  - specialize (Gub m Hm). lia.
  - specialize (Hub _ Hz). lia.
  - specialize (Gub m Hm). specialize (Hub _ Hz). lia.
Qed.

Lemma max0_Permutation : forall l l',
  Permutation l l' -> max0 l = max0 l'.
Proof.
  intros l l' H. apply max0_unique.
  - exact (proj1 (max0_ge l')).
  - intros y Hy. apply (proj2 (max0_ge l')).
    apply (Permutation_in _ H). exact Hy.
  - destruct (max0_In l') as [Hz|Hz]; [left; exact Hz|right].
    apply (Permutation_in _ (Permutation_sym H)). exact Hz.
Qed.

Lemma max0_one_to : forall n, max0 (one_to n) = Z.of_nat n.
Proof.
  intros n. apply max0_unique.
  - lia.
  - intros y Hy. unfold one_to in Hy. apply in_map_iff in Hy.
    destruct Hy as (k & <- & Hk). apply in_seq in Hk. lia.
  - destruct n as [|n]; [left; reflexivity|right].
    unfold one_to. apply in_map. apply in_seq. lia.
Qed.

Lemma repo_numbers_In : forall l x,
  In x (repo_numbers l)
  <-> exists bs b, In bs l /\ repository bs = repository_id
                   /\ In b (builds bs) /\ number b = x.
Proof.
  intros l x. unfold repo_numbers. rewrite in_flat_map. split.
  - intros (bs & Hbs & Hx).
    destruct (Nat.eqb (repository bs) repository_id) eqn:Hr; [|destruct Hx].
    apply Nat.eqb_eq in Hr. apply in_map_iff in Hx.
    destruct Hx as (b & Hb & Hin). exists bs, b. auto.
  - intros (bs & b & Hbs & Hr & Hb & Hx). exists bs. split; [exact Hbs|].
    apply Nat.eqb_eq in Hr. rewrite Hr. rewrite <- Hx. apply in_map. exact Hb.
Qed.

Lemma builds_number_key_spec : forall bs b,
  In b (builds bs) ->
  (number b <= builds_number_key bs)%Z
  /\ exists b', In b' (builds bs) /\ number b' = builds_number_key bs.
Proof.
  intros bs b Hb. unfold builds_number_key.
  assert (Hn : In (number b) (map number (builds bs)))
    by (apply in_map; exact Hb).
  destruct (map number (builds bs)) as [|n l] eqn:Hm; [destruct Hn|].
  split.
  - destruct (py_max_ge l n) as [H1 H2].
    destruct Hn as [<-|Hn]; [exact H1|apply H2; exact Hn].
  - pose proof (py_max_In l n) as Hin. rewrite <- Hm in Hin.
    apply in_map_iff in Hin. destruct Hin as (b' & Hb' & Hin).
    exists b'. auto.
Qed.

(** [_get_highest_build_number] returns the greatest build number of the
    repository, 0 without one, and leaves the world as it is. *)
Lemma _get_highest_build_number_eval : forall w,
  _get_highest_build_number w
  = (Ok (max0 (repo_numbers (w_buildsets w))), w).
Proof.
  intros w. unfold _get_highest_build_number, bind, get_world.
  cbv beta iota.
  set (qs := filter _ (w_buildsets w)).
  assert (Hqs : forall bs, In bs qs <->
            In bs (w_buildsets w) /\ repository bs = repository_id
            /\ exists b, In b (builds bs) /\ (0 < number b)%Z).
  { intros bs. unfold qs. rewrite filter_In, andb_true_iff, Nat.eqb_eq.
    rewrite existsb_exists. split.
    - intros (H1 & H2 & b & Hb & Hlt). apply Z.ltb_lt in Hlt.
      repeat split; auto. exists b. auto.
    - intros (H1 & H2 & b & Hb & Hlt). repeat split; auto.
      exists b. split; [exact Hb|]. apply Z.ltb_lt. exact Hlt. }
  unfold order_by_desc.
  pose proof (sort_by_head_first _ _ (fun a b : Z => Z.leb b a) Z_geb_order
                (map (fun bs => (builds_number_key bs, bs)) qs)) as Hhead.
  destruct (sort_by _ (map (fun bs => (builds_number_key bs, bs)) qs))
    as [|[k0 bs0] rest] eqn:Hsort.
  - (* no buildset with a positive number *)
    cbn [map]. unfold ret. f_equal. f_equal. symmetry.
    apply max0_unique; [lia| |left; reflexivity].
    intros y Hy. apply repo_numbers_In in Hy.
    destruct Hy as (bs & b & Hbs & Hr & Hb & <-).
    destruct (Z_le_gt_dec (number b) 0) as [Hle|Hgt]; [exact Hle|exfalso].
    assert (Hin : In bs qs).
    { apply Hqs. repeat split; auto. exists b. split; [exact Hb|lia]. }
    assert (Hin' : In (builds_number_key bs, bs)
                      (sort_by (fun a b : Z => Z.leb b a)
                         (map (fun bs => (builds_number_key bs, bs)) qs))).
    { apply sort_by_In. apply in_map_iff. exists bs. auto. }
    rewrite Hsort in Hin'. destruct Hin'.
  - cbn [map snd].
    assert (Hin0 : In (k0, bs0) (map (fun bs => (builds_number_key bs, bs)) qs)).
    { apply (sort_by_In _ _ (fun a b : Z => Z.leb b a)). rewrite Hsort.
      left. reflexivity. }
    apply in_map_iff in Hin0. destruct Hin0 as (bs & Heq & Hbs).
    injection Heq as <- <-. apply Hqs in Hbs.
    destruct Hbs as (Hbs & Hr & b & Hb & Hlt).
    destruct (builds_number_key_spec bs b Hb) as [Hle (b' & Hb' & Hkey)].
    assert (Hk : exists n l, map number (builds bs) = n :: l
                             /\ builds_number_key bs = py_max n l).
    { unfold builds_number_key.
      destruct (map number (builds bs)) as [|n l] eqn:Hm.
      - apply map_eq_nil in Hm. rewrite Hm in Hb. destruct Hb.
      - exists n, l. auto. }
    destruct Hk as (n & l & Hm & Hk). rewrite Hm. rewrite <- Hk.
    unfold ret. f_equal. f_equal. symmetry.
    apply max0_unique.
    + lia.
    + intros y Hy. apply repo_numbers_In in Hy.
      destruct Hy as (bs1 & b1 & Hbs1 & Hr1 & Hb1 & <-).
      destruct (Z_le_gt_dec (number b1) 0) as [Hle1|Hgt1]; [lia|].
      assert (Hin : In bs1 qs).
      { apply Hqs. repeat split; auto. exists b1. split; [exact Hb1|lia]. }
      assert (Hin' : In (builds_number_key bs1, bs1)
                        (sort_by (fun a b : Z => Z.leb b a)
                           (map (fun bs => (builds_number_key bs, bs)) qs))).
      { apply sort_by_In. apply in_map_iff. exists bs1. auto. }
      rewrite Hsort in Hin'. specialize (Hhead _ Hin'). cbn [fst] in Hhead.
      apply Z.leb_le in Hhead.
      destruct (builds_number_key_spec bs1 b1 Hb1) as [Hle2 _]. lia.
    + right. apply repo_numbers_In. exists bs, b'. auto.
Qed.
End MaxFacts.

Lemma save_in_overwrite : forall b1 b2 l,
  buildset_id b1 = buildset_id b2 -> save_in b2 (save_in b1 l) = save_in b2 l.
Proof.
  intros b1 b2 l Hid. induction l as [|x l IH]; simpl.
  - rewrite Hid, Nat.eqb_refl. reflexivity.
  - destruct (Nat.eqb (buildset_id x) (buildset_id b1)) eqn:Hx; simpl.
    + rewrite Hid, Nat.eqb_refl. rewrite <- Hid, Hx. reflexivity.
    + rewrite <- Hid, Hx. f_equal. exact IH.
Qed.

Section AddLoop.
Context {E : Env}.

Lemma build_for_builder_eval : forall rev all origin last bs b w,
  let nb := new_build all rev origin (w_next_id w) (last + 1) b in
  build_for_builder rev all origin (last, bs) b w
  = (Ok ((last + 1)%Z, set_builds bs (builds bs ++ [nb])),
     after_builds w bs [nb]).
Proof.
  intros rev all origin last bs b w nb.
  unfold build_for_builder, bind, fresh_id, add_build, save, log, emit,
    get_world, put_world, ret.
  cbv beta iota zeta. unfold after_builds, with_trace, with_buildsets,
    with_next_id. cbn.
  rewrite <- !app_assoc. cbn. rewrite Nat.add_1_r. reflexivity.
Qed.

Lemma builds_loop_eval : forall rev all origin l last bs w,
  let new := new_builds all rev origin (w_next_id w) last l in
  for_each l (build_for_builder rev all origin) (last, bs) w
  = (Ok ((last + Z.of_nat (List.length l))%Z,
         set_builds bs (builds bs ++ new)),
     after_builds w bs new).
Proof.
  intros rev all origin. induction l as [|b l IH]; intros last bs w new.
  - subst new. cbn. unfold ret, after_builds. rewrite !app_nil_r.
    rewrite Z.add_0_r, Nat.add_0_r.
    destruct bs; destruct w; reflexivity.
  - cbn [for_each]. unfold bind at 1. rewrite build_for_builder_eval.
    rewrite IH. subst new. cbn [new_builds].
    set (nb := new_build all rev origin (w_next_id w) (last + 1) b).
    set (bs1 := set_builds bs (builds bs ++ [nb])).
    set (w1 := after_builds w bs [nb]).
    assert (Hn : w_next_id w1 = S (w_next_id w)).
    { unfold w1, after_builds. cbn. apply Nat.add_1_r. }
    rewrite Hn.
    set (new' := new_builds all rev origin (S (w_next_id w)) (last + 1) l).
    assert (Hbs : set_builds bs1 (builds bs1 ++ new')
                  = set_builds bs (builds bs ++ nb :: new')).
    { unfold bs1, set_builds. cbn. rewrite <- app_assoc. reflexivity. }
    rewrite Hbs. f_equal.
    + f_equal. f_equal. cbn [List.length]. lia.
    + unfold after_builds. rewrite Hbs.
      unfold w1, after_builds. cbn [w_buildsets w_builders w_slaves w_queue
        w_is_building w_trace w_next_id w_clock flat_map List.length].
      change (repository bs1) with (repository bs).
      rewrite <- app_assoc. f_equal.
      * destruct new' as [|b' new'']; [reflexivity|].
        apply save_in_overwrite. reflexivity.
      * lia.
Qed.

(** What [add_builds_for_buildset] does once the builders are known. *)
Lemma add_builds_for_buildset_eval :
  forall bs conf builders origin w resolved origin' w0,
    resolve_builders (revision bs) conf builders origin w
    = (Ok (resolved, origin'), w0) ->
    let last := max0 (repo_numbers (w_buildsets w0)) in
    let new := new_builds resolved (revision bs) origin' (w_next_id w0) last
                          resolved in
    let bs' := set_builds bs (builds bs ++ new) in
    add_builds_for_buildset bs conf builders origin w
    = (Ok bs', after_queued (after_builds w0 bs new) bs').
Proof.
  intros bs conf builders origin w resolved origin' w0 Hres last new bs'.
  unfold add_builds_for_buildset. unfold bind at 1. rewrite Hres.
  unfold bind at 1. rewrite _get_highest_build_number_eval.
  unfold bind at 1. rewrite builds_loop_eval.
  fold last. fold new. fold bs'.
  unfold bind, get_world, put_world, emit, ret, after_queued.
  cbn [w_is_building with_trace with_queue w_trace w_queue].
  destruct (w_is_building (after_builds w0 bs new)); cbn.
  - reflexivity.
  - unfold with_trace, with_queue. cbn. rewrite <- !app_assoc. reflexivity.
Qed.
End AddLoop.

(** ** The rules of the builds that are added *)

Lemma filter_kept_in_order : forall (A : Type) (p : A -> bool) (l : list A),
  kept_in_order (filter p l) l.
Proof.
  intros A p l. induction l as [|x l IH]; simpl; [constructor|].
  destruct (p x); constructor; exact IH.
Qed.

Section NewBuilds.
Context {E : Env}.

Lemma new_builds_fields : forall all rev origin l u last,
  let new := new_builds all rev origin u last l in
  map builder new = l
  /\ map build_uuid new = seq u (List.length l)
  /\ map number new
     = map (fun i => (last + Z.of_nat i)%Z) (seq 1 (List.length l))
  /\ Forall (fun b => status b = PENDING
                      /\ triggered_by b
                         = filter (fun rule => str_in (builder_name rule)
                                                      (map name all))
                                  (builder_triggered_by (builder b))) new.
Proof.
  intros all rev origin. induction l as [|b l IH]; intros u last new.
  - subst new. cbn. auto.
  - subst new. cbn [new_builds map List.length seq].
    destruct (IH (S u) (last + 1)%Z) as (H1 & H2 & H3 & H4).
    rewrite H1, H2, H3.
    split; [reflexivity|]. split; [reflexivity|]. split.
    + cbn [map number new_build]. f_equal.
      rewrite <- (seq_shift (List.length l) 1), map_map.
      apply map_ext. intros i. lia.
    + constructor; [|exact H4]. cbn. auto.
Qed.

Lemma resolve_builders_given : forall rev conf b l origin w,
  resolve_builders rev conf (b :: l) origin w = (Ok (b :: l, origin), w).
Proof. reflexivity. Qed.
End NewBuilds.

(** C8.  [_handle_build_triggered_by] leaves in the rules of a build those,
    and only those, that name one of the builders, in the order they had.
    Every build that [add_builds_for_buildset] appends, for the builders it
    was given or has resolved, is appended with the rules of its builder
    filtered in this way against these builders. *)
Theorem triggered_by_filtered :
  forall (E : Env),
    (forall (build : Build) (builders : list Builder),
       let rules := triggered_by (_handle_build_triggered_by build builders) in
       (forall r, In r rules
                  <-> In r (triggered_by build)
                      /\ exists b, In b builders /\ name b = builder_name r)
       /\ kept_in_order rules (triggered_by build)
       /\ rules = filter (fun r => str_in (builder_name r) (map name builders))
                         (triggered_by build))
    /\ (forall bs conf builders origin w resolved origin' w0,
          resolve_builders (revision bs) conf builders origin w
          = (Ok (resolved, origin'), w0) ->
          exists bs' w' new,
            add_builds_for_buildset bs conf builders origin w = (Ok bs', w')
            /\ builds bs' = (builds bs ++ new)%list
            /\ map builder new = resolved
            /\ Forall
                 (fun b =>
                    triggered_by b
                    = triggered_by
                        (_handle_build_triggered_by
                           (set_triggered_by b
                              (builder_triggered_by (builder b)))
                           resolved)) new).
Proof.
  intros E. split.
  - intros build builders rules. subst rules.
    unfold _handle_build_triggered_by. cbn [triggered_by set_triggered_by].
    split; [|split].
    + intros r. rewrite filter_In, str_in_In, in_map_iff.
      split.
      * intros (H1 & b & Hb & Hin). split; [exact H1|]. exists b. auto.
      * intros (H1 & b & Hin & Hb). split; [exact H1|]. exists b. auto.
    + apply filter_kept_in_order.
    + reflexivity.
  - intros bs conf builders origin w resolved origin' w0 Hres.
    rewrite (add_builds_for_buildset_eval bs conf builders origin w
               resolved origin' w0 Hres).
    eexists. eexists. eexists. split; [reflexivity|].
    cbn [builds set_builds].
    destruct (new_builds_fields resolved (revision bs) origin' resolved
                (w_next_id w0) (max0 (repo_numbers (w_buildsets w0))))
      as (H1 & _ & _ & H4).
    split; [reflexivity|]. split; [exact H1|].
    eapply Forall_impl; [|exact H4]. intros b [_ Hb]. exact Hb.
Qed.

Lemma triggered_by_filtered_witness :
  exists bs' w' new,
    @add_builds_for_buildset (example_env false (Ok tt)) empty_buildset
      conf_master_only builders_a_b (Some "master") (world_of [empty_buildset])
    = (Ok bs', w')
    /\ builds bs' = new
    /\ map triggered_by new = [[]; [rule_of "a" ["success"]]].
Proof.
  destruct (triggered_by_filtered (example_env false (Ok tt))) as [_ H].
  destruct (H empty_buildset conf_master_only builders_a_b (Some "master")
              (world_of [empty_buildset]) builders_a_b (Some "master")
              (world_of [empty_buildset]) eq_refl)
    as (bs' & w' & new & Hrun & Hb & _ & _).
  exists bs', w', new. split; [exact Hrun|]. split; [exact Hb|].
  vm_compute in Hrun. injection Hrun as Hbs' _. rewrite <- Hbs' in Hb.
  cbn in Hb. rewrite <- Hb. reflexivity.
Defined.

(** ** The numbers of the builds of a repository *)

Lemma save_in_fresh : forall bs l,
  (forall x, In x l -> buildset_id x <> buildset_id bs) ->
  save_in bs l = (l ++ [bs])%list.
Proof.
  intros bs l. induction l as [|x l IH]; simpl; intros H; [reflexivity|].
  destruct (Nat.eqb (buildset_id x) (buildset_id bs)) eqn:Hx.
  - apply Nat.eqb_eq in Hx. exfalso. apply (H x); auto.
  - f_equal. apply IH. intros y Hy. apply H. right. exact Hy.
Qed.

Lemma save_in_replace : forall bs bs' l1 l2,
  NoDup (map buildset_id (l1 ++ bs :: l2)) ->
  buildset_id bs' = buildset_id bs ->
  save_in bs' (l1 ++ bs :: l2) = (l1 ++ bs' :: l2)%list.
Proof.
  intros bs bs' l1 l2 Hnd Hid. induction l1 as [|x l1 IH]; simpl in *.
  - rewrite Hid, Nat.eqb_refl. reflexivity.
  - inversion Hnd as [|? ? Hnot Hnd']; subst.
    destruct (Nat.eqb (buildset_id x) (buildset_id bs')) eqn:Hx.
    + apply Nat.eqb_eq in Hx. exfalso. apply Hnot.
      rewrite map_app. apply in_or_app. right. left. congruence.
    + f_equal. apply IH. exact Hnd'.
Qed.

Lemma seq_offset : forall n m s,
  map Z.of_nat (seq (n + s) m)
  = map (fun i => (Z.of_nat n + Z.of_nat i)%Z) (seq s m).
Proof.
  intros n. induction m as [|m IH]; intros s; simpl; [reflexivity|].
  f_equal; [lia|]. replace (S (n + s)) with (n + S s) by lia. apply IH.
Qed.

Lemma one_to_app : forall n m,
  one_to (n + m)
  = (one_to n
     ++ map (fun i => (Z.of_nat n + Z.of_nat i)%Z) (seq 1 m))%list.
Proof.
  intros n m. unfold one_to. rewrite seq_app, map_app. f_equal.
  replace (1 + n) with (n + 1) by lia. apply seq_offset.
Qed.

Section Numbering.
Context {E : Env}.

Lemma repo_numbers_app : forall l1 l2,
  repo_numbers (l1 ++ l2) = (repo_numbers l1 ++ repo_numbers l2)%list.
Proof. intros l1 l2. unfold repo_numbers. apply flat_map_app. Qed.

Lemma repo_numbers_cons : forall bs l,
  repository bs = repository_id ->
  repo_numbers (bs :: l) = (map number (builds bs) ++ repo_numbers l)%list.
Proof.
  intros bs l H. unfold repo_numbers. cbn [flat_map].
  rewrite H, Nat.eqb_refl. reflexivity.
Qed.

Lemma _get_next_number_reads : forall repo w,
  exists n, _get_next_number repo w = (Ok n, w).
Proof.
  intros repo w. unfold _get_next_number, bind, get_world. cbv beta iota.
  destruct (order_by_desc buildset_number _); eexists; reflexivity.
Qed.

(** A new buildset goes to the end of the store, with no build. *)
Lemma BuildSet_create_eval : forall rev w,
  (forall bs, In bs (w_buildsets w) -> buildset_id bs < w_next_id w) ->
  exists bs w',
    BuildSet_create repository_id rev w = (Ok bs, w')
    /\ builds bs = [] /\ buildset_id bs = w_next_id w
    /\ revision bs = rev /\ repository bs = repository_id
    /\ w_buildsets w' = (w_buildsets w ++ [bs])%list
    /\ w_next_id w' = S (w_next_id w)
    /\ w_queue w' = w_queue w
    /\ w_trace w'
       = (w_trace w
          ++ [buildset_notify_task "buildset-added" (buildset_id bs)])%list.
Proof.
  intros rev w Hids. unfold BuildSet_create. unfold bind at 1.
  destruct (_get_next_number_reads repository_id w) as [n ->].
  unfold bind, fresh_id, get_world, put_world, save, emit, ret.
  cbv beta iota zeta. cbn [w_buildsets with_clock with_next_id w_clock
    with_buildsets w_trace with_trace w_next_id w_queue].
  eexists. eexists. split; [reflexivity|].
  cbn [builds buildset_id revision repository].
  repeat split. apply save_in_fresh. intros x Hx. cbn [buildset_id].
  specialize (Hids x Hx). lia.
Qed.

Lemma numbered_create : forall rev w bs w',
  numbered w -> BuildSet_create repository_id rev w = (Ok bs, w') ->
  numbered w'.
Proof.
  intros rev w bs w' (Hnd & Hids & Hperm) Hc.
  destruct (BuildSet_create_eval rev w Hids)
    as (bs0 & w0 & Hc0 & Hb & Hid & _ & Hr & Hst & Hn & _).
  rewrite Hc in Hc0. injection Hc0 as <- <-.
  unfold numbered. rewrite Hst, Hn. split; [|split].
  - rewrite map_app. cbn [map]. rewrite Hid.
    apply NoDup_app; try assumption.
    + repeat constructor. intros [].
    + intros x Hx [<-|[]]. apply in_map_iff in Hx.
      destruct Hx as (y & Hy & Hin). specialize (Hids y Hin). lia.
  - intros x Hx. apply in_app_or in Hx. destruct Hx as [Hx|[<-|[]]].
    + specialize (Hids x Hx). lia.
    + lia.
  - rewrite repo_numbers_app.
    assert (Hnil : repo_numbers [bs] = []).
    { unfold repo_numbers. cbn. rewrite Hb.
      destruct (Nat.eqb _ _); reflexivity. }
    rewrite Hnil, app_nil_r. exact Hperm.
Qed.

Lemma add_builds_resolved : forall bs conf builders origin w bs' w',
  add_builds_for_buildset bs conf builders origin w = (Ok bs', w') ->
  exists resolved origin' w0,
    resolve_builders (revision bs) conf builders origin w
    = (Ok (resolved, origin'), w0).
Proof.
  intros bs conf builders origin w bs' w' H.
  unfold add_builds_for_buildset, bind at 1 in H.
  destruct (resolve_builders (revision bs) conf builders origin w)
    as [[[resolved origin']|e] w0]; [|discriminate].
  eexists. eexists. eexists. reflexivity.
Qed.

Lemma numbered_add_builds : forall bs conf builders origin w bs' w',
  numbered w -> In bs (w_buildsets w) -> repository bs = repository_id ->
  add_builds_for_buildset bs conf builders origin w = (Ok bs', w') ->
  numbered w'.
Proof.
  intros bs conf builders origin w bs' w' (Hnd & Hids & Hperm) Hin Hrepo Hrun.
  destruct (add_builds_resolved _ _ _ _ _ _ _ Hrun)
    as (resolved & origin' & w0 & Hres).
  pose proof (resolve_builders_same_buildsets (revision bs) conf builders
                origin w) as Hframe.
  rewrite Hres in Hframe. cbn [snd] in Hframe.
  destruct Hframe as (Hst & _ & _ & Hnext).
  rewrite (add_builds_for_buildset_eval _ _ _ _ _ _ _ _ Hres) in Hrun.
  injection Hrun as <- <-.
  set (last := max0 (repo_numbers (w_buildsets w0))) in *.
  set (new := new_builds resolved (revision bs) origin' (w_next_id w0) last
                         resolved) in *.
  destruct (new_builds_fields resolved (revision bs) origin' resolved
              (w_next_id w0) last) as (_ & _ & Hnum & _).
  fold new in Hnum.
  set (n := List.length (repo_numbers (w_buildsets w))) in *.
  assert (Hlast : last = Z.of_nat n).
  { unfold last. rewrite Hst. rewrite (max0_Permutation _ _ Hperm).
    apply max0_one_to. }
  unfold numbered, after_queued, after_builds.
  cbn [w_buildsets w_next_id with_trace with_queue]. rewrite Hst.
  destruct new as [|b0 new'] eqn:Hnew.
  { split; [exact Hnd|]. split; [|exact Hperm].
    intros x Hx. specialize (Hids x Hx). lia. }
  rewrite <- Hnew in *.
  apply in_split in Hin. destruct Hin as (l1 & l2 & Hsplit).
  rewrite Hsplit in *.
  rewrite (save_in_replace bs (set_builds bs (builds bs ++ new)) l1 l2 Hnd
                           eq_refl).
  split; [|split].
  - rewrite map_app in *. cbn [map buildset_id set_builds] in *. exact Hnd.
  - intros x Hx.
    assert (Hx' : buildset_id x < w_next_id w).
    { apply in_app_or in Hx. destruct Hx as [Hx|[<-|Hx]].
      - apply Hids. apply in_or_app. auto.
      - cbn [buildset_id set_builds]. apply Hids. apply in_or_app.
        right. left. reflexivity.
      - apply Hids. apply in_or_app. right. right. exact Hx. }
    lia.
  - assert (Hnums :
      Permutation (repo_numbers (l1 ++ set_builds bs (builds bs ++ new) :: l2))
                  (repo_numbers (l1 ++ bs :: l2) ++ map number new)).
    { rewrite !repo_numbers_app.
      rewrite (repo_numbers_cons bs l2 Hrepo).
      rewrite (repo_numbers_cons (set_builds bs (builds bs ++ new)) l2 Hrepo).
      cbn [builds set_builds]. rewrite map_app.
      rewrite <- !app_assoc. apply Permutation_app_head.
      apply Permutation_app_head. apply Permutation_app_comm. }
    assert (Hlen : List.length (repo_numbers
                      (l1 ++ set_builds bs (builds bs ++ new) :: l2))
                   = n + List.length resolved).
    { rewrite (Permutation_length Hnums), length_app. unfold n.
      rewrite Hsplit, Hnum, length_map, length_seq. reflexivity. }
    rewrite Hlen, one_to_app.
    eapply Permutation_trans; [exact Hnums|].
    apply Permutation_app; [exact Hperm|].
    rewrite Hnum, Hlast. apply Permutation_refl.
Qed.

Lemma numbered_steps : forall w w',
  manager_steps w w' -> numbered w -> numbered w'.
Proof.
  intros w w' H. induction H as [w|w w' w'' _ IH Hstep]; intros Hn;
    [exact Hn|].
  specialize (IH Hn). destruct Hstep.
  - eapply numbered_create; [exact IH|eassumption].
  - eapply numbered_add_builds; [exact IH|eassumption..].
Qed.
End Numbering.

Lemma NoDup_one_to : forall n, NoDup (one_to n).
Proof.
  intros n. unfold one_to. apply Finite.Injective_map_NoDup.
  - intros a b H. apply Nat2Z.inj. exact H.
  - apply seq_NoDup.
Qed.

(** C3.  [_get_highest_build_number] returns the greatest number of the
    builds of the buildsets of the repository, 0 when there is none, and
    changes nothing.  [add_builds_for_buildset] appends one build for each
    builder, in order, numbered from that number on: last + 1, last + 2,
    ...  Hence in every world that creating buildsets and adding builds to
    stored buildsets of the repository leads to, from a store where the
    repository has no build, the numbers of the builds of the repository
    are 1, ..., n, each once, n being the number of builds. *)
Theorem build_numbers_consecutive :
  forall (E : Env),
    (forall w,
       exists last,
         _get_highest_build_number w = (Ok last, w)
         /\ (forall x, In x (repo_numbers (w_buildsets w)) -> (x <= last)%Z)
         /\ (last = 0%Z \/ In last (repo_numbers (w_buildsets w)))
         /\ (0 <= last)%Z)
    /\ (forall bs conf builders origin w resolved origin' w0,
          resolve_builders (revision bs) conf builders origin w
          = (Ok (resolved, origin'), w0) ->
          exists bs' w' new last,
            add_builds_for_buildset bs conf builders origin w = (Ok bs', w')
            /\ fst (_get_highest_build_number w) = Ok last
            /\ builds bs' = (builds bs ++ new)%list
            /\ map builder new = resolved
            /\ map number new
               = map (fun i => (last + Z.of_nat i)%Z)
                     (seq 1 (List.length resolved)))
    /\ (forall w0 w,
          no_build_yet w0 -> manager_steps w0 w ->
          let numbers := repo_numbers (w_buildsets w) in
          Permutation numbers (one_to (List.length numbers))
          /\ NoDup numbers).
Proof.
  intros E. split; [|split].
  - intros w. exists (max0 (repo_numbers (w_buildsets w))).
    split; [apply _get_highest_build_number_eval|].
    split; [apply (proj2 (max0_ge _))|].
    split; [apply max0_In|apply (proj1 (max0_ge _))].
  - intros bs conf builders origin w resolved origin' w0 Hres.
    pose proof (resolve_builders_same_buildsets (revision bs) conf builders
                  origin w) as Hframe.
    rewrite Hres in Hframe. destruct Hframe as (Hst & _).
    cbn [snd] in Hst.
    rewrite (add_builds_for_buildset_eval bs conf builders origin w
               resolved origin' w0 Hres).
    rewrite _get_highest_build_number_eval.
    eexists. eexists. eexists. eexists.
    split; [reflexivity|]. split; [reflexivity|].
    cbn [builds set_builds]. split; [reflexivity|].
    destruct (new_builds_fields resolved (revision bs) origin' resolved
                (w_next_id w0) (max0 (repo_numbers (w_buildsets w0))))
      as (H1 & _ & H3 & _).
    split; [exact H1|]. rewrite <- Hst. exact H3.
  - intros w0 w (Hnd & Hids & Hnone) Hsteps numbers.
    assert (Hn0 : numbered w0).
    { split; [exact Hnd|]. split; [exact Hids|]. rewrite Hnone.
      apply Permutation_refl. }
    destruct (numbered_steps w0 w Hsteps Hn0) as (_ & _ & Hperm).
    split; [exact Hperm|].
    apply (Permutation_NoDup (Permutation_sym Hperm)). apply NoDup_one_to.
Qed.

Lemma build_numbers_consecutive_witness :
  exists w,
    @manager_steps (example_env false (Ok tt)) (world_of [empty_buildset]) w
    /\ Permutation (@repo_numbers (example_env false (Ok tt)) (w_buildsets w))
                   (map Z.of_nat [1; 2; 3; 4]).
Proof.
  pose (E := example_env false (Ok tt)).
  pose (w0 := world_of [empty_buildset]).
  destruct (proj1 (proj2 (build_numbers_consecutive E)) empty_buildset
              conf_master_only builders_a_b (Some "master") w0
              builders_a_b (Some "master") w0 eq_refl)
    as (bs1 & w1 & new1 & last1 & Hrun1 & _ & Hb1 & _).
  assert (Hin1 : In bs1 (w_buildsets w1) /\ repository bs1 = 1).
  { vm_compute in Hrun1. injection Hrun1 as <- <-. split.
    - left. reflexivity.
    - reflexivity. }
  destruct Hin1 as [Hin1 Hrepo1].
  destruct (proj1 (proj2 (build_numbers_consecutive E)) bs1
              conf_master_only builders_a_b (Some "master") w1
              builders_a_b (Some "master") w1 eq_refl)
    as (bs2 & w2 & new2 & last2 & Hrun2 & _ & Hb2 & Hbuilders2 & _).
  exists w2.
  assert (Hsteps : @manager_steps E w0 w2).
  { apply steps_more with (w' := w1).
    - apply steps_more with (w' := w0); [apply steps_none|].
      apply (@step_add_builds E empty_buildset conf_master_only builders_a_b
               (Some "master") w0 bs1 w1); [left; reflexivity|reflexivity|].
      exact Hrun1.
    - apply (@step_add_builds E bs1 conf_master_only builders_a_b
               (Some "master") w1 bs2 w2); [exact Hin1|exact Hrepo1|].
      exact Hrun2. }
  split; [exact Hsteps|].
  assert (Hno : @no_build_yet E w0).
  { split; [|split].
    - repeat constructor. intros [].
    - intros bs [<-|[]]. cbn. lia.
    - reflexivity. }
  destruct (proj2 (proj2 (build_numbers_consecutive E)) w0 w2 Hno Hsteps)
    as [Hperm _].
  assert (Hlen : List.length (@repo_numbers E (w_buildsets w2)) = 4).
  { vm_compute in Hrun1. injection Hrun1 as <- <-.
    vm_compute in Hrun2. injection Hrun2 as <- <-. reflexivity. }
  rewrite Hlen in Hperm. exact Hperm.
Defined.

(** ** [BuildManager.add_builds] *)

Lemma save_in_In : forall bs l, In bs (save_in bs l).
Proof.
  intros bs l. induction l as [|x l IH]; simpl; [auto|].
  destruct (Nat.eqb (buildset_id x) (buildset_id bs)); simpl; auto.
Qed.

Lemma preserves_bind_val :
  forall (A B : Type) (R : World -> World -> Prop) (Q : A -> Prop)
         (c : M A) (f : A -> M B),
    preorder R -> preserves R c ->
    (forall w a, fst (c w) = Ok a -> Q a) ->
    (forall a, Q a -> preserves R (f a)) ->
    preserves R (bind c f).
Proof.
  intros A B R Q c f P Hc Hq Hf w. unfold bind.
  specialize (Hc w). specialize (Hq w).
  destruct (c w) as [[a|e] w1]; simpl in *; [|exact Hc].
  apply (proj2 P) with (b := w1); [exact Hc|].
  apply Hf. apply Hq. reflexivity.
Qed.

Lemma emit_same_queue : forall e, preserves same_queue (emit e).
Proof. intros e w. split; reflexivity. Qed.

Lemma save_same_queue : forall bs, preserves same_queue (save bs).
Proof. intros bs w. split; reflexivity. Qed.

Lemma update_same_queue : forall self, preserves same_queue (update self).
Proof.
  intros self w. unfold update, bind, get_world, put_world. cbv beta iota.
  destruct (Nat.eqb _ 0); split; reflexivity.
Qed.

Lemma deref_slave_same_queue : forall ref,
  preserves same_queue (deref_slave ref).
Proof.
  intros ref w. destruct (deref_slave_cases ref w) as [H|[s H]];
    rewrite H; split; reflexivity.
Qed.

Lemma dequeue_build_same_queue : forall s self,
  preserves same_queue (dequeue_build s self).
Proof.
  intros s self w. unfold dequeue_build, bind, get_world. cbv beta iota zeta.
  destruct (existsb (Nat.eqb (build_uuid self)) (enqueued_builds s));
    split; reflexivity.
Qed.

Lemma BuildSet_create_same_queue : forall repo rev,
  preserves same_queue (BuildSet_create repo rev).
Proof.
  intros repo rev w. unfold BuildSet_create, bind at 1, _get_next_number,
    bind at 1, get_world.
  destruct (order_by_desc buildset_number _); cbv beta iota;
    unfold ret, bind, fresh_id, get_world, put_world, save, emit;
    cbv beta iota zeta; split; reflexivity.
Qed.

Lemma BuildSet_create_revision : forall repo rev w bs,
  fst (BuildSet_create repo rev w) = Ok bs ->
  revision bs = rev /\ builds bs = [] /\ repository bs = repo.
Proof.
  intros repo rev w bs. unfold BuildSet_create, bind at 1, _get_next_number,
    bind at 1, get_world.
  destruct (order_by_desc buildset_number _); cbv beta iota;
    unfold ret, bind, fresh_id, get_world, put_world, save, emit;
    cbv beta iota zeta; cbn [fst]; intros H; injection H as <-; auto.
Qed.

Section AddBuildsFacts.
Context {E : Env}.

Lemma cancel_same_queue : forall self, preserves same_queue (cancel self).
Proof.
  intros self. unfold cancel.
  pose proof same_queue_preorder as P.
  destruct (negb (str_in (status self) [PENDING; RUNNING]));
    [apply (preserves_raise _ P)|].
  apply (preserves_bind _ P); [apply deref_slave_same_queue|].
  intros s. destruct (String.eqb (status self) RUNNING).
  - apply (preserves_try_except _ P).
    + apply (preserves_bind _ P); [|intros _; apply (preserves_ret _ P)].
      unfold slave_cancel_build. destruct s as [sl|];
        [|apply (preserves_raise _ P)].
      apply (preserves_bind _ P); [apply emit_same_queue|].
      intros _. apply (preserves_lift _ P).
    + intros e k He. injection He as <-.
      apply (preserves_bind _ P); [apply emit_same_queue|].
      intros _. apply (preserves_ret _ P).
  - apply (preserves_bind _ P).
    + destruct s as [sl|]; [apply dequeue_build_same_queue|].
      apply (preserves_ret _ P).
    + intros _. apply (preserves_bind _ P); [apply update_same_queue|].
      intros _. apply (preserves_bind _ P); [apply emit_same_queue|].
      intros _. apply (preserves_ret _ P).
Qed.

Lemma cancel_previous_pending_same_queue : forall bs,
  preserves same_queue (cancel_previous_pending bs).
Proof.
  intros bs. unfold cancel_previous_pending.
  pose proof same_queue_preorder as P.
  apply (preserves_bind _ P); [apply (preserves_get_world _ P)|].
  intros w. apply (preserves_for_each _ P). intros _ bs'.
  apply (preserves_for_each _ P). intros _ b.
  apply (preserves_try_except _ P).
  - apply (preserves_bind _ P); [apply cancel_same_queue|].
    intros _. apply (preserves_ret _ P).
  - intros e k He. destruct e; try discriminate. injection He as <-.
    apply (preserves_ret _ P).
Qed.

(** The buildset that [add_builds_for_buildset] queues is of a revision
    with a config when the buildset it is given is. *)
Lemma add_builds_for_buildset_queue : forall bs conf builders origin,
  has_config (revision bs) = true ->
  preserves queue_grows_with_config
            (add_builds_for_buildset bs conf builders origin).
Proof.
  intros bs conf builders origin Hconf w.
  pose proof (resolve_builders_same_buildsets (revision bs) conf builders
                origin w) as Hframe.
  destruct (resolve_builders (revision bs) conf builders origin w)
    as [[[resolved origin']|e] w0] eqn:Hres.
  - rewrite (add_builds_for_buildset_eval _ _ _ _ _ _ _ _ Hres).
    destruct Hframe as (_ & Hq & _). cbn [snd] in Hq |- *.
    eexists. unfold after_queued, after_builds.
    cbn [w_queue with_trace with_queue]. rewrite Hq.
    split; [reflexivity|]. repeat constructor. exact Hconf.
  - unfold add_builds_for_buildset, bind at 1. rewrite Hres.
    apply same_queue_grows. apply same_buildsets_same_queue. exact Hframe.
Qed.

Lemma add_builds_step_queue : forall vars rev,
  preserves queue_grows_with_config (add_builds_step vars rev).
Proof.
  intros [last_bs cur] rev. unfold add_builds_step.
  pose proof queue_grows_preorder as P.
  destruct (negb (create_builds rev)); [apply (preserves_ret _ P)|].
  apply (preserves_bind_val _ _ _ (fun bs => revision bs = rev)).
  - exact P.
  - apply (preserves_weaken _ same_queue); [apply same_queue_grows|].
    apply BuildSet_create_same_queue.
  - intros w bs H. apply (BuildSet_create_revision _ _ _ _ H).
  - intros bs Hrev. destruct (has_config rev) eqn:Hconf; cbn [negb].
    + apply (preserves_bind _ P).
      * apply (preserves_weaken _ same_queue); [apply same_queue_grows|].
        apply (preserves_weaken _ same_buildsets);
          [apply same_buildsets_same_queue|].
        apply get_builders_same_buildsets.
      * intros [builders origin]. apply (preserves_bind _ P).
        -- apply add_builds_for_buildset_queue. rewrite Hrev. exact Hconf.
        -- intros bs'. apply (preserves_ret _ P).
    + apply (preserves_weaken _ same_queue); [apply same_queue_grows|].
      pose proof same_queue_preorder as P'.
      apply (preserves_bind _ P'); [apply save_same_queue|]. intros _.
      apply (preserves_bind _ P'); [apply emit_same_queue|]. intros _.
      apply (preserves_ret _ P').
Qed.

Lemma add_builds_queue : forall revisions,
  preserves queue_grows_with_config (add_builds revisions).
Proof.
  intros revisions. unfold add_builds.
  pose proof queue_grows_preorder as P.
  apply (preserves_bind _ P).
  - apply (preserves_for_each _ P). intros vars rev.
    apply add_builds_step_queue.
  - intros [[last_bs|] [bs|]]; try apply (preserves_ret _ P).
    destruct (notify_only_latest (buildset_branch bs));
      [|apply (preserves_ret _ P)].
    apply (preserves_weaken _ same_queue); [apply same_queue_grows|].
    apply cancel_previous_pending_same_queue.
Qed.

(** The step of [add_builds] at a revision without a config. *)
Lemma add_builds_step_no_config : forall vars rev w,
  create_builds rev = true -> has_config rev = false ->
  exists bs w',
    add_builds_step vars rev w = (Ok (fst vars, Some bs), w')
    /\ buildset_status bs = NO_CONFIG
    /\ revision bs = rev
    /\ builds bs = []
    /\ In bs (w_buildsets w')
    /\ w_queue w' = w_queue w
    /\ w_trace w'
       = (w_trace w
          ++ [buildset_notify_task "buildset-added" (buildset_id bs);
              buildset_added_send repository_id bs])%list.
Proof.
  intros [last_bs cur] rev w Hcreate Hconf. unfold add_builds_step.
  rewrite Hcreate, Hconf. cbn [negb].
  unfold BuildSet_create. unfold bind at 1. unfold bind at 1.
  destruct (_get_next_number_reads repository_id w) as [n ->].
  unfold bind, fresh_id, get_world, put_world, save, emit, ret.
  cbv beta iota zeta.
  cbn [w_buildsets with_clock with_next_id w_clock with_buildsets w_trace
       with_trace w_next_id w_queue fst].
  eexists. eexists. split; [reflexivity|].
  cbn [buildset_status set_buildset_status revision builds buildset_id].
  split; [reflexivity|]. split; [reflexivity|]. split; [reflexivity|].
  split; [apply save_in_In|]. split; [reflexivity|].
  cbn. rewrite <- app_assoc. reflexivity.
Qed.
End AddBuildsFacts.

(** C6.  At a revision that asks for builds and has no config, the loop of
    [add_builds] creates a buildset, gives it the status [no config],
    saves it (it is in the store, without builds), sends [buildset_added]
    for it and goes on: the queue is as it was, and nothing else was sent
    or launched than the notification of the creation and the signal.
    Over a whole call of [add_builds], whatever the revisions and whether
    it returns or raises, the queue only grows, and only by buildsets of
    revisions that have a config. *)
Theorem no_config_not_queued :
  forall (E : Env),
    (forall vars rev w,
       create_builds rev = true -> has_config rev = false ->
       exists bs w',
         add_builds_step vars rev w = (Ok (fst vars, Some bs), w')
         /\ buildset_status bs = NO_CONFIG
         /\ revision bs = rev
         /\ builds bs = []
         /\ In bs (w_buildsets w')
         /\ w_queue w' = w_queue w
         /\ w_trace w'
            = (w_trace w
               ++ [buildset_notify_task "buildset-added" (buildset_id bs);
                   buildset_added_send repository_id bs])%list)
    /\ (forall revisions w,
          exists added,
            w_queue (snd (add_builds revisions w))
            = (w_queue w ++ added)%list
            /\ Forall (fun bs => has_config (revision bs) = true) added).
Proof.
  intros E. split.
  - apply add_builds_step_no_config.
  - intros revisions w. exact (add_builds_queue revisions w).
Qed.

Lemma no_config_not_queued_witness :
  exists bs w',
    @add_builds_step (example_env false (Ok tt)) (None, None)
                     revision_without_config (world_of [])
    = (Ok (None, Some bs), w')
    /\ buildset_status bs = "no config"
    /\ w_queue w' = [].
Proof.
  destruct (proj1 (no_config_not_queued (example_env false (Ok tt)))
                  (None, None) revision_without_config (world_of [])
                  eq_refl eq_refl)
    as (bs & w' & Hrun & Hst & _ & _ & _ & Hq & _).
  exists bs, w'. auto.
Defined.

Example add_builds_mixed_revisions :
  map (fun bs => revision_id (revision bs))
      (w_queue (snd (@add_builds (example_env false (Ok tt))
                       [revision_without_config;
                        revision_of 7 "master" true;
                        revision_without_config]
                       (world_of []))))
  = [7].
Proof. reflexivity. Qed.

(** ** [BuildClient.build] *)

Section ClientFacts.
Variable Body : Type.

Lemma build_resume_end : forall (conn : Connection Body) n last,
  conn n = Ok last -> end_of_stream last -> build_resume conn n = Ok None.
Proof.
  intros conn n last Hc Hend. unfold build_resume. rewrite Hc.
  destruct (falsy last) eqn:Hf; [reflexivity|].
  destruct Hend as [H|H]; [congruence|]. rewrite H. reflexivity.
Qed.

Lemma iterate_bodies : forall (conn : Connection Body) bodies k last fuel,
  (forall i, i < List.length bodies ->
     exists r, conn (k + i) = Ok r /\ falsy r = false
               /\ response_get r "body" = nth_error bodies i) ->
  conn (k + List.length bodies) = Ok last -> end_of_stream last ->
  List.length bodies < fuel ->
  iterate fuel conn k = (bodies, Exhausted).
Proof.
  intros conn. induction bodies as [|b bodies IH];
    intros k last fuel Hframes Hlast Hend Hfuel.
  - destruct fuel as [|fuel]; [inversion Hfuel|]. cbn [iterate].
    cbn [List.length] in Hlast. rewrite Nat.add_0_r in Hlast.
    rewrite (build_resume_end conn k last Hlast Hend). reflexivity.
  - destruct fuel as [|fuel]; [inversion Hfuel|]. cbn [iterate].
    destruct (Hframes 0) as (r & Hr & Hf & Hb); [cbn; lia|].
    rewrite Nat.add_0_r in Hr. cbn [nth_error] in Hb.
    unfold build_resume. rewrite Hr, Hf, Hb.
    rewrite (IH (S k) last fuel).
    + reflexivity.
    + intros i Hi. destruct (Hframes (S i)) as (r' & Hr' & Hf' & Hb');
        [cbn; lia|].
      exists r'. rewrite Nat.add_succ_comm. auto.
    + cbn [List.length] in Hlast. rewrite Nat.add_succ_comm. exact Hlast.
    + exact Hend.
    + cbn [List.length] in Hfuel. lia.
Qed.
End ClientFacts.

(** C9.  When the responses to a build request are frames that each carry
    a body, followed by a frame that is empty or has no body, iterating
    over [build] yields the bodies of the frames before that one, in
    order, and then ends; what the connection would return after that
    frame is not read. *)
Theorem build_yields_bodies :
  forall (Body : Type) (conn : Connection Body) (bodies : list Body)
         (last : Response Body) (fuel : nat),
    (forall i, i < List.length bodies ->
       exists r, conn i = Ok r /\ falsy r = false
                 /\ response_get r "body" = nth_error bodies i) ->
    conn (List.length bodies) = Ok last -> end_of_stream last ->
    List.length bodies < fuel ->
    build (Ok tt) fuel conn = (bodies, Exhausted).
Proof.
  intros Body conn bodies last fuel Hframes Hlast Hend Hfuel.
  unfold build. apply (iterate_bodies Body conn bodies 0 last fuel); auto.
Qed.

Lemma build_yields_bodies_witness :
  build (Ok tt) 5 two_frames = (["build_info"; "step_info"], Exhausted).
Proof.
  apply (build_yields_bodies string two_frames ["build_info"; "step_info"]
           (Frame [("code", Some "0"); ("body", None)]) 5).
  - intros i Hi. cbn in Hi.
    destruct i as [|[|i]]; [| |lia]; eexists; cbn; auto.
  - reflexivity.
  - right. reflexivity.
  - cbn. lia.
Defined.

(** ** [BuildExecuter] *)

(** A build is launched exactly when [is_ready2run] returned true and the
    limit allows it: no limit when [parallel_builds] is unset or 0, and
    otherwise [_running] strictly below it. *)
Lemma admission_launch : forall ready running parallel,
  admission ready running parallel = Launch
  <-> ready = Some true
      /\ (parallel = None \/ parallel = Some 0%Z
          \/ exists p, parallel = Some p /\ (running < p)%Z).
Proof.
  intros [[|]|] running parallel; cbn; split; try discriminate;
    try (intros [H _]; discriminate).
  - intros H. split; [reflexivity|].
    destruct parallel as [p|]; [|auto]. cbn in H.
    destruct (Z.eqb p 0) eqn:Hp.
    + apply Z.eqb_eq in Hp. subst. auto.
    + destruct (Z.ltb running p) eqn:Hlt; [|discriminate].
      apply Z.ltb_lt in Hlt. right. right. exists p. auto.
  - intros [_ H]. destruct H as [->|[->|(p & -> & Hlt)]]; cbn; try reflexivity.
    destruct (Z.eqb p 0); [reflexivity|].
    apply Z.ltb_lt in Hlt. rewrite Hlt. reflexivity.
Qed.

(** [is_ready2run] returning [None] cancels the build, whatever the
    limit. *)
Lemma admission_cancel : forall ready running parallel,
  admission ready running parallel = CancelBuild <-> ready = None.
Proof.
  intros [[|]|] running parallel; cbn; split; try discriminate; auto.
  destruct (limit_ok running parallel); discriminate.
Qed.






Section ExecuterFacts.
Context {E : Env}.
Variable parallel : option Z.
Variable self_builds : list Build.




End ExecuterFacts.

(** C5.  With [parallel_builds = 1] and three pending builds without
    rules, the schedule [two_passes_schedule] leads the executer to two
    [_run_build] tasks that have begun and are not over, the builds 3 and
    2, with [_running = 2]: each was launched by a pass of
    [_execute_builds] that read [_running = 0], before the task launched
    by the other had begun. *)
Theorem parallel_limit_exceeded :
  option_map
    (fun l => (_running l, map build_uuid (begun l),
               map build_uuid (launched l)))
    (@acts (example_env false (Ok tt)) (Some 1%Z) three_builds
           two_passes_schedule
           (execute three_builds
                    (world_of [buildset_of 1 three_builds "pending"])))
  = Some (2%Z, [3; 2], []).
Proof. vm_compute. reflexivity. Qed.

(** In the same schedule, before the last two steps: both tasks are
    launched and [_running] is still 0. *)
Example both_launched_before_either_begins :
  option_map
    (fun l => (_running l, map build_uuid (begun l),
               map build_uuid (launched l)))
    (@acts (example_env false (Ok tt)) (Some 1%Z) three_builds
           (firstn 17 two_passes_schedule)
           (execute three_builds
                    (world_of [buildset_of 1 three_builds "pending"])))
  = Some (0%Z, [], [3; 2]).
Proof. vm_compute. reflexivity. Qed.

(** * Further properties *)

(** ** The status of a buildset and of a builder *)

Lemma index_bound : forall x l n, index x l = Ok n -> n < List.length l.
Proof.
  intros x l n H. apply index_nth_error in H.
  apply nth_error_Some. congruence.
Qed.

Lemma get_status_of_builds : forall set_of bs,
  set_iteration set_of -> builds bs <> [] ->
  Forall valid_build (builds bs) ->
  exists s, get_status set_of bs = Ok s
            /\ highest_priority s (map status (builds bs)).
Proof.
  intros set_of bs Hset Hne Hvalid. unfold get_status.
  destruct (builds bs) as [|b l] eqn:Hb; [congruence|].
  destruct (Hset (map status (b :: l))) as [_ Hel].
  set (L := set_of (map status (b :: l))) in *.
  destruct (sorted_statuses_ok L) as [s Hs].
  { intros x Hx. apply Hel in Hx. apply in_map_iff in Hx.
    destruct Hx as (b' & <- & Hb').
    rewrite Forall_forall in Hvalid.
    apply Build_STATUSES_ordered. apply Hvalid. exact Hb'. }
  rewrite Hs.
  destruct L as [|x L'] eqn:HL.
  { exfalso. apply (proj2 (Hel (status b))). left. reflexivity. }
  destruct s as [|h s']; [exfalso; exact (sorted_nonempty _ _ _ _ _ _ _ Hs eq_refl)|].
  exists h. split; [reflexivity|].
  destruct (sorted_statuses_head _ _ _ Hs) as [Hin Hmin].
  split.
  - apply Hel. exact Hin.
  - intros t Ht. apply Hmin. apply Hel. exact Ht.
Qed.

(** X1.  A buildset with builds, all of a status that [Build.status]
    admits, has the status running exactly when one of its builds is
    running, and the status pending exactly when all its builds are
    pending. *)
Theorem get_status_running_pending :
  forall set_of, set_iteration set_of ->
  forall bs : BuildSet,
    builds bs <> [] -> Forall valid_build (builds bs) ->
    (get_status set_of bs = Ok RUNNING
     <-> exists b, In b (builds bs) /\ status b = RUNNING)
    /\ (get_status set_of bs = Ok PENDING
        <-> forall b, In b (builds bs) -> status b = PENDING).
Proof.
  intros set_of Hset bs Hne Hvalid.
  destruct (get_status_of_builds set_of bs Hset Hne Hvalid)
    as (s & Hs & Hin & Hmin).
  rewrite Hs. split; split.
  - intros H. injection H as ->. apply in_map_iff in Hin.
    destruct Hin as (b & Hb & Hin). exists b. auto.
  - intros (b & Hb & Hst).
    assert (Ht : In RUNNING (map status (builds bs))).
    { rewrite <- Hst. apply in_map. exact Hb. }
    destruct (Hmin RUNNING Ht) as (p & q & Hp & Hq & Hpq).
    assert (q = 0) by (vm_compute in Hq; congruence). subst q.
    assert (p = 0) by lia. subst p.
    f_equal. apply (index_inj _ _ _ _ Hp Hq).
  - intros H. injection H as ->. intros b Hb.
    assert (Ht : In (status b) (map status (builds bs)))
      by (apply in_map; exact Hb).
    destruct (Hmin _ Ht) as (p & q & Hp & Hq & Hpq).
    assert (p = 7) by (vm_compute in Hp; congruence). subst p.
    pose proof (index_bound _ _ _ Hq) as Hb8. cbn in Hb8.
    assert (q = 7) by lia. subst q.
    apply (index_inj _ _ _ _ Hq Hp).
  - intros Hall. apply in_map_iff in Hin. destruct Hin as (b & Hb & Hin).
    rewrite <- Hb. f_equal. apply Hall. exact Hin.
Qed.

Lemma get_status_running_pending_witness :
  get_status py_set (buildset_of 1 three_builds "running") = Ok PENDING.
Proof.
  assert (Hne : builds (buildset_of 1 three_builds "running") <> [])
    by (simpl; discriminate).
  assert (Hvalid : Forall valid_build
                     (builds (buildset_of 1 three_builds "running"))).
  { repeat constructor; vm_compute; tauto. }
  apply (proj2 (get_status_running_pending py_set py_set_iteration
                  (buildset_of 1 three_builds "running") Hne Hvalid)).
  intros b [<-|[<-|[<-|[]]]]; reflexivity.
Defined.

(** The first of a store sorted by decreasing key is an element with the
    greatest key. *)
Lemma order_by_desc_head : forall key l,
  match order_by_desc key l with
  | [] => l = []
  | h :: _ => In h l /\ forall x, In x l -> (key x <= key h)%Z
  end.
Proof.
  intros key l. unfold order_by_desc.
  pose proof (sort_by_head_first _ _ (fun a b : Z => Z.leb b a) Z_geb_order
                (map (fun bs => (key bs, bs)) l)) as Hhead.
  destruct (sort_by _ (map (fun bs => (key bs, bs)) l))
    as [|[k0 h] rest] eqn:Hsort; cbn [map snd].
  - destruct l as [|x l]; [reflexivity|]. exfalso.
    assert (Hin : In (key x, x)
                     (sort_by (fun a b : Z => Z.leb b a)
                        (map (fun bs => (key bs, bs)) (x :: l)))).
    { apply sort_by_In. left. reflexivity. }
    rewrite Hsort in Hin. destruct Hin.
  - assert (Hin0 : In (k0, h) (map (fun bs => (key bs, bs)) l)).
    { apply (sort_by_In _ _ (fun a b : Z => Z.leb b a)). rewrite Hsort.
      left. reflexivity. }
    apply in_map_iff in Hin0. destruct Hin0 as (bs & Heq & Hbs).
    injection Heq as <- <-. split; [exact Hbs|].
    intros x Hx.
    assert (Hin' : In (key x, x)
                      (sort_by (fun a b : Z => Z.leb b a)
                         (map (fun bs => (key bs, bs)) l))).
    { apply sort_by_In. apply in_map_iff. exists x. auto. }
    rewrite Hsort in Hin'. specialize (Hhead _ Hin'). cbn [fst] in Hhead.
    apply Z.leb_le in Hhead. exact Hhead.
Qed.

(** [Builder.get_status] reads the store and computes. *)
Lemma Builder_get_status_eval : forall self w,
  Builder_get_status self w
  = (match order_by_desc (fun bs => Z.of_nat (created bs))
             (filter (fun bs => existsb (same_builder self) (builds bs))
                     (w_buildsets w)) with
     | [] => Ok "idle"
     | last :: _ =>
         match sorted Nat.leb (fun i => index i ORDERED_STATUSES)
                      (map status (builds_of_builder self last)) with
         | Ok [] => Raise IndexError
         | Ok (s :: _) => Ok s
         | Raise e => Raise e
         end
     end, w).
Proof.
  intros self w. unfold Builder_get_status, bind, get_world, lift,
    builds_of_builder.
  destruct (order_by_desc _ _) as [|last rest]; [reflexivity|].
  destruct (sorted _ _ _) as [[|s l]|e]; reflexivity.
Qed.

(** X2.  [Builder.get_status] leaves the world as it is.  It returns ["idle"]
    when no buildset has a build of the builder.  Otherwise, with builds of
    statuses that [Build.status] admits, it returns the status of highest
    priority among the builds of the builder in a buildset that has one and
    that no other such buildset was created after. *)
Theorem Builder_get_status_latest :
  forall (self : Builder) (w : World),
    ((forall bs, In bs (w_buildsets w) -> builds_of_builder self bs = []) ->
     Builder_get_status self w = (Ok "idle", w))
    /\ ((exists bs, In bs (w_buildsets w) /\ builds_of_builder self bs <> []) ->
        (forall bs, In bs (w_buildsets w) -> Forall valid_build (builds bs)) ->
        exists last s,
          Builder_get_status self w = (Ok s, w)
          /\ In last (w_buildsets w)
          /\ builds_of_builder self last <> []
          /\ (forall bs, In bs (w_buildsets w) ->
                builds_of_builder self bs <> [] ->
                created bs <= created last)
          /\ highest_priority s (map status (builds_of_builder self last))).
Proof.
  intros self w.
  assert (Hqs : forall bs,
            In bs (filter (fun bs => existsb (same_builder self) (builds bs))
                          (w_buildsets w))
            <-> In bs (w_buildsets w) /\ builds_of_builder self bs <> []).
  { intros bs. rewrite filter_In. unfold builds_of_builder.
    split; intros [H1 H2]; split; auto.
    - apply existsb_exists in H2. destruct H2 as (b & Hb & Hs).
      intros Hnil.
      assert (Hin : In b (filter (same_builder self) (builds bs)))
        by (apply filter_In; auto).
      rewrite Hnil in Hin. destruct Hin.
    - destruct (filter (same_builder self) (builds bs)) as [|b l] eqn:Hf;
        [congruence|].
      assert (Hin : In b (filter (same_builder self) (builds bs)))
        by (rewrite Hf; left; reflexivity).
      apply filter_In in Hin. apply existsb_exists. exists b. exact Hin. }
  rewrite Builder_get_status_eval.
  pose proof (order_by_desc_head (fun bs => Z.of_nat (created bs))
                (filter (fun bs => existsb (same_builder self) (builds bs))
                        (w_buildsets w))) as Hhead.
  destruct (order_by_desc _ _) as [|last rest].
  - split; [reflexivity|].
    intros (bs & Hbs & Hne) _. exfalso.
    assert (Hin : In bs (filter (fun bs => existsb (same_builder self)
                                                   (builds bs))
                                (w_buildsets w))) by (apply Hqs; auto).
    rewrite Hhead in Hin. destruct Hin.
  - destruct Hhead as [Hlast Hmax]. apply Hqs in Hlast.
    destruct Hlast as [Hlast Hne]. split.
    + intros Hnone. exfalso. apply Hne. apply Hnone. exact Hlast.
    + intros _ Hvalid.
      destruct (sorted_statuses_ok (map status (builds_of_builder self last)))
        as [s Hs].
      { intros x Hx. apply in_map_iff in Hx. destruct Hx as (b & <- & Hb).
        apply Build_STATUSES_ordered. unfold builds_of_builder in Hb.
        apply filter_In in Hb. destruct Hb as [Hb _].
        specialize (Hvalid last Hlast). rewrite Forall_forall in Hvalid.
        apply Hvalid. exact Hb. }
      rewrite Hs.
      destruct s as [|h s'].
      { exfalso. destruct (builds_of_builder self last) as [|b0 l0];
          [congruence|].
        exact (sorted_nonempty _ _ _ _ _ _ _ Hs eq_refl). }
      exists last, h. split; [reflexivity|]. split; [exact Hlast|].
      split; [exact Hne|]. split.
      * intros bs Hbs Hbne.
        assert (Hin : In bs (filter (fun bs => existsb (same_builder self)
                                                       (builds bs))
                                    (w_buildsets w))) by (apply Hqs; auto).
        specialize (Hmax bs Hin). cbv beta in Hmax. lia.
      * exact (sorted_statuses_head _ _ _ Hs).
Qed.

Lemma Builder_get_status_latest_witness :
  exists s,
    Builder_get_status builder_seven (world_of store_of_builder_seven)
    = (Ok s, world_of store_of_builder_seven)
    /\ s = "running".
Proof.
  destruct (proj2 (Builder_get_status_latest builder_seven
                     (world_of store_of_builder_seven)))
    as (last & s & Hrun & _).
  - eexists. split; [left; reflexivity|]. cbn. discriminate.
  - intros bs [<-|[<-|[]]]; repeat constructor; vm_compute; tauto.
  - exists s. split; [exact Hrun|].
    vm_compute in Hrun. injection Hrun as <-. reflexivity.
Defined.

(** ** The store: [Build.update], [Builder.get_or_create],
       [BuildSet.create] *)

Lemma set_builds_S_uuids : forall self l,
  map build_uuid (set_builds_S self l) = map build_uuid l.
Proof.
  intros self l. induction l as [|b l IH]; [reflexivity|]. simpl.
  unfold has_uuid. destruct (Nat.eqb (build_uuid b) (build_uuid self)) eqn:Hb.
  - apply Nat.eqb_eq in Hb. simpl. congruence.
  - simpl. rewrite IH. reflexivity.
Qed.

Lemma updated_store_uuids : forall self l,
  map (fun bs => map build_uuid (builds bs)) (updated_store self l)
  = map (fun bs => map build_uuid (builds bs)) l.
Proof.
  intros self l. unfold updated_store. rewrite map_map.
  apply map_ext. intros bs.
  destruct (owns_uuid (build_uuid self) bs); [|reflexivity].
  simpl. apply set_builds_S_uuids.
Qed.

Lemma updated_store_not_owned : forall self l,
  existsb (owns_uuid (build_uuid self)) l = false ->
  updated_store self l = l.
Proof.
  intros self l. induction l as [|bs l IH]; [reflexivity|]. simpl.
  intros H. apply orb_false_iff in H. destruct H as [H1 H2].
  rewrite H1. rewrite IH by exact H2. reflexivity.
Qed.

Lemma filter_none : forall (A : Type) (p : A -> bool) l,
  existsb p l = false -> filter p l = [].
Proof.
  intros A p l. induction l as [|x l IH]; [reflexivity|]. simpl.
  intros H. apply orb_false_iff in H. destruct H as [-> H2]. auto.
Qed.

Lemma with_buildsets_same : forall w, with_buildsets w (w_buildsets w) = w.
Proof. intros []. reflexivity. Qed.

(** X3.  [Build.update] either writes the build, and then [Build.get] with
    its uuid reads it back as it was written, the uuids of all builds
    staying where they were; or no buildset owns the uuid, and then it
    raises [DBError], the world is as before and [Build.get] raises
    [DoesNotExist]. *)
Theorem update_get_round_trip : forall (self : Build) (w : World),
  match update self w with
  | (Ok n, w') =>
      0 < n
      /\ Build_get (build_uuid self) w' = (Ok self, w')
      /\ map (fun bs => map build_uuid (builds bs)) (w_buildsets w')
         = map (fun bs => map build_uuid (builds bs)) (w_buildsets w)
  | (Raise e, w') =>
      e = DBError /\ w' = w
      /\ Build_get (build_uuid self) w = (Raise DoesNotExist, w)
  end.
Proof.
  intros self w. rewrite update_eval.
  destruct (existsb (owns_uuid (build_uuid self)) (w_buildsets w)) eqn:Hown.
  - split; [|split].
    + apply existsb_exists in Hown. destruct Hown as (bs & Hbs & Ho).
      assert (Hin : In bs (filter (owns_uuid (build_uuid self))
                                  (w_buildsets w)))
        by (apply filter_In; auto).
      destruct (filter _ (w_buildsets w)); [destruct Hin|simpl; lia].
    + destruct (Build_get_updated self (w_buildsets w) Hown)
        as (bs & l' & Hf & bl & Hb).
      unfold Build_get, bind, get_world. cbn [w_buildsets with_buildsets].
      rewrite Hf, Hb. reflexivity.
    + cbn [w_buildsets with_buildsets]. apply updated_store_uuids.
  - rewrite (updated_store_not_owned _ _ Hown), with_buildsets_same.
    split; [reflexivity|]. split; [reflexivity|].
    unfold Build_get, bind, get_world.
    rewrite (filter_none _ _ _ Hown). reflexivity.
Qed.

Lemma filter_map_same : forall (A : Type) (p : A -> bool) (f : A -> A) l,
  (forall x, In x l -> p (f x) = p x) ->
  filter p (map f l) = map f (filter p l).
Proof.
  intros A p f l. induction l as [|x l IH]; intros H; [reflexivity|].
  simpl. rewrite (H x (or_introl eq_refl)).
  rewrite IH by (intros y Hy; apply H; right; exact Hy).
  destruct (p x); reflexivity.
Qed.

(** X4.  In a collection of builders with distinct ids, a call of
    [Builder.get_or_create] that returns leaves the builder it returns in
    the collection, with the name, the repository and the position asked
    for, and the same call again returns the same builder and changes
    nothing. *)
Theorem Builder_get_or_create_idempotent :
  forall (nm : string) (repo : object_id) (pos : Z) (w w' : World)
         (b : Builder),
    distinct_builder_ids w ->
    Builder_get_or_create nm repo pos w = (Ok b, w') ->
    Builder_get_or_create nm repo pos w' = (Ok b, w')
    /\ In b (w_builders w')
    /\ name b = nm /\ builder_repository b = repo /\ position b = pos.
Proof.
  intros nm repo pos w w' b Hids Hrun.
  pose proof (Builder_get_or_create_fields _ _ _ _ _ _ Hrun)
    as (Hnm & Hrepo & Hpos).
  assert (Hp : String.eqb (name b) nm && Nat.eqb (builder_repository b) repo
               = true).
  { rewrite Hnm, Hrepo, String.eqb_refl, Nat.eqb_refl. reflexivity. }
  cut (filter (fun b => String.eqb (name b) nm
                        && Nat.eqb (builder_repository b) repo)
              (w_builders w') = [b]).
  { intros Hf. split; [|split; [|auto]].
    - unfold Builder_get_or_create, bind, get_world. rewrite Hf.
      rewrite Hpos, Z.eqb_refl. reflexivity.
    - assert (Hin : In b (filter (fun b => String.eqb (name b) nm
                                    && Nat.eqb (builder_repository b) repo)
                                 (w_builders w')))
        by (rewrite Hf; left; reflexivity).
      apply filter_In in Hin. exact (proj1 Hin). }
  unfold Builder_get_or_create, bind, get_world in Hrun.
  destruct (filter _ (w_builders w)) as [|b0 [|b1 rest]] eqn:Hf.
  - unfold fresh_id, put_world, ret in Hrun. cbn in Hrun.
    injection Hrun as <- <-. cbn [w_builders with_builders with_next_id].
    rewrite filter_app, Hf. cbn [filter app]. rewrite Hp. reflexivity.
  - assert (Hb0 : In b0 (filter (fun b => String.eqb (name b) nm
                                   && Nat.eqb (builder_repository b) repo)
                                (w_builders w)))
      by (rewrite Hf; left; reflexivity).
    apply filter_In in Hb0. destruct Hb0 as [Hb0 Hp0].
    destruct (negb (Z.eqb (position b0) pos)) eqn:Hneq.
    + unfold put_world, ret in Hrun. cbn in Hrun. injection Hrun as <- <-.
      cbn [w_builders with_builders].
      rewrite filter_map_same.
      * rewrite Hf. cbn [map builder_id set_position].
        rewrite Nat.eqb_refl. reflexivity.
      * intros x Hx. cbn [builder_id set_position].
        destruct (Nat.eqb (builder_id x) (builder_id b0)) eqn:Hid;
          [|reflexivity].
        apply Nat.eqb_eq in Hid.
        rewrite (NoDup_map_same _ _ builder_id (w_builders w) x b0
                   Hids Hx Hb0 Hid).
        cbn [name builder_repository set_position]. rewrite Hp0.
        reflexivity.
    + unfold ret in Hrun. injection Hrun as <- <-. exact Hf.
  - unfold raise in Hrun. discriminate.
Qed.

Lemma Builder_get_or_create_idempotent_witness :
  let w := mkWorld [] [mkBuilder 1 "a" 1 0%Z []; mkBuilder 2 "b" 1 1%Z []]
                   [] [] false [] 100 10 in
  exists b w',
    Builder_get_or_create "b" 1 0%Z w = (Ok b, w')
    /\ w_builders w' = [mkBuilder 1 "a" 1 0%Z []; mkBuilder 2 "b" 1 0%Z []]
    /\ Builder_get_or_create "b" 1 0%Z w' = (Ok b, w').
Proof.
  intros w.
  destruct (Builder_get_or_create "b" 1 0%Z w) as [r w'] eqn:Hrun.
  assert (Hr : r = Ok (mkBuilder 2 "b" 1 0%Z []))
    by (vm_compute in Hrun; congruence).
  subst r. exists (mkBuilder 2 "b" 1 0%Z []), w'.
  split; [reflexivity|]. split.
  - vm_compute in Hrun. injection Hrun as <-. reflexivity.
  - apply (Builder_get_or_create_idempotent "b" 1 0%Z w w'
             (mkBuilder 2 "b" 1 0%Z [])).
    + unfold distinct_builder_ids. simpl.
      repeat constructor; simpl; intuition discriminate.
    + exact Hrun.
Defined.

Lemma _get_next_number_above : forall repo w,
  exists n,
    _get_next_number repo w = (Ok n, w)
    /\ forall x, In x (w_buildsets w) -> repository x = repo ->
                 (buildset_number x < n)%Z.
Proof.
  intros repo w. unfold _get_next_number, bind, get_world.
  pose proof (order_by_desc_head buildset_number
                (filter (fun bs => Nat.eqb (repository bs) repo)
                        (w_buildsets w))) as Hhead.
  destruct (order_by_desc _ _) as [|h rest].
  - exists 1%Z. split; [reflexivity|]. intros x Hx Hr. exfalso.
    assert (Hin : In x (filter (fun bs => Nat.eqb (repository bs) repo)
                               (w_buildsets w))).
    { apply filter_In. split; [exact Hx|]. apply Nat.eqb_eq. exact Hr. }
    rewrite Hhead in Hin. destruct Hin.
  - exists (buildset_number h + 1)%Z. split; [reflexivity|].
    intros x Hx Hr. destruct Hhead as [_ Hmax].
    assert (Hin : In x (filter (fun bs => Nat.eqb (repository bs) repo)
                               (w_buildsets w))).
    { apply filter_In. split; [exact Hx|]. apply Nat.eqb_eq. exact Hr. }
    specialize (Hmax x Hin). lia.
Qed.

(** X5.  [BuildSet.create] always returns: a pending buildset of the
    repository and the revision, on the branch of the revision, without
    builds, that is in the store afterwards and whose number is greater
    than the number of every buildset of the repository that was in the
    store before. *)
Theorem BuildSet_create_number_above :
  forall (repo : object_id) (rev : Revision) (w : World),
  exists bs w',
    BuildSet_create repo rev w = (Ok bs, w')
    /\ In bs (w_buildsets w')
    /\ (forall x, In x (w_buildsets w) -> repository x = repo ->
                  (buildset_number x < buildset_number bs)%Z)
    /\ repository bs = repo /\ revision bs = rev
    /\ buildset_branch bs = branch rev
    /\ builds bs = [] /\ buildset_status bs = PENDING.
Proof.
  intros repo rev w.
  destruct (_get_next_number_above repo w) as (n & Hn & Habove).
  unfold BuildSet_create, bind at 1. rewrite Hn.
  unfold bind, fresh_id, get_world, put_world, save, emit, ret. cbn.
  eexists. eexists. split; [reflexivity|]. cbn.
  split; [apply save_in_In|]. split; [exact Habove|].
  repeat split.
Qed.

(** ** [is_ready2run], [get_builders] and [add_builds] *)



Section ManagerFacts.
Context {E : Env}.

(** What [get_builders] returns comes from the loop over the entries that
    [_filter_builders] keeps, or is no builder. *)
Lemma get_builders_from_conf : forall rev conf include exclude w builders
                                      origin w',
  get_builders rev conf include exclude w = (Ok (builders, origin), w') ->
  (origin = branch rev \/ origin = builders_fallback rev)
  /\ (builders = []
      \/ exists confs w0,
           builders_of_conf (_filter_builders confs include exclude) w0
           = (Ok builders, w')).
Proof.
  intros rev conf include exclude w builders origin w'.
  unfold get_builders, bind at 1, log, emit.
  unfold bind at 1, try_except, bind at 1, _get_builders_conf, lift.
  destruct (list_builders_from_config conf (branch rev) config_type)
    as [[|c l]|e].
  - cbn [ret]. destruct (negb (String.eqb (builders_fallback rev) "")).
    + unfold bind at 1. unfold bind at 1.
      destruct (list_builders_from_config conf (builders_fallback rev)
                  config_type) as [l|e]; [|discriminate].
      cbn [ret]. unfold bind.
      destruct (builders_of_conf _ _) as [[bl|e] w1] eqn:Hl; [|discriminate].
      cbn [ret]. intros H. injection H as <- <- <-.
      split; [right; reflexivity|]. right. eauto.
    + unfold bind at 1. cbn [ret]. unfold bind.
      destruct (builders_of_conf _ _) as [[bl|e] w1] eqn:Hl; [|discriminate].
      cbn [ret]. intros H. injection H as <- <- <-.
      split; [left; reflexivity|]. right. eauto.
  - cbn [ret]. unfold bind at 1. cbn [ret]. unfold bind.
    destruct (builders_of_conf _ _) as [[bl|e'] w1] eqn:Hl; [|discriminate].
    cbn [ret]. intros H. injection H as <- <- <-.
    split; [left; reflexivity|]. right. eauto.
  - destruct e; try discriminate.
    unfold bind, emit, ret. intros H. injection H as <- <- <-.
    split; [left; reflexivity|]. left. reflexivity.
Qed.

Lemma for_each_create_builds_only : forall revisions acc w,
  for_each revisions add_builds_step acc w
  = for_each (filter create_builds revisions) add_builds_step acc w.
Proof.
  induction revisions as [|r l IH]; intros acc w; [reflexivity|].
  cbn [filter for_each]. destruct (create_builds r) eqn:Hc.
  - cbn [for_each]. unfold bind.
    destruct (add_builds_step acc r w) as [[acc'|e] w1]; [apply IH|].
    reflexivity.
  - rewrite <- IH. unfold bind, add_builds_step. destruct acc as [last cur].
    rewrite Hc. reflexivity.
Qed.

End ManagerFacts.

(** X7.  Of the builders that [get_builders] returns: with a list
    [include] that is not empty, every one is named in it, whatever
    [exclude] is; with no [include], none is named in [exclude]; their
    positions are 0, 1, 2, ... in the order of the result, which counts
    the entries that were kept and not those of the config; the origin is
    the branch of the revision or its fallback. *)
Theorem get_builders_filtered :
  forall (E : Env) (rev : Revision) (conf : Config) (include exclude : list string)
         (w w' : World) (builders : list Builder) (origin : string),
    get_builders rev conf include exclude w = (Ok (builders, origin), w') ->
    (include <> [] -> Forall (fun b => In (name b) include) builders)
    /\ (include = [] -> Forall (fun b => ~ In (name b) exclude) builders)
    /\ map position builders
       = map Z.of_nat (seq 0 (List.length builders))
    /\ (origin = branch rev \/ origin = builders_fallback rev).
Proof.
  intros E rev conf include exclude w w' builders origin Hrun.
  destruct (get_builders_from_conf _ _ _ _ _ _ _ _ Hrun)
    as [Horigin [->|(confs & w0 & Hloop)]].
  { repeat split; auto. }
  destruct (builders_of_conf_fields _ _ _ _ Hloop) as (Hnames & _ & Hpos).
  assert (Hlen : List.length builders
                 = List.length (_filter_builders confs include exclude)).
  { rewrite <- (length_map name builders), Hnames. apply length_map. }
  split; [|split; [|split]].
  - intros Hne. apply Forall_forall. intros b Hb.
    assert (Hin : In (name b) (map name builders)) by (apply in_map; exact Hb).
    rewrite Hnames in Hin. apply in_map_iff in Hin.
    destruct Hin as (c & Hc & Hin). rewrite <- Hc.
    unfold _filter_builders in Hin.
    destruct include as [|i include]; [congruence|].
    apply filter_In in Hin. apply str_in_In. exact (proj2 Hin).
  - intros ->. apply Forall_forall. intros b Hb.
    assert (Hin : In (name b) (map name builders)) by (apply in_map; exact Hb).
    rewrite Hnames in Hin. apply in_map_iff in Hin.
    destruct Hin as (c & Hc & Hin). rewrite <- Hc.
    unfold _filter_builders in Hin.
    destruct exclude as [|x exclude]; [intros []|].
    apply filter_In in Hin. apply str_in_not_In.
    apply negb_true_iff. exact (proj2 Hin).
  - rewrite Hlen. exact Hpos.
  - exact Horigin.
Qed.

(** X8.  [add_builds] passes over the revisions that do not create builds:
    it does what it does with the other revisions alone. *)
Theorem add_builds_create_builds_only :
  forall (E : Env) (revisions : list Revision) (w : World),
    add_builds revisions w = add_builds (filter create_builds revisions) w.
Proof.
  intros E revisions w. unfold add_builds, bind.
  rewrite for_each_create_builds_only. reflexivity.
Qed.

Lemma get_builders_filtered_witness :
  exists builders w',
    @get_builders (example_env false (Ok tt)) revision_with_fallback
                  conf_master_only ["b"] ["b"] (world_of [])
    = (Ok (builders, "master"), w')
    /\ map name builders = ["b"]
    /\ map position builders = [0%Z].
Proof.
  destruct (@get_builders (example_env false (Ok tt)) revision_with_fallback
                          conf_master_only ["b"] ["b"] (world_of []))
    as [r w'] eqn:Hrun.
  assert (Hr : exists builders,
             r = Ok (builders, "master") /\ map name builders = ["b"]).
  { vm_compute in Hrun. injection Hrun as <- _.
    eexists. split; reflexivity. }
  destruct Hr as (builders & -> & Hnames).
  exists builders, w'. split; [reflexivity|]. split; [exact Hnames|].
  destruct (@get_builders_filtered (example_env false (Ok tt)) _ _ _ _ _ _ _ _
              Hrun) as (_ & _ & Hpos & _).
  rewrite Hpos. rewrite <- (length_map name builders), Hnames. reflexivity.
Defined.

(** ** Cancelling: [Build.cancel], [BuildManager.cancel_build],
       [cancel_previous_pending]; and [start_pending] *)

Lemma Forall2_same : forall (A : Type) (R : A -> A -> Prop) l,
  (forall x, R x x) -> Forall2 R l l.
Proof. intros A R l H. induction l; constructor; auto. Qed.

Lemma Forall2_chain : forall (A : Type) (R : A -> A -> Prop),
  (forall a b c, R a b -> R b c -> R a c) ->
  forall l1 l2 l3, Forall2 R l1 l2 -> Forall2 R l2 l3 -> Forall2 R l1 l3.
Proof.
  intros A R Htrans l1 l2 l3 H12. revert l3.
  induction H12 as [|a b l1 l2 Hab H12 IH]; intros l3 H23;
    inversion H23; subst; constructor; eauto.
Qed.

Lemma cancelled_or_same_refl : forall b, cancelled_or_same b b.
Proof. intros b. split; auto. Qed.

Lemma cancelled_or_same_trans : forall a b c,
  cancelled_or_same a b -> cancelled_or_same b c -> cancelled_or_same a c.
Proof.
  intros a b c [Hu1 H1] [Hu2 H2]. split; [congruence|].
  destruct H2 as [->|H2]; [exact H1|]. right. exact H2.
Qed.

Lemma only_cancelled_in_refl : forall bs, only_cancelled_in bs bs.
Proof.
  intros bs. split; [destruct bs; reflexivity|].
  apply Forall2_same. apply cancelled_or_same_refl.
Qed.

Lemma only_cancelled_in_trans : forall a b c,
  only_cancelled_in a b -> only_cancelled_in b c -> only_cancelled_in a c.
Proof.
  intros a b c [Hb H1] [Hc H2]. split.
  - rewrite Hc. rewrite Hb. reflexivity.
  - exact (Forall2_chain _ _ cancelled_or_same_trans _ _ _ H1 H2).
Qed.

Lemma only_cancelled_preorder : preorder only_cancelled.
Proof.
  split.
  - intros w. apply Forall2_same. apply only_cancelled_in_refl.
  - intros a b c. apply Forall2_chain. apply only_cancelled_in_trans.
Qed.

Lemma only_cancelled_same_store : forall w w',
  w_buildsets w' = w_buildsets w -> only_cancelled w w'.
Proof.
  intros w w' H. unfold only_cancelled. rewrite H.
  apply Forall2_same. apply only_cancelled_in_refl.
Qed.

Lemma set_builds_S_cancelled : forall self l,
  status self = CANCELLED ->
  Forall2 cancelled_or_same l (set_builds_S self l).
Proof.
  intros self l Hst. induction l as [|b l IH]; [constructor|]. simpl.
  unfold has_uuid. destruct (Nat.eqb (build_uuid b) (build_uuid self)) eqn:Hb.
  - apply Nat.eqb_eq in Hb. constructor.
    + split; [congruence|right; exact Hst].
    + apply Forall2_same. apply cancelled_or_same_refl.
  - constructor; [apply cancelled_or_same_refl|exact IH].
Qed.

Lemma update_only_cancelled : forall self,
  status self = CANCELLED -> preserves only_cancelled (update self).
Proof.
  intros self Hst w. rewrite update_eval. cbn [snd].
  unfold only_cancelled. cbn [w_buildsets with_buildsets].
  unfold updated_store.
  induction (w_buildsets w) as [|bs l IH]; [constructor|].
  cbn [map]. constructor; [|exact IH].
  destruct (owns_uuid (build_uuid self) bs); [|apply only_cancelled_in_refl].
  split; [reflexivity|]. cbn [builds set_builds].
  apply set_builds_S_cancelled. exact Hst.
Qed.

Lemma emit_only_cancelled : forall e, preserves only_cancelled (emit e).
Proof. intros e w. apply only_cancelled_same_store. reflexivity. Qed.

Lemma deref_slave_only_cancelled : forall ref,
  preserves only_cancelled (deref_slave ref).
Proof.
  intros ref w. apply only_cancelled_same_store.
  destruct (deref_slave_cases ref w) as [H|[s H]]; rewrite H; reflexivity.
Qed.

Lemma dequeue_build_only_cancelled : forall s self,
  preserves only_cancelled (dequeue_build s self).
Proof.
  intros s self w. apply only_cancelled_same_store.
  destruct (dequeue_build_eval s self w) as (r & _ & H & _). exact H.
Qed.

Lemma Build_get_only_cancelled : forall u,
  preserves only_cancelled (Build_get u).
Proof.
  intros u w. rewrite Build_get_reads.
  apply (proj1 only_cancelled_preorder).
Qed.

Section CancelFacts.
Context {E : Env}.

Lemma cancel_only_cancelled : forall self,
  preserves only_cancelled (cancel self).
Proof.
  intros self. unfold cancel.
  pose proof only_cancelled_preorder as P.
  destruct (negb (str_in (status self) [PENDING; RUNNING]));
    [apply (preserves_raise _ P)|].
  apply (preserves_bind _ P); [apply deref_slave_only_cancelled|].
  intros s. destruct (String.eqb (status self) RUNNING).
  - apply (preserves_try_except _ P).
    + apply (preserves_bind _ P); [|intros _; apply (preserves_ret _ P)].
      unfold slave_cancel_build. destruct s as [sl|];
        [|apply (preserves_raise _ P)].
      apply (preserves_bind _ P); [apply emit_only_cancelled|].
      intros _. apply (preserves_lift _ P).
    + intros e k He. injection He as <-.
      apply (preserves_bind _ P); [apply emit_only_cancelled|].
      intros _. apply (preserves_ret _ P).
  - apply (preserves_bind _ P).
    + destruct s as [sl|]; [apply dequeue_build_only_cancelled|].
      apply (preserves_ret _ P).
    + intros _. apply (preserves_bind _ P);
        [apply update_only_cancelled; reflexivity|].
      intros _. apply (preserves_bind _ P); [apply emit_only_cancelled|].
      intros _. apply (preserves_ret _ P).
Qed.

Lemma Build_get_found : forall u w b,
  Build_get u w = (Ok b, w) ->
  build_uuid b = u /\ existsb (owns_uuid u) (w_buildsets w) = true.
Proof.
  intros u w b. unfold Build_get, bind, get_world.
  destruct (filter (owns_uuid u) (w_buildsets w)) as [|bs l] eqn:Hf;
    [discriminate|].
  destruct (filter (has_uuid u) (builds bs)) as [|b0 bl] eqn:Hb;
    [discriminate|].
  unfold ret. intros H. injection H as <-.
  assert (Hin : In b0 (filter (has_uuid u) (builds bs)))
    by (rewrite Hb; left; reflexivity).
  apply filter_In in Hin. destruct Hin as [_ Hu].
  apply Nat.eqb_eq in Hu. split; [exact Hu|].
  assert (Hin : In bs (filter (owns_uuid u) (w_buildsets w)))
    by (rewrite Hf; left; reflexivity).
  apply filter_In in Hin. apply existsb_exists. exists bs. exact Hin.
Qed.

Lemma start_pending_step_busy : forall buildsets w,
  w_queue w <> [] \/ w_is_building w = true ->
  for_each buildsets (fun _ buildset => start_pending_step buildset) tt w
  = (Ok tt, w).
Proof.
  induction buildsets as [|bs l IH]; intros w Hbusy; [reflexivity|].
  cbn [for_each]. unfold bind at 1.
  assert (Hstep : start_pending_step bs w = (Ok tt, w)).
  { unfold start_pending_step, bind at 1, get_world.
    destruct (w_queue w) as [|q l']; [|reflexivity].
    destruct Hbusy as [Hq|Hb]; [congruence|]. rewrite Hb. reflexivity. }
  rewrite Hstep. apply IH. exact Hbusy.
Qed.

End CancelFacts.

(** X9.  Whatever [Build.cancel], [BuildManager.cancel_build] and
    [cancel_previous_pending] do, whether they return or raise: the store
    has the buildsets it had, each with the builds it had, and in the place
    of a build is that build as it was or a cancelled build with the same
    uuid.  None of them touches the queue of the manager. *)
Theorem cancelling_only_cancels :
  forall (E : Env) (self : Build) (u : uuid) (buildset : BuildSet) (w : World),
    (only_cancelled w (snd (cancel self w))
     /\ w_queue (snd (cancel self w)) = w_queue w)
    /\ (only_cancelled w (snd (cancel_build u w))
        /\ w_queue (snd (cancel_build u w)) = w_queue w)
    /\ (only_cancelled w (snd (cancel_previous_pending buildset w))
        /\ w_queue (snd (cancel_previous_pending buildset w)) = w_queue w).
Proof.
  intros E self u buildset w.
  pose proof only_cancelled_preorder as P.
  pose proof same_queue_preorder as Q.
  split; [|split].
  - split; [apply cancel_only_cancelled|].
    exact (proj1 (cancel_same_queue self w)).
  - split.
    + unfold cancel_build.
      apply (preserves_bind _ P); [apply Build_get_only_cancelled|].
      intros b. apply (preserves_try_except _ P).
      * apply (preserves_bind _ P); [apply cancel_only_cancelled|].
        intros [b' r]. apply (preserves_bind _ P);
          [apply emit_only_cancelled|].
        intros _. apply emit_only_cancelled.
      * intros e k He. destruct e; try discriminate. injection He as <-.
        apply emit_only_cancelled.
    + assert (Hq : preserves same_queue (cancel_build u)).
      { unfold cancel_build. apply (preserves_bind _ Q).
        - intros w0. rewrite Build_get_reads. apply (proj1 Q).
        - intros b. apply (preserves_try_except _ Q).
          + apply (preserves_bind _ Q); [apply cancel_same_queue|].
            intros [b' r]. apply (preserves_bind _ Q);
              [apply emit_same_queue|].
            intros _. apply emit_same_queue.
          + intros e k He. destruct e; try discriminate. injection He as <-.
            apply emit_same_queue. }
      exact (proj1 (Hq w)).
  - split.
    + unfold cancel_previous_pending.
      apply (preserves_bind _ P); [apply (preserves_get_world _ P)|].
      intros w0. apply (preserves_for_each _ P). intros _ bs'.
      apply (preserves_for_each _ P). intros _ b.
      apply (preserves_try_except _ P).
      * apply (preserves_bind _ P); [apply cancel_only_cancelled|].
        intros _. apply (preserves_ret _ P).
      * intros e k He. destruct e; try discriminate. injection He as <-.
        apply (preserves_ret _ P).
    + exact (proj1 (cancel_previous_pending_same_queue buildset w)).
Qed.

(** X10.  [BuildManager.cancel_build] on a build of the store that is
    neither pending nor running returns, and does nothing but log a
    warning.  On a pending build whose slave, if it has one, is in the
    store, it returns; the build is read back from the store as the build
    with the status cancelled; and what is sent is the signal
    [build_cancelled] by [Build.cancel], the notification
    ["build-cancelled"] and the signal [build_cancelled] again. *)
Theorem cancel_build_pending :
  forall (E : Env) (u : uuid) (w : World) (b : Build),
    Build_get u w = (Ok b, w) ->
    (str_in (status b) [PENDING; RUNNING] = false ->
     cancel_build u w
     = (Ok tt,
        with_trace w
          (w_trace w ++ [Logged "warning" "Could not cancel build {}"])))
    /\ (forall s,
          status b = PENDING ->
          deref_slave (slave b) w = (Ok s, w) ->
          let cancelled := set_status b CANCELLED in
          let w' := with_trace
                      (with_buildsets (after_dequeue s b w)
                         (updated_store cancelled (w_buildsets w)))
                      (w_trace w
                       ++ [build_cancelled_send (build_repository b) cancelled;
                           build_notify "build-cancelled" cancelled;
                           build_cancelled_send repository_id cancelled]) in
          cancel_build u w = (Ok tt, w')
          /\ Build_get u w' = (Ok cancelled, w')).
Proof.
  intros E u w b Hg. destruct (Build_get_found _ _ _ Hg) as [Hu Hown].
  split.
  - intros Hst. unfold cancel_build, bind at 1. rewrite Hg.
    unfold try_except, bind at 1, cancel. rewrite Hst. reflexivity.
  - intros s Hst Hs cancelled w'.
    assert (Hrun : cancel_build u w = (Ok tt, w')).
    { unfold cancel_build, bind at 1. rewrite Hg.
      unfold try_except, bind at 1.
      rewrite (cancel_pending b w s Hst Hs). rewrite Hu, Hown.
      unfold bind, emit. cbn [w_trace with_trace].
      unfold w', cancelled, with_trace.
      cbn [w_buildsets w_builders w_slaves w_queue w_is_building w_trace
           w_next_id w_clock].
      rewrite <- !app_assoc. reflexivity. }
    split; [exact Hrun|].
    assert (Hown' : existsb (owns_uuid (build_uuid cancelled))
                            (w_buildsets w) = true)
      by (cbn [build_uuid cancelled set_status]; rewrite Hu; exact Hown).
    destruct (Build_get_updated cancelled (w_buildsets w) Hown')
      as (bs & l' & Hf & bl & Hb).
    cbn [build_uuid cancelled set_status] in Hf, Hb. rewrite Hu in Hf, Hb.
    unfold Build_get, bind, get_world.
    unfold w' at 1. cbn [w_buildsets with_trace with_buildsets].
    rewrite Hf, Hb. reflexivity.
Qed.

(** X11.  [BuildManager.cancel_build] on a running build whose slave, if
    it has one, is in the store: it returns, the buildsets of the store are
    as they were, so that the build is still running there, and the
    notification ["build-cancelled"] and the signal [build_cancelled] are
    the last things sent, whether the request to the slave was sent and
    answered or not. *)
Theorem cancel_build_running :
  forall (E : Env) (u : uuid) (w : World) (b : Build) (s : option Slave),
    Build_get u w = (Ok b, w) ->
    status b = RUNNING ->
    deref_slave (slave b) w = (Ok s, w) ->
    exists sent,
      cancel_build u w
      = (Ok tt,
         with_trace w
           (w_trace w ++ sent
            ++ [build_notify "build-cancelled" b;
                build_cancelled_send repository_id b]))
      /\ Build_get u (snd (cancel_build u w))
         = (Ok b, snd (cancel_build u w)).
Proof.
  intros E u w b s Hg Hst Hs.
  assert (Hsame : forall sent,
            Build_get u (with_trace w sent) = (Ok b, with_trace w sent)).
  { intros sent. unfold Build_get, bind, get_world in *.
    cbn [w_buildsets with_trace].
    destruct (filter (owns_uuid u) (w_buildsets w)) as [|bs l];
      [discriminate|].
    destruct (filter (has_uuid u) (builds bs)) as [|b0 bl]; [discriminate|].
    unfold ret in *. injection Hg as <-. reflexivity. }
  assert (Hrun : exists sent,
            cancel_build u w
            = (Ok tt,
               with_trace w
                 (w_trace w ++ sent
                  ++ [build_notify "build-cancelled" b;
                      build_cancelled_send repository_id b]))).
  { unfold cancel_build, bind at 1. rewrite Hg.
    unfold try_except, bind at 1.
    rewrite (cancel_running b w s Hst Hs).
    destruct s as [sl|].
    - cbv zeta.
      destruct (cancel_request (slave_id sl) (build_uuid b)).
      + exists [cancel_build_request (slave_id sl) (build_uuid b)].
        unfold bind, emit, with_trace.
        cbn [w_buildsets w_builders w_slaves w_queue w_is_building w_trace
             w_next_id w_clock].
        rewrite <- !app_assoc. reflexivity.
      + exists [cancel_build_request (slave_id sl) (build_uuid b);
                Logged "error" "Error canceling running build"].
        unfold bind, emit, with_trace.
        cbn [w_buildsets w_builders w_slaves w_queue w_is_building w_trace
             w_next_id w_clock].
        rewrite <- !app_assoc. reflexivity.
    - exists [Logged "error" "Error canceling running build"].
      unfold bind, emit, with_trace.
      cbn [w_buildsets w_builders w_slaves w_queue w_is_building w_trace
           w_next_id w_clock].
      rewrite <- !app_assoc. reflexivity. }
  destruct Hrun as [sent Hrun]. exists sent. split; [exact Hrun|].
  rewrite Hrun. cbn [snd]. apply Hsame.
Qed.

(** X12.  [start_pending] always returns.  When the queue is empty and no
    build is being executed, it queues the first buildset of the
    repository that has a pending build, and that one only, and makes one
    task to execute the builds; otherwise, and when there is no such
    buildset, it does nothing. *)
Theorem start_pending_first_only : forall (E : Env) (w : World),
  start_pending w
  = (Ok tt,
     match filter (fun bs => existsb (fun b => String.eqb (status b) PENDING)
                                     (builds bs)
                             && Nat.eqb (repository bs) repository_id)
                  (w_buildsets w),
           w_queue w, w_is_building w with
     | first :: _, [], false =>
         with_trace (with_queue w [first])
           (w_trace w
            ++ [Logged "debug" "scheduling penging builds for {}";
                Logged "debug" "schedule pending buildset {}";
                execute_builds_task repository_id])
     | _, _, _ => w
     end).
Proof.
  intros E w. unfold start_pending, bind at 1, get_world.
  destruct (filter _ (w_buildsets w)) as [|first rest]; [reflexivity|].
  destruct (w_queue w) as [|q l] eqn:Hq.
  - destruct (w_is_building w) eqn:Hb.
    + apply start_pending_step_busy. right. exact Hb.
    + cbn [for_each]. unfold bind at 1.
      unfold start_pending_step at 1, bind at 1, get_world. rewrite Hq, Hb.
      cbn [negb]. unfold log, bind, emit, get_world, put_world.
      unfold with_trace, with_queue.
      cbn [w_buildsets w_builders w_slaves w_queue w_is_building w_trace
           w_next_id w_clock].
      rewrite Hq, Hb. cbn [app].
      rewrite start_pending_step_busy by (left; cbn [w_queue]; discriminate).
      rewrite <- !app_assoc. reflexivity.
  - apply start_pending_step_busy. left. rewrite Hq. discriminate.
Qed.

Lemma cancel_build_pending_witness :
  let w := world_with_slave "pending" in
  exists w',
    @cancel_build (example_env false (Ok tt)) 3 w = (Ok tt, w')
    /\ Build_get 3 w' = (Ok (build_on_slave "cancelled"), w')
    /\ w_slaves w' = [mkSlave 7 [] 0%Z].
Proof.
  intros w.
  destruct (@cancel_build_pending (example_env false (Ok tt)) 3 w
              (build_on_slave "pending") eq_refl) as [_ H].
  destruct (H (Some (mkSlave 7 [3] 1%Z)) eq_refl eq_refl) as [Hrun Hget].
  eexists. split; [exact Hrun|]. split; [exact Hget|]. reflexivity.
Defined.

Lemma cancel_build_running_witness :
  exists sent,
    fst (@cancel_build (example_env false (Raise (OtherError "ConnectionRefusedError"))) 3
                       (world_with_slave "running"))
    = Ok tt
    /\ w_trace (snd (@cancel_build (example_env false (Raise (OtherError "ConnectionRefusedError")))
                                   3 (world_with_slave "running")))
       = (sent ++ [build_notify "build-cancelled" (build_on_slave "running");
                   build_cancelled_send 1 (build_on_slave "running")])%list.
Proof.
  destruct (@cancel_build_running (example_env false (Raise (OtherError "ConnectionRefusedError")))
              3 (world_with_slave "running") (build_on_slave "running")
              (Some (mkSlave 7 [3] 1%Z)) eq_refl eq_refl eq_refl)
    as (sent & Hrun & _).
  exists sent. rewrite Hrun. split; reflexivity.
Defined.

(** ** [add_builds_for_buildset] with given builders *)

Section AddGivenFacts.
Context {E : Env}.

Lemma new_builds_plain_fields : forall all rev origin l u last,
  Forall (fun b => status b = PENDING /\ slave b = None
                   /\ build_repository b = repository_id
                   /\ build_branch b = branch rev
                   /\ named_tree b = commit rev
                   /\ builders_from b = origin)
         (new_builds all rev origin u last l).
Proof.
  intros all rev origin l. induction l as [|b l IH]; intros u last.
  - constructor.
  - cbn [new_builds]. constructor; [|apply IH].
    unfold new_build. cbn. repeat split.
Qed.

End AddGivenFacts.

(** X13.  [add_builds_for_buildset] with builders given always returns.
    The buildset it returns has, after the builds it had, one new build
    for each builder, in the order of the builders: pending, without
    slave, of the repository, with the branch and the commit of the
    revision of the buildset and the origin given.  The buildset is in the
    store, and is the one thing added to the queue, at its end. *)
Theorem add_builds_for_buildset_one_per_builder :
  forall (E : Env) (bs : BuildSet) (conf : Config) (builders : list Builder)
         (origin : option string) (w : World),
    builders <> [] ->
    exists bs' w' new,
      add_builds_for_buildset bs conf builders origin w = (Ok bs', w')
      /\ bs' = set_builds bs (builds bs ++ new)
      /\ map builder new = builders
      /\ Forall (fun b => status b = PENDING /\ slave b = None
                          /\ build_repository b = repository_id
                          /\ build_branch b = branch (revision bs)
                          /\ named_tree b = commit (revision bs)
                          /\ builders_from b = origin) new
      /\ In bs' (w_buildsets w')
      /\ w_queue w' = (w_queue w ++ [bs'])%list.
Proof.
  intros E bs conf builders origin w Hne.
  assert (Hres : resolve_builders (revision bs) conf builders origin w
                 = (Ok (builders, origin), w)).
  { destruct builders; [congruence|reflexivity]. }
  pose proof (add_builds_for_buildset_eval bs conf builders origin w
                builders origin w Hres) as Hrun.
  cbv zeta in Hrun.
  set (new := new_builds builders (revision bs) origin (w_next_id w)
                (max0 (repo_numbers (w_buildsets w))) builders) in *.
  exists (set_builds bs (builds bs ++ new)),
         (after_queued (after_builds w bs new)
                       (set_builds bs (builds bs ++ new))),
         new.
  split; [exact Hrun|]. split; [reflexivity|].
  split; [exact (proj1 (new_builds_fields builders (revision bs) origin
                          builders (w_next_id w)
                          (max0 (repo_numbers (w_buildsets w)))))|].
  split; [apply new_builds_plain_fields|].
  split.
  - unfold after_queued, after_builds.
    cbn [w_buildsets with_trace with_queue].
    destruct new as [|n new'] eqn:Hnew.
    + exfalso. destruct builders; [congruence|]. discriminate Hnew.
    + apply save_in_In.
  - reflexivity.
Qed.

Lemma add_builds_for_buildset_one_per_builder_witness :
  exists bs' w',
    @add_builds_for_buildset (example_env false (Ok tt)) empty_buildset
      conf_master_only builders_a_b (Some "master")
      (world_of [empty_buildset])
    = (Ok bs', w')
    /\ map (fun b => (name (builder b), status b, number b)) (builds bs')
       = [("a", "pending", 1%Z); ("b", "pending", 2%Z)]
    /\ map buildset_id (w_queue w') = [1].
Proof.
  destruct (@add_builds_for_buildset_one_per_builder
              (example_env false (Ok tt)) empty_buildset conf_master_only
              builders_a_b (Some "master") (world_of [empty_buildset]))
    as (bs' & w' & new & Hrun & _).
  - discriminate.
  - exists bs', w'. split; [exact Hrun|].
    vm_compute in Hrun. injection Hrun as <- <-. split; reflexivity.
Defined.

(** ** [BuildClient.healthcheck] and [BuildClient.build] *)

(** X14.  [BuildClient.healthcheck] lets no exception of the connection
    through.  It returns true exactly when the request is written and a
    response that is not the empty string is read; it returns false
    exactly when the write or the read raises; and the one exception it
    raises is [ToxicClientException], exactly when the request is written
    and the response is the empty string. *)
Theorem healthcheck_outcomes :
  forall (Body : Type) (written : result unit) (conn : Connection Body),
    (healthcheck written conn = Ok true
     <-> exists items, written = Ok tt /\ conn 0 = Ok (Frame items))
    /\ (healthcheck written conn = Ok false
        <-> (exists e, written = Raise e)
            \/ (written = Ok tt /\ exists e, conn 0 = Raise e))
    /\ (forall e, healthcheck written conn = Raise e
                  <-> e = ToxicClientException /\ written = Ok tt
                      /\ conn 0 = Ok (EmptyResponse Body)).
Proof.
  intros Body written conn. unfold healthcheck.
  destruct written as [[]|e0].
  - destruct (conn 0) as [[|items]|e1].
    + split; [|split].
      * split; [discriminate|]. intros (items & _ & H). discriminate.
      * split; [discriminate|].
        intros [[e H]|[_ [e H]]]; discriminate.
      * intros e. split.
        -- intros H. injection H as <-. auto.
        -- intros (-> & _ & _). reflexivity.
    + split; [|split].
      * split; [|reflexivity]. intros _. exists items. auto.
      * split; [discriminate|].
        intros [[e H]|[_ [e H]]]; discriminate.
      * intros e. split; [discriminate|]. intros (_ & _ & H). discriminate.
    + split; [|split].
      * split; [discriminate|]. intros (items & _ & H). discriminate.
      * split; [|reflexivity]. intros _. right. split; [reflexivity|].
        exists e1. reflexivity.
      * intros e. split; [discriminate|]. intros (_ & _ & H). discriminate.
  - split; [|split].
    + split; [discriminate|]. intros (items & H & _). discriminate.
    + split; [|reflexivity]. intros _. left. exists e0. reflexivity.
    + intros e. split; [discriminate|]. intros (_ & H & _). discriminate.
Qed.

Section StreamFacts.
Variable Body : Type.

Lemma iterate_still_running : forall (conn : Connection Body) bodies k fuel,
  (forall i, i < List.length bodies ->
     exists r, conn (k + i) = Ok r /\ falsy r = false
               /\ response_get r "body" = nth_error bodies i) ->
  fuel <= List.length bodies ->
  iterate fuel conn k = (firstn fuel bodies, StillRunning).
Proof.
  intros conn. induction bodies as [|b bodies IH]; intros k fuel Hframes Hfuel.
  - destruct fuel; [reflexivity|]. inversion Hfuel.
  - destruct fuel as [|fuel]; [reflexivity|]. cbn [iterate firstn].
    destruct (Hframes 0) as (r & Hr & Hf & Hb); [cbn; lia|].
    rewrite Nat.add_0_r in Hr. cbn [nth_error] in Hb.
    unfold build_resume. rewrite Hr, Hf, Hb.
    rewrite (IH (S k) fuel).
    + reflexivity.
    + intros i Hi. destruct (Hframes (S i)) as (r' & Hr' & Hf' & Hb');
        [cbn; lia|].
      exists r'. rewrite Nat.add_succ_comm. auto.
    + cbn [List.length] in Hfuel. lia.
Qed.

Lemma iterate_raised : forall (conn : Connection Body) bodies k e fuel,
  (forall i, i < List.length bodies ->
     exists r, conn (k + i) = Ok r /\ falsy r = false
               /\ response_get r "body" = nth_error bodies i) ->
  conn (k + List.length bodies) = Raise e ->
  List.length bodies < fuel ->
  iterate fuel conn k = (bodies, Raised e).
Proof.
  intros conn. induction bodies as [|b bodies IH];
    intros k e fuel Hframes Hlast Hfuel.
  - destruct fuel as [|fuel]; [inversion Hfuel|]. cbn [iterate].
    cbn [List.length] in Hlast. rewrite Nat.add_0_r in Hlast.
    unfold build_resume. rewrite Hlast. reflexivity.
  - destruct fuel as [|fuel]; [inversion Hfuel|]. cbn [iterate].
    destruct (Hframes 0) as (r & Hr & Hf & Hb); [cbn; lia|].
    rewrite Nat.add_0_r in Hr. cbn [nth_error] in Hb.
    unfold build_resume. rewrite Hr, Hf, Hb.
    rewrite (IH (S k) e fuel).
    + reflexivity.
    + intros i Hi. destruct (Hframes (S i)) as (r' & Hr' & Hf' & Hb');
        [cbn; lia|].
      exists r'. rewrite Nat.add_succ_comm. auto.
    + cbn [List.length] in Hlast. rewrite Nat.add_succ_comm. exact Hlast.
    + cbn [List.length] in Hfuel. lia.
Qed.
End StreamFacts.

(** X15.  When the responses to a build request begin with frames that
    each carry a body: an iteration over [build] that is resumed no more
    often than there are such frames has yielded the bodies of the first
    of them, one for each resumption, and is not over; and when reading
    the response after these frames raises, the iteration yields all their
    bodies and then raises that exception.  When writing the request
    raises, the iteration raises that exception and yields nothing. *)
Theorem build_yields_until_stopped_or_raised :
  forall (Body : Type) (conn : Connection Body) (bodies : list Body)
         (fuel : nat),
    (forall i, i < List.length bodies ->
       exists r, conn i = Ok r /\ falsy r = false
                 /\ response_get r "body" = nth_error bodies i) ->
    (fuel <= List.length bodies ->
     build (Ok tt) fuel conn = (firstn fuel bodies, StillRunning))
    /\ (forall e, conn (List.length bodies) = Raise e ->
                  List.length bodies < fuel ->
                  build (Ok tt) fuel conn = (bodies, Raised e))
    /\ (forall e, build (Raise e) fuel conn = ([], Raised e)).
Proof.
  intros Body conn bodies fuel Hframes. split; [|split].
  - intros Hfuel. unfold build.
    apply (iterate_still_running Body conn bodies 0 fuel); auto.
  - intros e Hlast Hfuel. unfold build.
    apply (iterate_raised Body conn bodies 0 e fuel); auto.
  - intros e. reflexivity.
Qed.

Lemma build_yields_until_stopped_or_raised_witness :
  build (Ok tt) 1 two_frames = (["build_info"], StillRunning)
  /\ build (Ok tt) 5
       (fun n => match n with
                 | 0 => Ok (Frame [("body", Some "build_info")])
                 | _ => Raise (OtherError "ConnectionResetError")
                 end)
     = (["build_info"], Raised (OtherError "ConnectionResetError")).
Proof.
  split.
  - assert (Hframes : forall i, i < List.length ["build_info"; "step_info"] ->
              exists r, two_frames i = Ok r /\ falsy r = false
                        /\ response_get r "body"
                           = nth_error ["build_info"; "step_info"] i).
    { intros i Hi. cbn in Hi. destruct i as [|[|i]]; [| |lia].
      - exists (Frame [("code", Some "0"); ("body", Some "build_info")]).
        repeat split.
      - exists (Frame [("body", Some "step_info")]). repeat split. }
    apply (proj1 (build_yields_until_stopped_or_raised string two_frames
                    ["build_info"; "step_info"] 1 Hframes)).
    cbn. lia.
  - set (conn := fun n : nat =>
                   match n with
                   | 0 => Ok (Frame [("body", Some "build_info")])
                   | _ => Raise (OtherError "ConnectionResetError")
                   end).
    assert (Hframes : forall i, i < List.length ["build_info"] ->
              exists r, conn i = Ok r /\ falsy r = false
                        /\ response_get r "body"
                           = nth_error ["build_info"] i).
    { intros i Hi. cbn in Hi. destruct i as [|i]; [|lia].
      exists (Frame [("body", Some "build_info")]). repeat split. }
    apply (proj1 (proj2 (build_yields_until_stopped_or_raised string conn
                           ["build_info"] 5 Hframes))).
    + reflexivity.
    + cbn. lia.
Defined.

(** ** [BuildExecuter]: the counter of running builds *)



(** ** [cancel_previous_pending]: what is cancelled *)

Lemma cancel_if_pending_uuid : forall uuids b,
  build_uuid (cancel_if_pending uuids b) = build_uuid b.
Proof.
  intros uuids b. unfold cancel_if_pending.
  destruct (_ && _); reflexivity.
Qed.

Lemma cancel_if_pending_other : forall uuids u b,
  build_uuid b <> u ->
  cancel_if_pending (uuids ++ [u]) b = cancel_if_pending uuids b.
Proof.
  intros uuids u b Hne. unfold cancel_if_pending.
  rewrite existsb_app. cbn [existsb].
  apply Nat.eqb_neq in Hne. rewrite Hne, !orb_false_r. reflexivity.
Qed.

Lemma cancel_if_pending_not_pending : forall uuids b,
  status b <> PENDING -> cancel_if_pending uuids b = b.
Proof.
  intros uuids b Hne. unfold cancel_if_pending.
  apply String.eqb_neq in Hne. rewrite Hne, andb_false_r. reflexivity.
Qed.

Lemma cancel_if_pending_self : forall uuids b,
  status b = PENDING ->
  cancel_if_pending (uuids ++ [build_uuid b]) b = set_status b CANCELLED.
Proof.
  intros uuids b Hst. unfold cancel_if_pending.
  rewrite existsb_app. cbn [existsb].
  rewrite Nat.eqb_refl, Hst, orb_true_r. reflexivity.
Qed.

Lemma cancel_pending_of_nil : forall l, cancel_pending_of [] l = l.
Proof.
  intros l. unfold cancel_pending_of.
  rewrite <- (map_id l) at 2. apply map_ext. intros bs.
  assert (H : map (cancel_if_pending []) (builds bs) = builds bs).
  { rewrite <- (map_id (builds bs)) at 2. apply map_ext. reflexivity. }
  rewrite H. destruct bs; reflexivity.
Qed.

Lemma set_builds_S_absent : forall self l,
  existsb (has_uuid (build_uuid self)) l = false -> set_builds_S self l = l.
Proof.
  intros self l. induction l as [|x l IH]; [reflexivity|].
  cbn [existsb set_builds_S]. intros H. apply orb_false_iff in H.
  destruct H as [-> H]. rewrite IH by exact H. reflexivity.
Qed.

Lemma in_all_builds : forall l bs b,
  In bs l -> In b (builds bs) -> In b (all_builds l).
Proof.
  intros l bs b Hbs Hb. unfold all_builds. apply in_flat_map.
  exists bs. auto.
Qed.

Lemma NoDup_uuids_local : forall l bs,
  NoDup (map build_uuid (all_builds l)) -> In bs l ->
  NoDup (map build_uuid (builds bs)).
Proof.
  intros l bs. unfold all_builds. induction l as [|x l IH]; [intros _ []|].
  cbn [flat_map]. rewrite map_app. intros Hnd [->|Hin].
  - exact (NoDup_app_remove_r _ _ Hnd).
  - apply IH; [|exact Hin]. exact (NoDup_app_remove_l _ _ Hnd).
Qed.

(** Cancelling a pending build in a list of builds with distinct uuids. *)
Lemma set_builds_S_cancel_if_pending : forall uuids b l,
  NoDup (map build_uuid l) ->
  (forall x, In x l -> build_uuid x = build_uuid b -> x = b) ->
  status b = PENDING ->
  set_builds_S (set_status b CANCELLED) (map (cancel_if_pending uuids) l)
  = map (cancel_if_pending (uuids ++ [build_uuid b])) l.
Proof.
  intros uuids b l Hnd Huniq Hst.
  induction l as [|x l IH]; [reflexivity|].
  cbn [map set_builds_S]. unfold has_uuid at 1.
  rewrite cancel_if_pending_uuid. cbn [build_uuid set_status].
  inversion Hnd as [|? ? Hnot Hnd']; subst.
  destruct (Nat.eqb (build_uuid x) (build_uuid b)) eqn:Hx.
  - apply Nat.eqb_eq in Hx.
    assert (x = b) by (apply Huniq; [left; reflexivity|exact Hx]). subst x.
    rewrite (cancel_if_pending_self _ _ Hst). f_equal.
    apply map_ext_in. intros y Hy. symmetry. apply cancel_if_pending_other.
    intros Heq. apply Hnot. rewrite <- Heq. apply in_map. exact Hy.
  - apply Nat.eqb_neq in Hx. rewrite (cancel_if_pending_other _ _ _ Hx).
    f_equal. apply IH; [exact Hnd'|].
    intros y Hy. apply Huniq. right. exact Hy.
Qed.

Lemma after_dequeue_slave_ids : forall s self w,
  map slave_id (w_slaves (after_dequeue s self w)) = map slave_id (w_slaves w).
Proof.
  intros [sl|] self w; [|reflexivity].
  unfold after_dequeue, dequeue_build, bind, get_world.
  destruct (existsb (Nat.eqb (build_uuid self)) (enqueued_builds sl));
    [|reflexivity].
  unfold put_world, ret. cbn [snd w_slaves with_slaves].
  rewrite map_map. apply map_ext. intros x.
  destruct (Nat.eqb (slave_id x) (slave_id sl)) eqn:Hx; [|reflexivity].
  apply Nat.eqb_eq in Hx. cbn [slave_id]. congruence.
Qed.

Lemma deref_slave_found : forall ref w,
  (forall i, ref = Some i -> In i (map slave_id (w_slaves w))) ->
  exists s, deref_slave ref w = (Ok s, w).
Proof.
  intros [i|] w H; [|exists None; reflexivity].
  specialize (H i eq_refl). apply in_map_iff in H.
  destruct H as (s & Hs & Hin).
  unfold deref_slave, bind, get_world.
  destruct (filter (fun s => Nat.eqb (slave_id s) i) (w_slaves w))
    as [|s' l] eqn:Hf.
  - exfalso.
    assert (Hin' : In s (filter (fun s => Nat.eqb (slave_id s) i)
                                (w_slaves w))).
    { apply filter_In. split; [exact Hin|]. apply Nat.eqb_eq. exact Hs. }
    rewrite Hf in Hin'. destruct Hin'.
  - exists (Some s'). reflexivity.
Qed.

Section PreviousPending.
Context {E : Env}.

(** The world at the call. *)
Variable w0 : World.
Hypothesis w0_distinct : distinct_uuids w0.
Hypothesis w0_slaves : slaves_in_store w0.

Lemma build_unique : forall x b,
  In x (all_builds (w_buildsets w0)) -> In b (all_builds (w_buildsets w0)) ->
  build_uuid x = build_uuid b -> x = b.
Proof.
  intros x b Hx Hb Heq.
  exact (NoDup_map_same _ _ build_uuid _ x b w0_distinct Hx Hb Heq).
Qed.

Lemma passed_not_pending : forall done b w w',
  passed w0 done w -> In b (all_builds (w_buildsets w0)) ->
  status b <> PENDING ->
  w_buildsets w' = w_buildsets w -> w_slaves w' = w_slaves w ->
  passed w0 (done ++ [build_uuid b]) w'.
Proof.
  intros done b w w' [Hstore Hids] Hb Hst Hsame Hsl. split.
  - rewrite Hsame, Hstore. unfold cancel_pending_of.
    apply map_ext_in. intros bs Hbs. f_equal.
    apply map_ext_in. intros x Hx. symmetry.
    destruct (Nat.eq_dec (build_uuid x) (build_uuid b)) as [Heq|Hne].
    + assert (x = b)
        by (apply build_unique; eauto using in_all_builds).
      subst x. rewrite !cancel_if_pending_not_pending by exact Hst.
      reflexivity.
    + apply cancel_if_pending_other. exact Hne.
  - rewrite Hsl. exact Hids.
Qed.

Lemma passed_pending : forall done b,
  In b (all_builds (w_buildsets w0)) -> status b = PENDING ->
  updated_store (set_status b CANCELLED)
                (cancel_pending_of done (w_buildsets w0))
  = cancel_pending_of (done ++ [build_uuid b]) (w_buildsets w0).
Proof.
  intros done b Hb Hst. unfold updated_store, cancel_pending_of.
  rewrite map_map. apply map_ext_in. intros bs Hbs.
  assert (Hstep :
            set_builds_S (set_status b CANCELLED)
                         (map (cancel_if_pending done) (builds bs))
            = map (cancel_if_pending (done ++ [build_uuid b])) (builds bs)).
  { apply set_builds_S_cancel_if_pending.
    - exact (NoDup_uuids_local _ _ w0_distinct Hbs).
    - intros x Hx Heq. apply build_unique; eauto using in_all_builds.
    - exact Hst. }
  unfold owns_uuid. cbn [builds set_builds build_uuid set_status].
  destruct (existsb (has_uuid (build_uuid b))
                    (map (cancel_if_pending done) (builds bs))) eqn:Hown.
  - cbn [set_builds buildset_id repository revision buildset_branch builds
         created buildset_status buildset_number].
    rewrite Hstep. reflexivity.
  - rewrite <- Hstep.
    rewrite (set_builds_S_absent (set_status b CANCELLED) _ Hown).
    reflexivity.
Qed.

Lemma owned_when_passed : forall done b,
  In b (all_builds (w_buildsets w0)) ->
  existsb (owns_uuid (build_uuid b))
          (cancel_pending_of done (w_buildsets w0)) = true.
Proof.
  intros done b Hb. unfold all_builds in Hb. apply in_flat_map in Hb.
  destruct Hb as (bs & Hbs & Hb). apply existsb_exists.
  exists (set_builds bs (map (cancel_if_pending done) (builds bs))).
  split.
  - unfold cancel_pending_of. apply in_map_iff. exists bs. auto.
  - unfold owns_uuid. cbn [builds set_builds]. apply existsb_exists.
    exists (cancel_if_pending done b). split.
    + apply in_map. exact Hb.
    + unfold has_uuid. rewrite cancel_if_pending_uuid. apply Nat.eqb_refl.
Qed.

(** One build of the loop. *)
Lemma cancel_passes : forall done b w,
  passed w0 done w -> In b (all_builds (w_buildsets w0)) ->
  exists w',
    try_except (cancel b ;; ret tt)
               (fun e => match e with
                         | ImpossibleCancellation => Some (ret tt)
                         | _ => None
                         end) w
    = (Ok tt, w')
    /\ passed w0 (done ++ [build_uuid b]) w'.
Proof.
  intros done b w Hpassed Hb.
  destruct (str_in (status b) [PENDING; RUNNING]) eqn:Hc.
  - destruct (deref_slave_found (slave b) w) as [s Hs].
    { intros i Hi. rewrite (proj2 Hpassed). exact (w0_slaves b i Hb Hi). }
    apply str_in_In in Hc. destruct Hc as [Hst|[Hst|[]]]; symmetry in Hst.
    + unfold try_except, bind.
      rewrite (cancel_pending b w s Hst Hs).
      rewrite (proj1 Hpassed), (owned_when_passed done b Hb).
      eexists. split; [reflexivity|]. split.
      * cbn [w_buildsets with_trace with_buildsets].
        apply passed_pending; assumption.
      * cbn [w_slaves with_trace with_buildsets].
        rewrite after_dequeue_slave_ids. exact (proj2 Hpassed).
    + assert (Hnp : status b <> PENDING) by (rewrite Hst; discriminate).
      unfold try_except, bind. rewrite (cancel_running b w s Hst Hs).
      destruct s as [sl|].
      * cbv zeta.
        destruct (cancel_request (slave_id sl) (build_uuid b));
          (eexists; split; [reflexivity|];
           apply (passed_not_pending done b w); auto).
      * eexists. split; [reflexivity|].
        apply (passed_not_pending done b w); auto.
  - assert (Hnp : status b <> PENDING).
    { intros Hst. rewrite Hst in Hc. discriminate. }
    exists w. split.
    + unfold try_except, bind, cancel. rewrite Hc. reflexivity.
    + apply (passed_not_pending done b w); auto.
Qed.

Lemma builds_pass : forall l done w,
  passed w0 done w ->
  (forall b, In b l -> In b (all_builds (w_buildsets w0))) ->
  exists w',
    for_each l
      (fun _ build =>
         try_except (cancel build ;; ret tt)
                    (fun e => match e with
                              | ImpossibleCancellation => Some (ret tt)
                              | _ => None
                              end)) tt w
    = (Ok tt, w')
    /\ passed w0 (done ++ map build_uuid l) w'.
Proof.
  induction l as [|b l IH]; intros done w Hpassed Hl.
  - exists w. split; [reflexivity|]. cbn [map]. rewrite app_nil_r.
    exact Hpassed.
  - destruct (cancel_passes done b w Hpassed (Hl b (or_introl eq_refl)))
      as (w1 & Hrun & Hpassed1).
    destruct (IH (done ++ [build_uuid b])%list w1 Hpassed1) as (w' & Hrest & H').
    { intros x Hx. apply Hl. right. exact Hx. }
    exists w'. split.
    + cbn [for_each]. unfold bind at 1. rewrite Hrun. exact Hrest.
    + cbn [map]. rewrite <- app_assoc in H'. exact H'.
Qed.

Lemma buildsets_pass : forall l done w,
  passed w0 done w -> (forall bs, In bs l -> In bs (w_buildsets w0)) ->
  exists w',
    for_each l
      (fun _ buildset =>
         for_each (builds buildset)
           (fun _ build =>
              try_except (cancel build ;; ret tt)
                         (fun e => match e with
                                   | ImpossibleCancellation => Some (ret tt)
                                   | _ => None
                                   end)) tt) tt w
    = (Ok tt, w')
    /\ passed w0 (done ++ map build_uuid (all_builds l)) w'.
Proof.
  induction l as [|bs l IH]; intros done w Hpassed Hl.
  - exists w. split; [reflexivity|]. cbn. rewrite app_nil_r. exact Hpassed.
  - destruct (builds_pass (builds bs) done w Hpassed) as (w1 & Hrun & Hpassed1).
    { intros b Hb. apply (in_all_builds _ bs); [|exact Hb].
      apply Hl. left. reflexivity. }
    destruct (IH (done ++ map build_uuid (builds bs))%list w1 Hpassed1)
      as (w' & Hrest & H').
    { intros x Hx. apply Hl. right. exact Hx. }
    exists w'. split.
    + cbn [for_each]. unfold bind at 1. rewrite Hrun. exact Hrest.
    + unfold all_builds in *. cbn [flat_map]. rewrite map_app.
      rewrite <- app_assoc in H'. exact H'.
Qed.

Lemma cancel_previous_pending_store : forall buildset,
  exists w',
    cancel_previous_pending buildset w0 = (Ok tt, w')
    /\ w_buildsets w'
       = cancel_pending_of
           (map build_uuid
                (all_builds (previous_buildsets buildset (w_buildsets w0))))
           (w_buildsets w0).
Proof.
  intros buildset.
  destruct (buildsets_pass (previous_buildsets buildset (w_buildsets w0))
                           [] w0) as (w' & Hrun & Hstore & _).
  - split; [|reflexivity]. symmetry. apply cancel_pending_of_nil.
  - intros bs Hbs. unfold previous_buildsets in Hbs.
    apply filter_In in Hbs. exact (proj1 Hbs).
  - exists w'. split; [|exact Hstore].
    unfold cancel_previous_pending, bind at 1, get_world. exact Hrun.
Qed.
End PreviousPending.

(** X17.  In a store where the uuids of the builds are distinct and the
    slave of every build is in the store, [cancel_previous_pending] always
    returns.  The store is then as it was, but that the pending builds of
    the buildsets the query finds (same repository and branch, created
    before, with a build pending or running) are cancelled; their running
    builds stay running.  Afterwards no buildset of that repository and
    branch created before the given one has a pending build. *)
Theorem cancel_previous_pending_cancels :
  forall (E : Env) (buildset : BuildSet) (w : World),
    distinct_uuids w -> slaves_in_store w ->
    exists w',
      cancel_previous_pending buildset w = (Ok tt, w')
      /\ w_buildsets w'
         = cancel_pending_of
             (map build_uuid
                  (all_builds (previous_buildsets buildset (w_buildsets w))))
             (w_buildsets w)
      /\ (forall bs b,
            In bs (w_buildsets w') ->
            repository bs = repository buildset ->
            buildset_branch bs = buildset_branch buildset ->
            created bs < created buildset ->
            In b (builds bs) -> status b <> PENDING).
Proof.
  intros E buildset w Hdistinct Hslaves.
  destruct (cancel_previous_pending_store w Hdistinct Hslaves buildset)
    as (w' & Hrun & Hstore).
  exists w'. split; [exact Hrun|]. split; [exact Hstore|].
  intros bs' b' Hbs' Hrepo Hbranch Hcreated Hb'.
  rewrite Hstore in Hbs'. unfold cancel_pending_of in Hbs'.
  apply in_map_iff in Hbs'. destruct Hbs' as (bs & <- & Hbs).
  cbn [builds set_builds repository buildset_branch created] in *.
  apply in_map_iff in Hb'. destruct Hb' as (b & <- & Hb).
  destruct (String.eqb (status b) PENDING) eqn:Hst.
  - apply String.eqb_eq in Hst.
    assert (Hprev : In bs (previous_buildsets buildset (w_buildsets w))).
    { unfold previous_buildsets. apply filter_In. split; [exact Hbs|].
      rewrite Hrepo, Hbranch, Nat.eqb_refl, String.eqb_refl.
      cbn [andb]. apply andb_true_iff. split.
      - apply existsb_exists. exists b. split; [exact Hb|].
        rewrite Hst. reflexivity.
      - apply Nat.ltb_lt. exact Hcreated. }
    unfold cancel_if_pending.
    assert (Hin : existsb (Nat.eqb (build_uuid b))
                    (map build_uuid
                       (all_builds
                          (previous_buildsets buildset (w_buildsets w))))
                  = true).
    { apply existsb_exists. exists (build_uuid b). split.
      - apply in_map. exact (in_all_builds _ bs b Hprev Hb).
      - apply Nat.eqb_refl. }
    rewrite Hin, Hst. change (String.eqb PENDING PENDING) with true.
    cbn [andb status set_status]. discriminate.
  - apply String.eqb_neq in Hst.
    rewrite (cancel_if_pending_not_pending _ _ Hst). exact Hst.
Qed.

Lemma cancel_previous_pending_cancels_witness :
  exists w',
    @cancel_previous_pending (example_env true (Ok tt))
      (mkBuildSet 2 1 (revision_of 2 "master" true) "master"
                  [build_of 3 "a" "pending" []] 5 "pending" 2%Z)
      (world_of store_old_and_new)
    = (Ok tt, w')
    /\ map (fun bs => map status (builds bs)) (w_buildsets w')
       = [["cancelled"; "success"]; ["pending"]].
Proof.
  destruct (cancel_previous_pending_cancels (example_env true (Ok tt))
              (mkBuildSet 2 1 (revision_of 2 "master" true) "master"
                          [build_of 3 "a" "pending" []] 5 "pending" 2%Z)
              (world_of store_old_and_new))
    as (w' & Hrun & Hstore & _).
  - unfold distinct_uuids. cbn.
    repeat constructor; cbn; intuition discriminate.
  - intros b i Hb Hi. cbn in Hb.
    destruct Hb as [<-|[<-|[<-|[]]]]; discriminate Hi.
  - exists w'. split; [exact Hrun|]. rewrite Hstore. reflexivity.
Defined.
